(** * ChronoSync: timetable parsing pipeline and calendar sync engine

    A shallow embedding of the three services of the repository

      - [services/local-parser.ts]   (class [LocalFileParser]),
      - [services/llm-parser.ts]     (class [LLMTimetableParser]),
      - [services/google-calendar.ts] (class [GoogleCalendarService]),

    together with the fragment of the JavaScript runtime they rely on
    (strings, [Number], [Date], [JSON.parse]).

    Modelling conventions.
      - A JavaScript string is a Rocq [string]; the characters are taken
        to be ASCII: case mapping and white space are the ASCII ones.
      - A JavaScript number is [NaN] or an integer ([jsnum]).  The numeric
        literals recognised by [Number] are the optionally signed decimal
        integers; every statement that goes through [Number] is about
        texts of that form, or about texts that are not a numeric
        literal of JavaScript, on which [Number] is [NaN] in the
        language as in the model.
      - A [Date] is its time value: [None] for an invalid date, otherwise
        milliseconds since the epoch (UTC).  The host's time zone is its
        local time zone adjustment [LocalTZA], which may change with the
        instant (daylight saving), and the clock is the field [now] of
        the environment.
      - An exception is a value of the error monad [result]. *)

From Stdlib Require Import ZArith List Bool Ascii String Lia Permutation.
From Stdlib Require Import DecimalString DecimalZ.
From Stdlib Require DecimalFacts DecimalPos.
Import ListNotations.

Local Open Scope list_scope.
Local Open Scope string_scope.

(* ------------------------------------------------------------------ *)
(** * JavaScript strings *)

Module JSString.

Definition in_range (lo hi : nat) (c : ascii) : bool :=
  (lo <=? nat_of_ascii c)%nat && (nat_of_ascii c <=? hi)%nat.

(** [\d] *)
Definition is_digit (c : ascii) : bool := in_range 48 57 c.

(** [\s] and the characters removed by [trim], ASCII part:
    TAB, LF, VT, FF, CR and SPACE. *)
Definition is_space (c : ascii) : bool :=
  in_range 9 13 c || (nat_of_ascii c =? 32)%nat.

Definition lower_char (c : ascii) : ascii :=
  if in_range 65 90 c then ascii_of_nat (nat_of_ascii c + 32) else c.

Definition upper_char (c : ascii) : ascii :=
  if in_range 97 122 c then ascii_of_nat (nat_of_ascii c - 32) else c.

Fixpoint map_chars (f : ascii -> ascii) (s : string) : string :=
  match s with
  | EmptyString => EmptyString
  | String c r => String (f c) (map_chars f r)
  end.

Definition toLowerCase : string -> string := map_chars lower_char.
Definition toUpperCase : string -> string := map_chars upper_char.

Definition is_empty (s : string) : bool :=
  match s with EmptyString => true | _ => false end.

Fixpoint trimStart (s : string) : string :=
  match s with
  | EmptyString => EmptyString
  | String c r => if is_space c then trimStart r else s
  end.

Fixpoint trimEnd (s : string) : string :=
  match s with
  | EmptyString => EmptyString
  | String c r =>
      let r' := trimEnd r in
      if is_space c && is_empty r' then EmptyString else String c r'
  end.

Definition trim (s : string) : string := trimEnd (trimStart s).

(** [s.includes(sub)] *)
Fixpoint includes (s sub : string) : bool :=
  prefix sub s ||
  match s with
  | EmptyString => false
  | String _ r => includes r sub
  end.

(** [s.split(sep)] for a non-empty separator.  [skip] counts the
    characters of a separator occurrence that remain to be dropped,
    [cur] is the piece being read, in reverse. *)
Fixpoint rev_string (acc : string) (s : string) : string :=
  match s with
  | EmptyString => acc
  | String c r => rev_string (String c acc) r
  end.

Fixpoint split_aux (sep : string) (skip : nat) (cur : string) (s : string)
  : list string :=
  match s with
  | EmptyString => [rev_string EmptyString cur]
  | String c r =>
      match skip with
      | S k => split_aux sep k cur r
      | O =>
          if prefix sep s
          then rev_string EmptyString cur
                 :: split_aux sep (String.length sep - 1) EmptyString r
          else split_aux sep 0 (String c cur) r
      end
  end.

Definition split (sep s : string) : list string :=
  split_aux sep 0 EmptyString s.

(** [s.replace(/\s+/g, by)]: every maximal run of white space becomes
    one copy of [by]. *)
Fixpoint replace_ws_runs (by_ : string) (in_run : bool) (s : string) : string :=
  match s with
  | EmptyString => EmptyString
  | String c r =>
      if is_space c
      then if in_run then replace_ws_runs by_ true r
           else by_ ++ replace_ws_runs by_ true r
      else String c (replace_ws_runs by_ false r)
  end.

(** [s.padStart(2, '0')] *)
Definition padStart2 (s : string) : string :=
  match s with
  | EmptyString => "00"
  | String c EmptyString => String "0" s
  | _ => s
  end.

Fixpoint join (sep : string) (l : list string) : string :=
  match l with
  | [] => EmptyString
  | [x] => x
  | x :: r => x ++ sep ++ join sep r
  end.

(** [s.endsWith(suffix)] *)
Fixpoint endsWith (s suffix : string) : bool :=
  String.eqb s suffix
  || match s with
     | EmptyString => false
     | String _ r => endsWith r suffix
     end.

End JSString.

(* ------------------------------------------------------------------ *)
(** * JavaScript numbers *)

Module JSNumber.
Import JSString.

Inductive jsnum : Type :=
| NaN : jsnum
| Num : Z -> jsnum.

Definition digit_val (c : ascii) : Z := Z.of_nat (nat_of_ascii c) - 48.

Fixpoint digits_val (acc : Z) (s : string) : option Z :=
  match s with
  | EmptyString => Some acc
  | String c r =>
      if is_digit c then digits_val (10 * acc + digit_val c)%Z r else None
  end.

(** [Number(s)] on the modelled literals: white space is trimmed, the
    empty string is [0], an optionally signed run of decimal digits is
    its value, anything else is [NaN]. *)
Definition Number (s : string) : jsnum :=
  match trim s with
  | EmptyString => Num 0
  | String c r =>
      if Ascii.eqb c "+" && negb (is_empty r) then
        match digits_val 0 r with Some z => Num z | None => NaN end
      else if Ascii.eqb c "-" && negb (is_empty r) then
        match digits_val 0 r with Some z => Num (- z) | None => NaN end
      else
        match digits_val 0 (String c r) with Some z => Num z | None => NaN end
  end.

(** The longest prefix of decimal digits, as a number. *)
Fixpoint digits_prefix (acc : Z) (seen : bool) (s : string) : option Z :=
  match s with
  | EmptyString => if seen then Some acc else None
  | String c r =>
      if is_digit c then digits_prefix (10 * acc + digit_val c)%Z true r
      else if seen then Some acc else None
  end.

(** [parseInt(s)] in radix 10. *)
Definition parseInt (s : string) : jsnum :=
  match trimStart s with
  | String "-" r =>
      match digits_prefix 0 false r with Some z => Num (- z) | None => NaN end
  | String "+" r =>
      match digits_prefix 0 false r with Some z => Num z | None => NaN end
  | t => match digits_prefix 0 false t with Some z => Num z | None => NaN end
  end.

Definition Z_to_string (z : Z) : string :=
  NilEmpty.string_of_int (Z.to_int z).

(** [n.toString()] and [`${n}`] *)
Definition toString (n : jsnum) : string :=
  match n with
  | NaN => "NaN"
  | Num z => Z_to_string z
  end.

Definition add (a b : jsnum) : jsnum :=
  match a, b with
  | Num x, Num y => Num (x + y)
  | _, _ => NaN
  end.

Definition sub (a b : jsnum) : jsnum :=
  match a, b with
  | Num x, Num y => Num (x - y)
  | _, _ => NaN
  end.

Definition mul (a b : jsnum) : jsnum :=
  match a, b with
  | Num x, Num y => Num (x * y)
  | _, _ => NaN
  end.

(** [Math.floor(a / k)] for a positive integer constant [k]. *)
Definition floor_div (a : jsnum) (k : Z) : jsnum :=
  match a with
  | Num x => Num (x / k)
  | NaN => NaN
  end.

(** [a % k]: the remainder has the sign of the dividend. *)
Definition rem (a : jsnum) (k : Z) : jsnum :=
  match a with
  | Num x => Num (Z.rem x k)
  | NaN => NaN
  end.

(** The components [a, b] of [const [a, b] = s.split(':').map(Number)];
    a missing second component is [undefined], and arithmetic on it
    gives [NaN]. *)
Definition split_numbers (s : string) : jsnum * jsnum :=
  match map Number (split ":" s) with
  | [] => (NaN, NaN)
  | [h] => (h, NaN)
  | h :: m :: _ => (h, m)
  end.

(** [a > 0] *)
Definition gt0 (a : jsnum) : bool :=
  match a with
  | Num x => (0 <? x)%Z
  | NaN => false
  end.

End JSNumber.

(* ------------------------------------------------------------------ *)
(** * Exceptions *)

Inductive JSError : Type :=
| TypeError (message : string)
| RangeError (message : string)
| SyntaxError (message : string)
| Error (message : string).

(** [error.message] *)
Definition message_of (e : JSError) : string :=
  match e with
  | TypeError m | RangeError m | SyntaxError m | Error m => m
  end.

Inductive result (A : Type) : Type :=
| Ok (a : A)
| Throw (e : JSError).

Arguments Ok {A} a.
Arguments Throw {A} e.

Definition bind {A B : Type} (r : result A) (k : A -> result B) : result B :=
  match r with
  | Ok a => k a
  | Throw e => Throw e
  end.

Notation "x <- r ;; k" := (bind r (fun x => k))
  (at level 61, r at next level, right associativity).

(** [l.map(f)] where [f] may throw: the first exception aborts the map. *)
Fixpoint mapM {A B : Type} (f : A -> result B) (l : list A) : result (list B) :=
  match l with
  | [] => Ok []
  | x :: r => y <- f x ;; ys <- mapM f r ;; Ok (y :: ys)
  end.

Definition is_ok {A : Type} (r : result A) : bool :=
  match r with Ok _ => true | Throw _ => false end.

(* ------------------------------------------------------------------ *)
(** * JavaScript dates *)

Module JSDate.
Import JSString JSNumber.
Local Open Scope Z_scope.

Definition msPerMinute : Z := 60000.
Definition msPerHour : Z := 3600000.
Definition msPerDay : Z := 86400000.

(** Time value of a [Date]; [None] is the invalid date. *)
Definition Date : Type := option Z.

(** The host: its clock, its time zone and its parser for date strings
    that are not in the ISO date form (ECMAScript leaves that parser to
    the implementation).

    [LocalTZA t isUTC] is the local time zone adjustment of ECMAScript,
    in milliseconds east of UTC: for [isUTC = true] the offset in effect
    at the instant [t]; for [isUTC = false] the offset by which the
    local time [t] is read.  A local time that a change of the clocks
    skips or repeats is read with the offset before the change. *)
Record Env : Type := mkEnv {
  now : Z;
  LocalTZA : Z -> bool -> Z;
  legacyDateParse : string -> option Z
}.

(** The same host at another reading of its clock. *)
Definition at_time (env : Env) (t : Z) : Env :=
  mkEnv t (LocalTZA env) (legacyDateParse env).

(** Day number of a civil date and back (proleptic Gregorian calendar,
    day 0 is 1970-01-01). *)
Definition days_from_civil (y m d : Z) : Z :=
  let y' := if m <=? 2 then y - 1 else y in
  let era := y' / 400 in
  let yoe := y' - era * 400 in
  let mp := (m + 9) mod 12 in
  let doy := (153 * mp + 2) / 5 + d - 1 in
  let doe := yoe * 365 + yoe / 4 - yoe / 100 + doy in
  era * 146097 + doe - 719468.

Definition civil_from_days (z : Z) : Z * Z * Z :=
  let z := z + 719468 in
  let era := z / 146097 in
  let doe := z - era * 146097 in
  let yoe := (doe - doe / 1460 + doe / 36524 - doe / 146096) / 365 in
  let y := yoe + era * 400 in
  let doy := doe - (365 * yoe + yoe / 4 - yoe / 100) in
  let mp := (5 * doy + 2) / 153 in
  let d := doy - (153 * mp + 2) / 5 + 1 in
  let m := if mp <? 10 then mp + 3 else mp - 9 in
  (if m <=? 2 then y + 1 else y, m, d).

Definition is_leap (y : Z) : bool :=
  ((y mod 4 =? 0) && negb (y mod 100 =? 0)) || (y mod 400 =? 0).

Definition days_in_month (y m : Z) : Z :=
  if m =? 2 then (if is_leap y then 29 else 28)
  else if (m =? 4) || (m =? 6) || (m =? 9) || (m =? 11) then 30
  else 31.

Definition valid_civil (y m d : Z) : bool :=
  (1 <=? m) && (m <=? 12) && (1 <=? d) && (d <=? days_in_month y m).

(** Weekday of a day number, 0 = Sunday. *)
Definition week_day (day : Z) : Z := (day + 4) mod 7.

Definition LocalTime (env : Env) (t : Z) : Z := t + LocalTZA env t true.
Definition UTC (env : Env) (t : Z) : Z := t - LocalTZA env t false.

Definition TimeClip (t : Z) : Date :=
  if Z.abs t <=? 8640000000000000 then Some t else None.

(** [new Date()] *)
Definition Date_now (env : Env) : Date := Some (now env).

(** [d.getDay()], the weekday in local time. *)
Definition getDay (env : Env) (d : Date) : jsnum :=
  match d with
  | None => NaN
  | Some t => Num (week_day (LocalTime env t / msPerDay))
  end.

(** [d.setDate(d.getDate() + k)]: the local calendar day moves by [k],
    the local time of day is kept. *)
Definition addDays (env : Env) (d : Date) (k : jsnum) : Date :=
  match d, k with
  | Some t, Num k => TimeClip (UTC env (LocalTime env t + k * msPerDay))
  | _, _ => None
  end.

(** [d.setHours(h, m, 0, 0)]: local day of [d], at [h:m:00.000]. *)
Definition setHours (env : Env) (d : Date) (h m : jsnum) : Date :=
  match d, h, m with
  | Some t, Num h, Num m =>
      let day := LocalTime env t / msPerDay in
      TimeClip (UTC env (day * msPerDay + h * msPerHour + m * msPerMinute))
  | _, _, _ => None
  end.

Definition getHours (env : Env) (d : Date) : jsnum :=
  match d with
  | None => NaN
  | Some t => Num ((LocalTime env t mod msPerDay) / msPerHour)
  end.

Definition getMinutes (env : Env) (d : Date) : jsnum :=
  match d with
  | None => NaN
  | Some t => Num ((LocalTime env t mod msPerHour) / msPerMinute)
  end.

(** Zero padding of a non-negative number to a width. *)
Fixpoint zeros (n : nat) : string :=
  match n with
  | O => EmptyString
  | S k => String "0" (zeros k)
  end.

Definition pad (width : nat) (z : Z) : string :=
  let s := Z_to_string z in
  zeros (width - String.length s) ++ s.

Definition iso_year (y : Z) : string :=
  if (0 <=? y) && (y <=? 9999) then pad 4 y
  else if y <? 0 then "-" ++ pad 6 (- y) else "+" ++ pad 6 y.

(** [YYYY-MM-DD] of a time value, in UTC. *)
Definition iso_date (t : Z) : string :=
  let '(y, m, d) := civil_from_days (t / msPerDay) in
  iso_year y ++ "-" ++ pad 2 m ++ "-" ++ pad 2 d.

(** [HH:mm:ss.sss] of a time value, in UTC. *)
Definition iso_time (t : Z) : string :=
  let tod := t mod msPerDay in
  pad 2 (tod / msPerHour) ++ ":" ++ pad 2 ((tod mod msPerHour) / msPerMinute)
    ++ ":" ++ pad 2 ((tod mod msPerMinute) / 1000)
    ++ "." ++ pad 3 (tod mod 1000).

(** [d.toISOString()] *)
Definition toISOString (d : Date) : result string :=
  match d with
  | None => Throw (RangeError "Invalid time value")
  | Some t => Ok (iso_date t ++ "T" ++ iso_time t ++ "Z")
  end.

(** The ISO date form [YYYY-MM-DD]. *)
Definition parse_iso_date (s : string) : option (Z * Z * Z) :=
  match s with
  | String y1 (String y2 (String y3 (String y4 (String "-"
    (String m1 (String m2 (String "-"
    (String d1 (String d2 EmptyString))))))))) =>
      if forallb is_digit [y1; y2; y3; y4; m1; m2; d1; d2]
      then Some (1000 * digit_val y1 + 100 * digit_val y2
                   + 10 * digit_val y3 + digit_val y4,
                 10 * digit_val m1 + digit_val m2,
                 10 * digit_val d1 + digit_val d2)
      else None
  | _ => None
  end.

(** [new Date(s)]: a calendar date in the ISO date form is midnight UTC
    of that day; every other string goes to the host's parser. *)
Definition Date_parse (env : Env) (s : string) : Date :=
  match parse_iso_date s with
  | Some (y, m, d) =>
      if valid_civil y m d
      then Some (days_from_civil y m d * msPerDay)
      else legacyDateParse env s
  | None => legacyDateParse env s
  end.

End JSDate.

(* ------------------------------------------------------------------ *)
(** * JavaScript values that come out of [JSON.parse] and of the row readers *)

Module JSValue.
Import JSString.

(** A JSON number [mantissa * 10 ^ exponent]. *)
#[warnings="-register-all"]
Inductive json : Type :=
| JNull : json
| JBool : bool -> json
| JNumber : Z -> Z -> json
| JString : string -> json
| JArray : list json -> json
| JObject : list (string * json) -> json.

(** The result of a property access: [None] is [undefined]. *)
Definition value : Type := option json.

Fixpoint assoc (k : string) (fields : list (string * json)) : value :=
  match fields with
  | [] => None
  | (k', v) :: r => if String.eqb k k' then Some v else assoc k r
  end.

(** [o[k]] for an object built by a row reader. *)
Definition get (k : string) (o : list (string * json)) : value := assoc k o.

(** ToBoolean *)
Definition truthy (v : value) : bool :=
  match v with
  | None => false
  | Some JNull => false
  | Some (JBool b) => b
  | Some (JNumber m _) => negb (m =? 0)%Z
  | Some (JString s) => negb (is_empty s)
  | Some (JArray _) => true
  | Some (JObject _) => true
  end.

(** [a || b] *)
Definition or_else (a b : value) : value := if truthy a then a else b.

End JSValue.

(* ------------------------------------------------------------------ *)
(** * [types/calendar.ts] *)

Inductive EventType : Type := lecture | lab | tutorial | meeting | break.

Definition EventType_name (t : EventType) : string :=
  match t with
  | lecture => "lecture"
  | lab => "lab"
  | tutorial => "tutorial"
  | meeting => "meeting"
  | break => "break"
  end.

Module ParsedTimetableEvent.
Record t : Type := mk {
  id : string;
  title : string;
  time : string;
  date : string;
  location : string;
  type : EventType;
  duration : string;
  instructor : option string;
  courseCode : option string;
  room : option string;
  building : option string
}.
End ParsedTimetableEvent.

Module Reminder.
Inductive method : Type := email | popup.
Record t : Type := mk { how : method; minutes : Z }.
End Reminder.

Module CalendarEvent.
Record t : Type := mk {
  id : string;
  title : string;
  description : string;
  startTime : string;
  endTime : string;
  location : string;
  colorId : string;
  reminders_useDefault : bool;
  reminders_overrides : list Reminder.t
}.
End CalendarEvent.

Module SyncError.
Record t : Type := mk { eventId : string; error : string }.
End SyncError.

Module SyncResult.
Record t : Type := mk {
  success : bool;
  eventsCreated : nat;
  eventsUpdated : nat;
  eventsFailed : nat;
  errors : list SyncError.t;
  calendarId : string
}.
End SyncResult.

(* ------------------------------------------------------------------ *)
(** * [services/local-parser.ts]: class [LocalFileParser] *)

Module LocalFileParser.
Import JSString JSNumber JSDate JSValue.

Definition Row : Type := list (string * json).

Definition findValueByKeys (row : Row) (keys : list string) : option string :=
  let fix go (keys : list string) : option string :=
    match keys with
    | [] => None
    | key :: rest =>
        let v := or_else (get key row)
                   (or_else (get (replace_ws_runs EmptyString false key) row)
                            (get (replace_ws_runs "_" false key) row)) in
        match v with
        | Some (JString s) =>
            if negb (is_empty s) && negb (is_empty (trim s))
            then Some (trim s) else go rest
        | _ => go rest
        end
    end in
  go keys.

Definition cleanTitle (title : string) : string :=
  replace_ws_runs " " false (trim title).

(** The regular expression [/(\d{1,2}):?(\d{2})?\s*(AM|PM)/i] matched at
    the head of a string.  The result is the three captures and the
    rest of the string.  Alternatives are tried in the order of the
    backtracking matcher: two hour digits before one, the colon before
    its absence, the minutes before their absence. *)
Definition is_AP (c : ascii) : bool :=
  let u := upper_char c in (Ascii.eqb u "A" || Ascii.eqb u "P")%bool.

Definition is_M (c : ascii) : bool := Ascii.eqb (upper_char c) "M".

Definition Capture : Type := (string * option string * string) * string.

Fixpoint skip_ws (s : string) : string :=
  match s with
  | EmptyString => EmptyString
  | String c r => if is_space c then skip_ws r else s
  end.

Definition match_period (hours : string) (minutes : option string)
    (s : string) : option Capture :=
  match skip_ws s with
  | String a (String m rest) =>
      if is_AP a && is_M m
      then Some (hours, minutes, String a (String m EmptyString), rest)
      else None
  | _ => None
  end.

Definition match_minutes (hours : string) (s : string) : option Capture :=
  let without := match_period hours None s in
  match s with
  | String d1 (String d2 rest) =>
      if is_digit d1 && is_digit d2
      then match match_period hours
                   (Some (String d1 (String d2 EmptyString))) rest with
           | Some c => Some c
           | None => without
           end
      else without
  | _ => without
  end.

Definition match_colon (hours : string) (s : string) : option Capture :=
  match s with
  | String c rest =>
      if Ascii.eqb c ":" then
        match match_minutes hours rest with
        | Some x => Some x
        | None => match_minutes hours s
        end
      else match_minutes hours s
  | EmptyString => match_minutes hours s
  end.

Definition match_12h (s : string) : option Capture :=
  match s with
  | String d1 rest =>
      if is_digit d1 then
        let one := match_colon (String d1 EmptyString) rest in
        match rest with
        | String d2 rest2 =>
            if is_digit d2
            then match match_colon (String d1 (String d2 EmptyString)) rest2 with
                 | Some c => Some c
                 | None => one
                 end
            else one
        | EmptyString => one
        end
      else None
  | EmptyString => None
  end.

(** The replacement callback of [convert12to24]. *)
Definition to24 (hours : string) (minutes : option string) (period : string)
  : string :=
  let h := parseInt hours in
  let is12 := match h with Num 12 => true | _ => false end in
  let h1 := if String.eqb (toUpperCase period) "PM" && negb is12
            then add h (Num 12) else h in
  let is12' := match h1 with Num 12 => true | _ => false end in
  let h2 := if String.eqb (toUpperCase period) "AM" && is12'
            then Num 0 else h1 in
  padStart2 (toString h2) ++ ":"
    ++ match minutes with Some m => m | None => "00" end.

(** [time.replace(re, callback)] with the global flag: matches are
    looked for from left to right, a match is replaced and the search
    goes on after it.  [skip] counts the characters of the last match
    that remain to be dropped. *)
Fixpoint replace_12h (skip : nat) (s : string) : string :=
  match s with
  | EmptyString => EmptyString
  | String c r =>
      match skip with
      | S k => replace_12h k r
      | O =>
          match match_12h s with
          | Some (h, m, p, rest) =>
              to24 h m p
                ++ replace_12h (String.length s - String.length rest - 1) r
          | None => String c (replace_12h 0 r)
          end
      end
  end.

Definition convert12to24 (time : string) : string := replace_12h 0 time.

Definition addMinutes (env : Env) (timeStr : string) (minutes : Z) : string :=
  let '(hours, mins) := split_numbers timeStr in
  let date := setHours env (Date_now env) hours (add mins (Num minutes)) in
  padStart2 (toString (getHours env date)) ++ ":"
    ++ padStart2 (toString (getMinutes env date)).

Definition normalizeTime (env : Env) (time : string) : string :=
  let time := trim time in
  let time := if includes time "AM" || includes time "PM"
              then convert12to24 time else time in
  if negb (includes time " - ")
  then time ++ " - " ++ addMinutes env time 90
  else time.

(** [getNextWeekday]: the weekday is read in local time, the day is
    moved in local time, and the date is printed in UTC. *)
Definition getNextWeekday (env : Env) (dayOfWeek : Z) : result string :=
  let today := Date_now env in
  let r := rem (sub (add (Num dayOfWeek) (Num 7)) (getDay env today)) 7 in
  let daysUntilTarget :=
    match r with
    | Num 0 | NaN => Num 7
    | _ => r
    end in
  let targetDate := addDays env today daysUntilTarget in
  iso <- toISOString targetDate ;;
  Ok (hd EmptyString (split "T" iso)).

Definition dayNames : list string :=
  ["sunday"; "monday"; "tuesday"; "wednesday"; "thursday"; "friday";
   "saturday"].

(** [a.findIndex(p)], [None] for [-1]. *)
Fixpoint findIndex {A : Type} (p : A -> bool) (l : list A) (i : Z) : option Z :=
  match l with
  | [] => None
  | x :: r => if p x then Some i else findIndex p r (i + 1)%Z
  end.

Definition normalizeDate (env : Env) (date : string) : result string :=
  match findIndex (fun day => includes (toLowerCase date) day) dayNames 0 with
  | Some dayIndex =>
      match getNextWeekday env dayIndex with
      | Ok d => Ok d
      | Throw _ => getNextWeekday env 1
      end
  | None =>
      let parsed := Date_parse env date in
      match parsed with
      | Some _ =>
          match toISOString parsed with
          | Ok iso => Ok (hd EmptyString (split "T" iso))
          | Throw _ => getNextWeekday env 1
          end
      | None => getNextWeekday env 1
      end
  end.

Definition normalizeEventType (type : string) : EventType :=
  let normalized := toLowerCase type in
  if includes normalized "lab" then lab
  else if includes normalized "tutorial" || includes normalized "seminar"
  then tutorial
  else if includes normalized "meeting" then meeting
  else if includes normalized "break" then break
  else lecture.

(** The rendering shared by both [calculateDuration] methods. *)
Definition render_duration (hours minutes : jsnum) : string :=
  if gt0 hours && gt0 minutes
  then toString hours ++ "h " ++ toString minutes ++ "m"
  else if gt0 hours then toString hours ++ "h"
  else toString minutes ++ "m".

Definition calculateDuration (timeString : string) : string :=
  match split " - " timeString with
  | start :: end_ :: _ =>
      let '(startHours, startMinutes) := split_numbers start in
      let '(endHours, endMinutes) := split_numbers end_ in
      let startTotalMinutes := add (mul startHours (Num 60)) startMinutes in
      let endTotalMinutes := add (mul endHours (Num 60)) endMinutes in
      let diffMinutes := sub endTotalMinutes startTotalMinutes in
      render_duration (floor_div diffMinutes 60) (rem diffMinutes 60)
  | _ => "1h 30m"
  end.

Definition parseLocation (location : string) : option string * option string :=
  match map trim (split "," location) with
  | p0 :: p1 :: _ => (Some p0, Some p1)
  | _ =>
      if includes (toLowerCase location) "room"
      then (Some location, None)
      else (None, Some location)
  end.

Module fieldMappings.
Definition title : list string :=
  ["title"; "course"; "subject"; "event"; "name"; "course name";
   "event name"].
Definition time : list string :=
  ["time"; "schedule"; "period"; "hours"; "timing"].
Definition date : list string := ["date"; "day"; "when"].
Definition location : list string :=
  ["location"; "room"; "venue"; "place"; "where"].
Definition type : list string := ["type"; "category"; "kind"].
Definition instructor : list string :=
  ["instructor"; "teacher"; "professor"; "lecturer"; "prof"].
Definition courseCode : list string :=
  ["code"; "course code"; "subject code"; "id"].
Definition duration : list string := ["duration"; "length"].
End fieldMappings.

Definition or_default (v : option string) (d : string) : string :=
  match v with Some s => s | None => d end.

Definition make_id (env : Env) (index : nat) : string :=
  "local-parsed-" ++ Z_to_string (now env) ++ "-"
    ++ Z_to_string (Z.of_nat index).

(** [mapRowToEvent]: [Ok None] is the [null] returned for a row
    without a title. *)
Definition mapRowToEvent (env : Env) (row : Row) (index : nat)
  : result (option ParsedTimetableEvent.t) :=
  let f := findValueByKeys row in
  match f fieldMappings.title with
  | None => Ok None
  | Some title0 =>
      let title := cleanTitle title0 in
      let time := normalizeTime env (or_default (f fieldMappings.time)
                                       "09:00 - 10:30") in
      date0 <- match f fieldMappings.date with
               | Some d => Ok d
               | None => getNextWeekday env 1
               end ;;
      date <- normalizeDate env date0 ;;
      let location := or_default (f fieldMappings.location) "TBD" in
      let type := normalizeEventType (or_default (f fieldMappings.type)
                                        "lecture") in
      let duration := match f fieldMappings.duration with
                      | Some d => d
                      | None => calculateDuration time
                      end in
      let '(room, building) := parseLocation location in
      Ok (Some (ParsedTimetableEvent.mk (make_id env index) title time date
                  location type duration
                  (f fieldMappings.instructor)
                  (f fieldMappings.courseCode) room building))
  end.

(** [convertRowsToEvents]: [clock i] is the host's clock while row [i]
    is converted; a row whose conversion throws is skipped. *)
Fixpoint convertRows (env : Env) (clock : nat -> Z) (index : nat)
    (rows : list Row) : list ParsedTimetableEvent.t :=
  match rows with
  | [] => []
  | row :: rest =>
      match mapRowToEvent (at_time env (clock index)) row index with
      | Ok (Some event) => event :: convertRows env clock (S index) rest
      | _ => convertRows env clock (S index) rest
      end
  end.

Definition convertRowsToEvents (env : Env) (clock : nat -> Z)
    (rows : list Row) : list ParsedTimetableEvent.t :=
  convertRows env clock 0 rows.

(** ** Files *)

(** The [name] and the [type] of a [File]. *)
Module File.
Record t : Type := mk { name : string; type : string }.
End File.

Module FileType.
Inductive t : Type := csv | excel | text | unknown.
End FileType.

Definition detectFileType (file : File.t) : FileType.t :=
  let fileName := toLowerCase (File.name file) in
  let fileType := toLowerCase (File.type file) in
  if endsWith fileName ".csv" || includes fileType "csv"
  then FileType.csv
  else if endsWith fileName ".xlsx" || endsWith fileName ".xls"
          || includes fileType "spreadsheet" || includes fileType "excel"
  then FileType.excel
  else if includes fileType "text" || endsWith fileName ".txt"
  then FileType.text
  else FileType.unknown.

(** [rawData]: the rows of the reader, or the one object [{ content }]
    of a text that has no structure. *)
Inductive RawData : Type :=
| RowData (data : list Row)
| TextData (content : string).

Module LocalParseResult.
Record t : Type := mk {
  success : bool;
  events : list ParsedTimetableEvent.t;
  rawData : RawData;
  errors : option (list string);
  format : FileType.t
}.
End LocalParseResult.

(** The [complete] callback that [parseText] gives to the reader of
    rows. *)
Definition parseText_complete (env : Env) (clock : nat -> Z)
    (data : list Row) : LocalParseResult.t :=
  let events := convertRowsToEvents env clock data in
  LocalParseResult.mk true events (RowData data) None FileType.text.

(** [parseText], from the text of the file on.  The reader of rows is
    the library's: [Papa_parse content delimiter] is the [data] that it
    hands to [complete], which it calls once for a text. *)
Definition parseText (env : Env) (clock : nat -> Z)
    (Papa_parse : string -> string -> list Row) (content : string)
  : LocalParseResult.t :=
  let lines :=
    filter (fun line => negb (is_empty (trim line)))
      (split (String (ascii_of_nat 10) EmptyString) content) in
  if existsb (fun line => includes line "," || includes line ";") lines
  then parseText_complete env clock
         (Papa_parse content (if includes content ";" then ";" else ","))
  else LocalParseResult.mk false [] (TextData content)
         (Some ["Unstructured text detected - requires AI parsing"])
         FileType.text.

End LocalFileParser.

(* ------------------------------------------------------------------ *)
(** * [services/google-calendar.ts]: class [GoogleCalendarService] *)

Module GoogleCalendarService.
Import JSString JSNumber JSDate.

Module DEFAULT_CALENDAR_SETTINGS.
Definition timeZone : string := "UTC".

(** [eventColors[type] || '1'] on the five types of a parsed event
    (the table has one more entry, [exam: '4']). *)
Definition eventColors (t : EventType) : string :=
  match t with
  | lecture => "1"
  | lab => "2"
  | tutorial => "3"
  | meeting => "5"
  | break => "6"
  end.

Definition reminderDefaults : list Reminder.t :=
  [Reminder.mk Reminder.email (24 * 60); Reminder.mk Reminder.popup 10].
End DEFAULT_CALENDAR_SETTINGS.

Definition newline : string := String (ascii_of_nat 10) EmptyString.

(** [parseTime]: [timeStr] is [None] when the destructured component
    of the split is [undefined]. *)
Definition parseTime (env : Env) (timeStr : option string) (baseDate : Date)
  : result Date :=
  match timeStr with
  | None =>
      Throw (TypeError "Cannot read properties of undefined (reading 'split')")
  | Some s =>
      let '(hours, minutes) := split_numbers s in
      Ok (setHours env baseDate hours minutes)
  end.

Definition parseTimeRange (env : Env) (timeRange dateString : string)
  : result (Date * Date) :=
  let parts := split " - " timeRange in
  let startTimeStr := nth_error parts 0 in
  let endTimeStr := nth_error parts 1 in
  let baseDate := Date_parse env dateString in
  startTime <- parseTime env startTimeStr baseDate ;;
  endTime <- parseTime env endTimeStr baseDate ;;
  Ok (startTime, endTime).

Definition capitalize (s : string) : string :=
  match s with
  | EmptyString => EmptyString
  | String c r => String (upper_char c) r
  end.

(** [if (field) parts.push(label + field)] *)
Definition optional_part (label : string) (field : option string)
  : list string :=
  match field with
  | Some s => if is_empty s then [] else [label ++ s]
  | None => []
  end.

Definition buildEventDescription (event : ParsedTimetableEvent.t) : string :=
  let parts :=
    List.concat
      [["Course: " ++ ParsedTimetableEvent.title event;
        "Type: "
          ++ capitalize (EventType_name (ParsedTimetableEvent.type event));
        "Duration: " ++ ParsedTimetableEvent.duration event];
       optional_part "Course Code: " (ParsedTimetableEvent.courseCode event);
       optional_part "Instructor: " (ParsedTimetableEvent.instructor event);
       optional_part "Room: " (ParsedTimetableEvent.room event);
       optional_part "Building: " (ParsedTimetableEvent.building event);
       [EmptyString; "Created by ChronoSync"]] in
  join newline parts.

Definition convertToCalendarEvent (env : Env)
    (timetableEvent : ParsedTimetableEvent.t) : result CalendarEvent.t :=
  range <- parseTimeRange env (ParsedTimetableEvent.time timetableEvent)
                              (ParsedTimetableEvent.date timetableEvent) ;;
  let description := buildEventDescription timetableEvent in
  startTime <- toISOString (fst range) ;;
  endTime <- toISOString (snd range) ;;
  Ok (CalendarEvent.mk
        (ParsedTimetableEvent.id timetableEvent)
        (ParsedTimetableEvent.title timetableEvent)
        description startTime endTime
        (ParsedTimetableEvent.location timetableEvent)
        (DEFAULT_CALENDAR_SETTINGS.eventColors
           (ParsedTimetableEvent.type timetableEvent))
        false DEFAULT_CALENDAR_SETTINGS.reminderDefaults).

(** [chunkArray] *)
Fixpoint chunk_loop {A : Type} (fuel size : nat) (array : list A)
  : list (list A) :=
  match fuel, array with
  | S f, _ :: _ => firstn size array :: chunk_loop f size (skipn size array)
  | _, _ => []
  end.

Definition chunkArray {A : Type} (array : list A) (size : nat) : list (list A) :=
  chunk_loop (List.length array) size array.

(** ** The sync engine

    [createEvent] posts one event through the authenticated client; its
    outcome is the world's: the model takes it as a function of the
    position of the event in the run and of the event, [Ok] with the id
    given by the calendar or [Throw] with the error of the rejected
    promise.

    Inside a batch every call is started in the order of the batch (the
    progress callback runs then) and the calls settle in an order the
    event loop chooses: a [Schedule] gives, for a batch, the order in
    which its calls settle.  The counters and the error list of the
    result are updated when a call settles.  The delays between calls
    and between batches only pass time.  The progress callback is the
    caller's; it is taken to return normally, and the reports it
    receives are recorded in the run. *)

Module Progress.
Record t : Type := mk { completed : nat; total : nat; currentEvent : string }.
End Progress.

Definition Call : Type := (nat * CalendarEvent.t)%type.

Definition Schedule : Type := list Call -> list Call.

Definition fair (sched : Schedule) : Prop :=
  forall batch, Permutation batch (sched batch).

Record Run : Type := mkRun {
  eventsCreated : nat;
  eventsFailed : nat;
  errors : list SyncError.t;
  progress : list Progress.t
}.

Definition batchSize : nat := 5.

(** The body of the [try] and of the [catch] of one call, once its
    [createEvent] promise has settled. *)
Definition settle (createEvent : nat -> CalendarEvent.t -> result string)
    (run : Run) (call : Call) : Run :=
  let '(globalIndex, event) := call in
  match createEvent globalIndex event with
  | Ok _ =>
      mkRun (S (eventsCreated run)) (eventsFailed run) (errors run)
            (progress run)
  | Throw error =>
      mkRun (eventsCreated run) (S (eventsFailed run))
            (errors run
               ++ [SyncError.mk (CalendarEvent.id event) (message_of error)])%list
            (progress run)
  end.

Definition report (total : nat) (run : Run) (call : Call) : Run :=
  let '(globalIndex, event) := call in
  mkRun (eventsCreated run) (eventsFailed run) (errors run)
        (progress run
           ++ [Progress.mk globalIndex total (CalendarEvent.title event)])%list.

Fixpoint number_from {A : Type} (i : nat) (l : list A) : list (nat * A) :=
  match l with
  | [] => []
  | x :: r => (i, x) :: number_from (S i) r
  end.

Definition run_batch (createEvent : nat -> CalendarEvent.t -> result string)
    (sched : Schedule) (total : nat) (run : Run) (batchIndex : nat)
    (batch : list CalendarEvent.t) : Run :=
  let calls := number_from (batchIndex * batchSize) batch in
  let started := fold_left (report total) calls run in
  fold_left (settle createEvent) (sched calls) started.

Fixpoint run_batches (createEvent : nat -> CalendarEvent.t -> result string)
    (sched : Schedule) (total : nat) (run : Run) (batchIndex : nat)
    (batches : list (list CalendarEvent.t)) : Run :=
  match batches with
  | [] => run
  | batch :: rest =>
      run_batches createEvent sched total
        (run_batch createEvent sched total run batchIndex batch)
        (S batchIndex) rest
  end.

Definition syncEvents (env : Env)
    (createEvent : nat -> CalendarEvent.t -> result string)
    (sched : Schedule) (calendarId : string)
    (timetableEvents : list ParsedTimetableEvent.t)
  : result (SyncResult.t * list Progress.t) :=
  match mapM (convertToCalendarEvent env) timetableEvents with
  | Throw error =>
      Throw (Error ("Failed to sync events: " ++ message_of error))
  | Ok calendarEvents =>
      let batches := chunkArray calendarEvents batchSize in
      let total := List.length calendarEvents in
      let run := run_batches createEvent sched total (mkRun 0 0 [] []) 0
                   batches in
      Ok (SyncResult.mk (eventsFailed run =? 0)%nat (eventsCreated run) 0
            (eventsFailed run) (errors run) calendarId,
          (progress run ++ [Progress.mk total total "Sync completed"])%list)
  end.

End GoogleCalendarService.

(* ------------------------------------------------------------------ *)
(** * [JSON.parse] *)

Module JSON.
Import JSString JSNumber JSValue.
Local Open Scope Z_scope.

Definition dquote : ascii := ascii_of_nat 34.
Definition backslash : ascii := ascii_of_nat 92.

(** JSON white space: SPACE, TAB, LF and CR. *)
Definition is_ws (c : ascii) : bool :=
  let n := nat_of_ascii c in
  ((n =? 32) || (n =? 9) || (n =? 10) || (n =? 13))%nat.

Fixpoint skip (s : string) : string :=
  match s with
  | EmptyString => EmptyString
  | String c r => if is_ws c then skip r else s
  end.

Definition hex_val (c : ascii) : option nat :=
  let n := nat_of_ascii c in
  if in_range 48 57 c then Some (n - 48)%nat
  else if in_range 65 70 c then Some (n - 55)%nat
  else if in_range 97 102 c then Some (n - 87)%nat
  else None.

Definition hex4 (a b c d : ascii) : option nat :=
  match hex_val a, hex_val b, hex_val c, hex_val d with
  | Some x, Some y, Some z, Some w =>
      Some (4096 * x + 256 * y + 16 * z + w)%nat
  | _, _, _, _ => None
  end.

(** A code unit written [\uXXXX], as the bytes of its UTF-8 form. *)
Definition utf8 (cp : nat) (rest : string) : string :=
  if (cp <? 128)%nat then String (ascii_of_nat cp) rest
  else if (cp <? 2048)%nat then
    String (ascii_of_nat (192 + cp / 64))
      (String (ascii_of_nat (128 + cp mod 64)) rest)
  else
    String (ascii_of_nat (224 + cp / 4096))
      (String (ascii_of_nat (128 + (cp / 64) mod 64))
         (String (ascii_of_nat (128 + cp mod 64)) rest)).

Definition escape (e : ascii) : option ascii :=
  if Ascii.eqb e dquote then Some dquote
  else if Ascii.eqb e backslash then Some backslash
  else if Ascii.eqb e "/" then Some "/"%char
  else if Ascii.eqb e "b" then Some (ascii_of_nat 8)
  else if Ascii.eqb e "f" then Some (ascii_of_nat 12)
  else if Ascii.eqb e "n" then Some (ascii_of_nat 10)
  else if Ascii.eqb e "r" then Some (ascii_of_nat 13)
  else if Ascii.eqb e "t" then Some (ascii_of_nat 9)
  else None.

(** The characters of a string literal, after its opening quote. *)
Fixpoint parse_chars (s : string) : option (string * string) :=
  match s with
  | EmptyString => None
  | String c r =>
      if Ascii.eqb c dquote then Some (EmptyString, r)
      else if Ascii.eqb c backslash then
        match r with
        | String "u" (String h1 (String h2 (String h3 (String h4 r')))) =>
            match hex4 h1 h2 h3 h4, parse_chars r' with
            | Some cp, Some (str, rest) => Some (utf8 cp str, rest)
            | _, _ => None
            end
        | String e r' =>
            match escape e, parse_chars r' with
            | Some x, Some (str, rest) => Some (String x str, rest)
            | _, _ => None
            end
        | EmptyString => None
        end
      else if (nat_of_ascii c <? 32)%nat then None
      else
        match parse_chars r with
        | Some (str, rest) => Some (String c str, rest)
        | None => None
        end
  end.

Fixpoint take_digits (acc : Z) (n : nat) (s : string) : Z * nat * string :=
  match s with
  | EmptyString => (acc, n, s)
  | String c r =>
      if is_digit c then take_digits (10 * acc + digit_val c) (S n) r
      else (acc, n, s)
  end.

Definition parse_exponent (neg : bool) (mant : Z) (fd : nat) (s : string)
  : option (json * string) :=
  let sg := fun m : Z => if neg then - m else m in
  match s with
  | String e r =>
      if Ascii.eqb (upper_char e) "E" then
        let '(esign, r1) :=
          match r with
          | String "+" r' => (1, r')
          | String "-" r' => (-1, r')
          | _ => (1, r)
          end in
        let '(ev, n, rest) := take_digits 0 0 r1 in
        if (n =? 0)%nat then None
        else Some (JNumber (sg mant) (esign * ev - Z.of_nat fd), rest)
      else Some (JNumber (sg mant) (- Z.of_nat fd), s)
  | EmptyString => Some (JNumber (sg mant) (- Z.of_nat fd), s)
  end.

Definition parse_fraction (neg : bool) (ip : Z) (s : string)
  : option (json * string) :=
  match s with
  | String "." r =>
      let '(mant, fd, rest) := take_digits ip 0 r in
      if (fd =? 0)%nat then None else parse_exponent neg mant fd rest
  | _ => parse_exponent neg ip 0 s
  end.

Definition parse_number (s : string) : option (json * string) :=
  let '(neg, s1) :=
    match s with
    | String "-" r => (true, r)
    | _ => (false, s)
    end in
  match s1 with
  | String "0" r => parse_fraction neg 0 r
  | String c _ =>
      if is_digit c
      then let '(ip, _, rest) := take_digits 0 0 s1 in
           parse_fraction neg ip rest
      else None
  | EmptyString => None
  end.

(** [o[k] = v] while an object literal is read: a repeated key keeps
    its place and takes the later value. *)
Fixpoint put (k : string) (v : json) (fields : list (string * json))
  : list (string * json) :=
  match fields with
  | [] => [(k, v)]
  | (k', v') :: r =>
      if String.eqb k k' then (k', v) :: r else (k', v') :: put k v r
  end.

(** Values, elements of an array and members of an object.  The
    argument [fuel] bounds the number of nested calls; twice the length
    of the text and one more are enough for every text. *)
Fixpoint parse_value (fuel : nat) (s : string) {struct fuel}
  : option (json * string) :=
  match fuel with
  | O => None
  | S f =>
      match s with
      | String "n" (String "u" (String "l" (String "l" r))) =>
          Some (JNull, r)
      | String "t" (String "r" (String "u" (String "e" r))) =>
          Some (JBool true, r)
      | String "f" (String "a" (String "l" (String "s" (String "e" r)))) =>
          Some (JBool false, r)
      | String "[" r =>
          match skip r with
          | String "]" r' => Some (JArray [], r')
          | r1 =>
              match parse_elements f r1 with
              | Some (vs, rest) => Some (JArray vs, rest)
              | None => None
              end
          end
      | String "{" r =>
          match skip r with
          | String "}" r' => Some (JObject [], r')
          | r1 =>
              match parse_members f r1 with
              | Some (ms, rest) =>
                  Some (JObject (fold_left (fun o kv => put (fst kv) (snd kv) o)
                                   ms []), rest)
              | None => None
              end
          end
      | String c r =>
          if Ascii.eqb c dquote then
            match parse_chars r with
            | Some (str, rest) => Some (JString str, rest)
            | None => None
            end
          else parse_number s
      | EmptyString => None
      end
  end

with parse_elements (fuel : nat) (s : string) {struct fuel}
  : option (list json * string) :=
  match fuel with
  | O => None
  | S f =>
      match parse_value f s with
      | Some (v, r) =>
          match skip r with
          | String "," r' =>
              match parse_elements f (skip r') with
              | Some (vs, rest) => Some (v :: vs, rest)
              | None => None
              end
          | String "]" r' => Some ([v], r')
          | _ => None
          end
      | None => None
      end
  end

with parse_members (fuel : nat) (s : string) {struct fuel}
  : option (list (string * json) * string) :=
  match fuel with
  | O => None
  | S f =>
      match s with
      | String c r =>
          if Ascii.eqb c dquote then
            match parse_chars r with
            | Some (k, r1) =>
                match skip r1 with
                | String ":" r2 =>
                    match parse_value f (skip r2) with
                    | Some (v, r3) =>
                        match skip r3 with
                        | String "," r4 =>
                            match parse_members f (skip r4) with
                            | Some (ms, rest) => Some ((k, v) :: ms, rest)
                            | None => None
                            end
                        | String "}" r4 => Some ([(k, v)], r4)
                        | _ => None
                        end
                    | None => None
                    end
                | _ => None
                end
            | None => None
            end
          else None
      | EmptyString => None
      end
  end.

(** [JSON.parse(text)] *)
Definition parse (text : string) : result json :=
  match parse_value (2 * String.length text + 1) (skip text) with
  | Some (v, rest) =>
      if is_empty (skip rest) then Ok v
      else Throw (SyntaxError "Unexpected non-whitespace character after JSON")
  | None => Throw (SyntaxError "Unexpected token in JSON")
  end.

End JSON.

(* ------------------------------------------------------------------ *)
(** * [services/llm-parser.ts]: class [LLMTimetableParser] *)

Module LLMTimetableParser.
Import JSString JSNumber JSDate JSValue.

Inductive Provider : Type := openai | gemini.

(** An event as [parseJSONResponse] builds it.  The fields kept from
    the reply hold whatever JSON value the model wrote there. *)
Module ValidatedEvent.
Record t : Type := mk {
  id : json;
  title : json;
  time : json;
  date : json;
  location : json;
  type : EventType;
  duration : json;
  instructor : value;
  courseCode : value;
  room : value;
  building : value
}.
End ValidatedEvent.

(** The [events] of a result: the array built by the validation, the
    caller's own array handed back, or the value found in the reply. *)
Inductive Events : Type :=
| Validated (l : list ValidatedEvent.t)
| Original (l : list ParsedTimetableEvent.t)
| FromReply (v : json).

Module ParseResult.
Record t : Type := mk {
  success : bool;
  events : Events;
  confidence : json;
  errors : option (list string);
  rawResponse : value;
  enhancedFields : value
}.
End ParseResult.

(** ** Property access on a value of the reply *)

(** [v.k], for the names the parser reads; a string, a number, a
    boolean or an array has none of them. *)
Definition prop (v : value) (k : string) : result value :=
  match v with
  | None =>
      Throw (TypeError ("Cannot read properties of undefined (reading '"
                          ++ k ++ "')"))
  | Some JNull =>
      Throw (TypeError ("Cannot read properties of null (reading '"
                          ++ k ++ "')"))
  | Some (JObject fields) => Ok (assoc k fields)
  | Some _ => Ok None
  end.

(** [v?.k] *)
Definition prop_opt (v : value) (k : string) : value :=
  match prop v k with
  | Ok x => x
  | Throw _ => None
  end.

(** [v[0]] *)
Definition index0 (v : value) : result value :=
  match v with
  | None => Throw (TypeError "Cannot read properties of undefined (reading '0')")
  | Some JNull => Throw (TypeError "Cannot read properties of null (reading '0')")
  | Some (JArray l) => Ok (hd_error l)
  | Some (JString (String c _)) => Ok (Some (JString (String c EmptyString)))
  | Some (JObject fields) => Ok (assoc "0" fields)
  | Some _ => Ok None
  end.

(** [v?.[0]] *)
Definition index0_opt (v : value) : value :=
  match index0 v with
  | Ok x => x
  | Throw _ => None
  end.

(** [`${v}`]; a number that is not an integer is printed as mantissa
    and decimal exponent. *)
Fixpoint display (v : json) : string :=
  match v with
  | JNull => "null"
  | JBool true => "true"
  | JBool false => "false"
  | JNumber m e =>
      if (0 <=? e)%Z then Z_to_string (m * 10 ^ e)
      else Z_to_string m ++ "e" ++ Z_to_string e
  | JString s => s
  | JArray l =>
      join "," (map (fun x => match x with
                              | JNull => EmptyString
                              | _ => display x
                              end) l)
  | JObject _ => "[object Object]"
  end.

(** ** Helpers of the class *)

(** [getNextWeekday] of this class: no [|| 7]. *)
Definition getNextWeekday (env : Env) (dayOfWeek : Z) : result string :=
  let today := Date_now env in
  let daysUntilTarget :=
    rem (sub (add (Num dayOfWeek) (Num 7)) (getDay env today)) 7 in
  let targetDate := addDays env today daysUntilTarget in
  iso <- toISOString targetDate ;;
  Ok (hd EmptyString (split "T" iso)).

Definition validTypes : list (string * EventType) :=
  [("lecture", lecture); ("lab", lab); ("tutorial", tutorial);
   ("meeting", meeting); ("break", break)].

Fixpoint lookup_type (s : string) (l : list (string * EventType))
  : option EventType :=
  match l with
  | [] => None
  | (n, t) :: r => if String.eqb s n then Some t else lookup_type s r
  end.

(** [validateEventType]: [type?.toLowerCase()] is [undefined] on
    [undefined] and [null], and a [TypeError] on a value that is not a
    string. *)
Definition validateEventType (type : value) : result EventType :=
  match type with
  | None | Some JNull => Ok lecture
  | Some (JString s) =>
      let normalizedType := toLowerCase s in
      match lookup_type normalizedType validTypes with
      | Some t => Ok t
      | None =>
          if includes normalizedType "lab" then Ok lab
          else if includes normalizedType "tutorial"
                  || includes normalizedType "seminar" then Ok tutorial
          else if includes normalizedType "meeting" then Ok meeting
          else if includes normalizedType "break" then Ok break
          else Ok lecture
      end
  | Some _ => Throw (TypeError "type?.toLowerCase is not a function")
  end.

(** [parseTimeString]; [None] is the [undefined] of a missing
    component. *)
Definition parseTimeString (env : Env) (timeStr : option string)
  : result Date :=
  match timeStr with
  | None =>
      Throw (TypeError "Cannot read properties of undefined (reading 'split')")
  | Some s =>
      let '(hours, minutes) := split_numbers s in
      Ok (setHours env (Date_now env) hours minutes)
  end.

Definition getTime (d : Date) : jsnum :=
  match d with
  | Some t => Num t
  | None => NaN
  end.

Definition calculateDuration (env : Env) (timeString : value) : string :=
  match timeString with
  | Some (JString s) =>
      let parts := split " - " s in
      match parseTimeString env (nth_error parts 0),
            parseTimeString env (nth_error parts 1) with
      | Ok startTime, Ok endTime =>
          let diffMs := sub (getTime endTime) (getTime startTime) in
          let diffHours := floor_div diffMs (1000 * 60 * 60) in
          let diffMinutes :=
            floor_div (rem diffMs (1000 * 60 * 60)) (1000 * 60) in
          LocalFileParser.render_duration diffHours diffMinutes
      | _, _ => "1h 30m"
      end
  | _ => "1h 30m"
  end.

(** ** Code fences *)

Definition is_newline (c : ascii) : bool := (nat_of_ascii c =? 10)%nat.

(** [s.replace(/pat\n?/g, '')] for a literal [pat]: [skip] counts the
    characters of an occurrence that remain to be dropped and [nl]
    tells that a line feed right here belongs to it. *)
Fixpoint strip (pat : string) (skip : nat) (nl : bool) (s : string) : string :=
  match s with
  | EmptyString => EmptyString
  | String c r =>
      match skip with
      | S k => strip pat k nl r
      | O =>
          if nl && is_newline c then strip pat 0 false r
          else if prefix pat s
          then strip pat (String.length pat - 1) true r
          else String c (strip pat 0 false r)
      end
  end.

Definition cleanContent (content : string) : string :=
  trim (strip "```" 0 false (strip "```json" 0 false content)).

(** ** [parseJSONResponse] *)

(** [a || d] where [d] is a string. *)
Definition or_string (a : value) (d : string) : json :=
  match or_else a (Some (JString d)) with
  | Some v => v
  | None => JString d
  end.

(** [a || undefined] *)
Definition or_undefined (a : value) : value := or_else a None.

Definition make_id (env : Env) (index : nat) : string :=
  "llm-parsed-" ++ Z_to_string (now env) ++ "-"
    ++ Z_to_string (Z.of_nat index).

(** The callback of [events.map]. *)
Definition validateEvent (env : Env) (event : json) (index : nat)
  : result ValidatedEvent.t :=
  let e := Some event in
  id <- prop e "id" ;;
  title <- prop e "title" ;;
  time <- prop e "time" ;;
  date <- prop e "date" ;;
  date' <- match or_undefined date with
           | Some d => Ok d
           | None => d <- getNextWeekday env 0 ;; Ok (JString d)
           end ;;
  location <- prop e "location" ;;
  type0 <- prop e "type" ;;
  type <- validateEventType type0 ;;
  duration <- prop e "duration" ;;
  instructor <- prop e "instructor" ;;
  courseCode <- prop e "courseCode" ;;
  room <- prop e "room" ;;
  building <- prop e "building" ;;
  Ok (ValidatedEvent.mk
        (or_string id (make_id env index))
        (or_string title "Untitled Event")
        (or_string time "09:00 - 10:00")
        date'
        (or_string location "TBD")
        type
        (or_string duration (calculateDuration env time))
        (or_undefined instructor) (or_undefined courseCode)
        (or_undefined room) (or_undefined building)).

Fixpoint validateEvents (env : Env) (clock : nat -> Z) (index : nat)
    (events : list json) : result (list ValidatedEvent.t) :=
  match events with
  | [] => Ok []
  | event :: rest =>
      v <- validateEvent (at_time env (clock index))
             event index ;;
      vs <- validateEvents env clock (S index) rest ;;
      Ok (v :: vs)
  end.

(** The body of the [try] of [parseJSONResponse]. *)
Definition parseJSONResponse_try (env : Env) (clock : nat -> Z)
    (content : string) : result ParseResult.t :=
  parsed <- JSON.parse (cleanContent content) ;;
  events0 <- prop (Some parsed) "events" ;;
  let events := or_else events0 (Some (JArray [])) in
  confidence0 <- prop (Some parsed) "confidence" ;;
  let confidence :=
    match or_else confidence0 (Some (JNumber 75 0)) with
    | Some c => c
    | None => JNumber 75 0
    end in
  match events with
  | Some (JArray l) =>
      validatedEvents <- validateEvents env clock 0 l ;;
      Ok (ParseResult.mk true (Validated validatedEvents) confidence None
            (Some (JString content)) None)
  | _ => Throw (Error "Events is not an array")
  end.

Definition parseJSONResponse (env : Env) (clock : nat -> Z)
    (content : string) : ParseResult.t :=
  match parseJSONResponse_try env clock content with
  | Ok r => r
  | Throw error =>
      ParseResult.mk false (Validated []) (JNumber 0 0)
        (Some ["JSON parsing failed: " ++ message_of error])
        (Some (JString content)) None
  end.

(** ** [parseEnhancementResponse] *)

Definition parseEnhancementResponse_try (content : string)
    (originalEvents : list ParsedTimetableEvent.t) : result ParseResult.t :=
  parsed <- JSON.parse (cleanContent content) ;;
  enhanced0 <- prop (Some parsed) "enhancedEvents" ;;
  let enhancedEvents :=
    if truthy enhanced0
    then match enhanced0 with
         | Some v => FromReply v
         | None => Original originalEvents
         end
    else Original originalEvents in
  confidence0 <- prop (Some parsed) "confidence" ;;
  let confidence :=
    match or_else confidence0 (Some (JNumber 80 0)) with
    | Some c => c
    | None => JNumber 80 0
    end in
  fields0 <- prop (Some parsed) "enhancedFields" ;;
  let enhancedFields := or_else fields0 (Some (JArray [])) in
  Ok (ParseResult.mk true enhancedEvents confidence None
        (Some (JString content)) enhancedFields).

Definition parseEnhancementResponse (content : string)
    (originalEvents : list ParsedTimetableEvent.t) : ParseResult.t :=
  match parseEnhancementResponse_try content originalEvents with
  | Ok r => r
  | Throw error =>
      ParseResult.mk false (Original originalEvents) (JNumber 70 0)
        (Some ["Enhancement parsing failed: " ++ message_of error])
        (Some (JString content)) None
  end.

(** ** The provider

    One request is sent per call.  Its outcome is the world's: the
    promise of [fetch] is rejected, or a response comes back with its
    [ok] flag, status line and body; [body] is the outcome of
    [response.json()]. *)
Inductive FetchOutcome : Type :=
| Rejected (error : JSError)
| Response (ok : bool) (status : Z) (statusText : string)
           (body : result json).

Definition provider_name (p : Provider) : string :=
  match p with
  | openai => "OpenAI"
  | gemini => "Gemini"
  end.

(** [`${p} API error: ${status} ${statusText} - ${...}`] *)
Definition api_error (p : Provider) (status : Z) (statusText : string)
    (body : result json) : JSError :=
  let errorData := match body with
                   | Ok d => d
                   | Throw _ => JObject []
                   end in
  match prop (Some errorData) "error" with
  | Throw e => e
  | Ok err =>
      Error (provider_name p ++ " API error: " ++ Z_to_string status ++ " "
               ++ statusText ++ " - "
               ++ display (or_string (prop_opt err "message") "Unknown error"))
  end.

(** The text of the reply: [data.choices[0]?.message?.content], or
    [data.candidates?.[0]?.content?.parts?.[0]?.text]. *)
Definition reply_content (p : Provider) (data : json) : result value :=
  match p with
  | openai =>
      choices <- prop (Some data) "choices" ;;
      first <- index0 choices ;;
      Ok (prop_opt (prop_opt first "message") "content")
  | gemini =>
      candidates <- prop (Some data) "candidates" ;;
      Ok (prop_opt
            (index0_opt
               (prop_opt (prop_opt (index0_opt candidates) "content") "parts"))
            "text")
  end.

(** The body of the [try] of [enhanceWithOpenAI] and of
    [enhanceWithGemini], from the outcome of the request on. *)
Definition enhanceWith_try (p : Provider) (outcome : FetchOutcome)
    (originalEvents : list ParsedTimetableEvent.t) : result ParseResult.t :=
  match outcome with
  | Rejected error => Throw error
  | Response ok status statusText body =>
      if negb ok then Throw (api_error p status statusText body)
      else
        data <- body ;;
        content <- reply_content p data ;;
        if negb (truthy content)
        then Throw (Error ("No response from " ++ provider_name p))
        else
          match content with
          | Some (JString s) => Ok (parseEnhancementResponse s originalEvents)
          | other =>
              (* [content.replace] is not a function: the [catch] of
                 [parseEnhancementResponse] answers *)
              Ok (ParseResult.mk false (Original originalEvents)
                    (JNumber 70 0)
                    (Some ["Enhancement parsing failed: "
                             ++ "content.replace is not a function"])
                    other None)
          end
  end.

Definition enhanceWith (p : Provider) (outcome : FetchOutcome)
    (originalEvents : list ParsedTimetableEvent.t) : ParseResult.t :=
  match enhanceWith_try p outcome originalEvents with
  | Ok r => r
  | Throw error =>
      ParseResult.mk false (Original originalEvents) (JNumber 70 0)
        (Some [message_of error]) None None
  end.

(** [enhanceEvents]: the summary of the events and the prompt only
    feed the request; [outcome] is what the request comes to. *)
Definition enhanceEvents (p : Provider) (outcome : FetchOutcome)
    (events : list ParsedTimetableEvent.t) : ParseResult.t :=
  enhanceWith p outcome events.

(** The body of the [try] of [parseWithOpenAI] and of [parseWithGemini],
    and the methods themselves. *)
Definition parseWith_try (env : Env) (clock : nat -> Z) (p : Provider)
    (outcome : FetchOutcome) : result ParseResult.t :=
  match outcome with
  | Rejected error => Throw error
  | Response ok status statusText body =>
      if negb ok then Throw (api_error p status statusText body)
      else
        data <- body ;;
        content <- reply_content p data ;;
        if negb (truthy content)
        then Throw (Error ("No response from " ++ provider_name p))
        else
          match content with
          | Some (JString s) => Ok (parseJSONResponse env clock s)
          | other =>
              Ok (ParseResult.mk false (Validated []) (JNumber 0 0)
                    (Some ["JSON parsing failed: "
                             ++ "content.replace is not a function"])
                    other None)
          end
  end.

Definition parseWith (env : Env) (clock : nat -> Z) (p : Provider)
    (outcome : FetchOutcome) : ParseResult.t :=
  match parseWith_try env clock p outcome with
  | Ok r => r
  | Throw error =>
      ParseResult.mk false (Validated []) (JNumber 0 0)
        (Some [message_of error]) None None
  end.

End LLMTimetableParser.

(* ------------------------------------------------------------------ *)
(** * Vocabulary of the statements *)

Module Spec.
Import JSString JSNumber JSDate.

(** The integers [lo, lo + 1, ..., lo + n - 1]. *)
Definition Zrange (lo : Z) (n : nat) : list Z :=
  map (fun i => (lo + Z.of_nat i)%Z) (seq 0 n).

Fixpoint has_char (c0 : ascii) (s : string) : bool :=
  match s with
  | EmptyString => false
  | String c r => Ascii.eqb c c0 || has_char c0 r
  end.

Fixpoint all_chars (p : ascii -> bool) (s : string) : bool :=
  match s with
  | EmptyString => true
  | String c r => p c && all_chars p r
  end.

Definition two_digits (s : string) : bool :=
  match s with
  | String d1 (String d2 EmptyString) => is_digit d1 && is_digit d2
  | _ => false
  end.

(** Hour of the 24-hour clock for hour [h] of the 12-hour clock. *)
Definition hour24 (h : Z) (pm : bool) : Z :=
  if pm then (if (h =? 12)%Z then 12 else h + 12)%Z
  else (if (h =? 12)%Z then 0 else h)%Z.

(** The text after the hour of a 12-hour time: [:mm] if there are
    minutes, white space, the marker. *)
Definition clock_tail (m : option Z) (ws mk : string) : string :=
  match m with
  | Some x => ":" ++ pad 2 x ++ ws ++ mk
  | None => ws ++ mk
  end.

Definition no_digit (c : ascii) : bool := negb (is_digit c).

Definition captured_minutes (m : option Z) : option string :=
  match m with
  | Some x => Some (pad 2 x)
  | None => None
  end.

(** ** Hosts and clock texts *)

(** A host whose clock is far from the ends of the range of [Date] and
    whose offset from UTC is always less than a day. *)
Definition host_ok (env : Env) : Prop :=
  (- 8000000000000000 <= now env <= 8000000000000000)%Z
  /\ (forall t isUTC, - msPerDay < LocalTZA env t isUTC < msPerDay)%Z.

(** A host whose clocks never change: its local time is always
    [offset] minutes east of UTC.  A host with daylight saving is not
    one. *)
Definition fixed_offset (env : Env) (offset : Z) : Prop :=
  forall t isUTC, LocalTZA env t isUTC = (offset * msPerMinute)%Z.

(** The host with a given clock and a fixed offset in minutes. *)
Definition host_at (clock offset : Z) : Env :=
  mkEnv clock (fun _ _ => (offset * msPerMinute)%Z) (fun _ => None).

(** [HH:MM] for a number of minutes since midnight. *)
Definition clock_text (minutes : Z) : string :=
  pad 2 (minutes / 60) ++ ":" ++ pad 2 (minutes mod 60).

Definition jsnum_eqb (a b : jsnum) : bool :=
  match a, b with
  | NaN, NaN => true
  | Num x, Num y => (x =? y)%Z
  | _, _ => false
  end.

(** The two ways of writing an hour: plain, or padded to two digits. *)
Definition hour_texts (h : Z) : list string := [Z_to_string h; pad 2 h].

(** What the time normalisation needs of a bare time [v] that stands for
    [h:m]: trimming keeps it, it has no marker and no range separator,
    and its components are read as [h] and [m]. *)
Definition bare_time_ok (v : string) (h m : Z) : bool :=
  String.eqb (trim v) v
  && negb (includes v "AM") && negb (includes v "PM")
  && negb (includes v " - ")
  && jsnum_eqb (fst (split_numbers v)) (Num h)
  && jsnum_eqb (snd (split_numbers v)) (Num m).

Definition bare_times_ok (hm : Z) : bool :=
  forallb (fun hs => bare_time_ok (hs ++ ":" ++ pad 2 (hm mod 60))
                       (hm / 60) (hm mod 60))
    (hour_texts (hm / 60)).

(** The characters of a printed date. *)
Definition numeral_char (c : ascii) : bool :=
  is_digit c || Ascii.eqb c "-" || Ascii.eqb c "+".

Definition differs_from (c0 : ascii) (c : ascii) : bool := negb (Ascii.eqb c c0).

(** The character and the one-digit numeral of a digit. *)
Definition digit_char (r : Z) : ascii := ascii_of_nat (Z.to_nat (48 + r)).

Definition digit_uint (r : Z) : Decimal.uint :=
  match r with
  | 1 => Decimal.D1 Decimal.Nil | 2 => Decimal.D2 Decimal.Nil
  | 3 => Decimal.D3 Decimal.Nil | 4 => Decimal.D4 Decimal.Nil
  | 5 => Decimal.D5 Decimal.Nil | 6 => Decimal.D6 Decimal.Nil
  | 7 => Decimal.D7 Decimal.Nil | 8 => Decimal.D8 Decimal.Nil
  | 9 => Decimal.D9 Decimal.Nil | _ => Decimal.D0 Decimal.Nil
  end%Z.

(** ** Concrete hosts and rows *)

(** A host on UTC, on Saturday 2024-03-09 at 16:00:00 UTC. *)
Definition utc_host : Env := host_at 1710000000000 0.


(** A row with a course and a bare start time. *)
Definition row_with_start : LocalFileParser.Row :=
  [("course", JSValue.JString "Algorithms");
   ("time", JSValue.JString "23:15")].




(** The minutes of a 12-hour time, 0 when it has none. *)
Definition minutes_of (m : option Z) : Z :=
  match m with
  | Some x => x
  | None => 0%Z
  end.


(** A host one hour east of UTC, on Monday 2024-03-11 at 00:30 local
    time, which is Sunday 2024-03-10 at 23:30 UTC. *)
Definition east_host : Env := host_at 1710113400000 60.

(** A host five hours west of UTC, at the same instant as [utc_host]. *)
Definition west_host : Env := host_at 1710000000000 (-300).

(** A host five hours west of UTC whose clocks go forward by one hour
    at 2024-03-10T07:00:00Z, 02:00 on its clock, as in New York.  Its
    clock reads 00:30 of that day.  The local times from 02:00 to 03:00
    of that day do not exist: they are read with the offset before the
    change. *)
Definition spring_host : Env :=
  mkEnv 1710048600000
    (fun t isUTC =>
       if isUTC
       then (if t <? 1710054000000 then - 18000000 else - 14400000)
       else (if t <? 1710039600000 then - 18000000 else - 14400000))%Z
    (fun _ => None).

Definition row_monday : LocalFileParser.Row :=
  [("course", JSValue.JString "Algorithms"); ("day", JSValue.JString "Monday")].

(** Weekday, 0 = Sunday, of a date written [YYYY-MM-DD]. *)
Definition weekday_of_date (date : string) : option Z :=
  match parse_iso_date date with
  | Some (y, m, d) => Some (week_day (days_from_civil y m d))
  | None => None
  end.

(** ** Reading a payload back *)

(** The date and the clock time written in a timestamp
    [YYYY-MM-DDTHH:mm:ss.sssZ]. *)
Definition timestamp_date (iso : string) : string :=
  hd EmptyString (split "T" iso).

Definition timestamp_clock (iso : string) : string := substring 11 5 iso.

(** The date and the time range of a payload as its timestamps write
    them, in UTC. *)
Definition reconstruct (p : CalendarEvent.t) : string * string :=
  (timestamp_date (CalendarEvent.startTime p),
   timestamp_clock (CalendarEvent.startTime p) ++ " - "
     ++ timestamp_clock (CalendarEvent.endTime p)).

(** The instant of a timestamp. *)
Definition parse_timestamp (iso : string) : option Z :=
  match parse_iso_date (timestamp_date iso),
        split_numbers (timestamp_clock iso) with
  | Some (y, m, d), (Num h, Num mi) =>
      Some (days_from_civil y m d * msPerDay + h * msPerHour
              + mi * msPerMinute)%Z
  | _, _ => None
  end.

Definition local_clock (env : Env) (t : Z) : string :=
  clock_text ((LocalTime env t mod msPerDay) / msPerMinute).

(** The date and the time range of a payload on the clock of the host. *)
Definition reconstruct_local (env : Env) (p : CalendarEvent.t)
  : option (string * string) :=
  match parse_timestamp (CalendarEvent.startTime p),
        parse_timestamp (CalendarEvent.endTime p) with
  | Some s, Some e =>
      Some (iso_date (LocalTime env s),
            local_clock env s ++ " - " ++ local_clock env e)
  | _, _ => None
  end.

Definition event_at (date time : string) : ParsedTimetableEvent.t :=
  ParsedTimetableEvent.mk "local-parsed-1710000000000-0" "Algorithms" time
    date "TBD" lecture "1h 30m" None None None (Some "TBD").

(** ** Parts of a time range *)

(** The texts that [Number] reads as a number, the
    [StringNumericLiteral] of ECMAScript on ASCII texts: between white
    space, nothing at all (read as 0), an optionally signed decimal
    literal or [Infinity], or an unsigned binary, octal or hexadecimal
    integer.  [Number] is [NaN] on every other text. *)
Fixpoint skip_digits (s : string) : string :=
  match s with
  | EmptyString => EmptyString
  | String c r => if is_digit c then skip_digits r else s
  end.

Definition starts_with_digit (s : string) : bool :=
  match s with
  | EmptyString => false
  | String c _ => is_digit c
  end.

(** Nothing, or an exponent part [e], [e+] or [e-] and digits. *)
Definition exponent_part (s : string) : bool :=
  match s with
  | EmptyString => true
  | String c r =>
      (Ascii.eqb c "e" || Ascii.eqb c "E")
      && let d := match r with
                  | String x r' =>
                      if Ascii.eqb x "+" || Ascii.eqb x "-" then r' else r
                  | EmptyString => r
                  end in
         starts_with_digit d && is_empty (skip_digits d)
  end.

Definition unsigned_decimal (s : string) : bool :=
  if String.eqb s "Infinity" then true
  else if starts_with_digit s
  then match skip_digits s with
       | String "." r => exponent_part (skip_digits r)
       | r => exponent_part r
       end
  else match s with
       | String "." r => starts_with_digit r && exponent_part (skip_digits r)
       | _ => false
       end.

Definition is_hex_digit (c : ascii) : bool :=
  is_digit c || in_range 97 102 c || in_range 65 70 c.

Definition radix_digits (p : ascii -> bool) (s : string) : bool :=
  negb (is_empty s) && all_chars p s.

Definition radix_literal (s : string) : bool :=
  match s with
  | String "0" (String x r) =>
      if Ascii.eqb x "x" || Ascii.eqb x "X" then radix_digits is_hex_digit r
      else if Ascii.eqb x "o" || Ascii.eqb x "O"
      then radix_digits (in_range 48 55) r
      else if Ascii.eqb x "b" || Ascii.eqb x "B"
      then radix_digits (in_range 48 49) r
      else false
  | _ => false
  end.

Definition unsigned_part (s : string) : string :=
  match s with
  | String c r => if Ascii.eqb c "+" || Ascii.eqb c "-" then r else s
  | EmptyString => EmptyString
  end.

Definition numeric_literal (s : string) : bool :=
  let t := trim s in
  is_empty t || radix_literal t || unsigned_decimal (unsigned_part t).

(** A part whose hour or minute is not a number: the part has no colon,
    hence no minute, or the text of one of the two is not a numeric
    literal. *)
Definition unreadable (part : string) : Prop :=
  match split ":" part with
  | h :: m :: _ => numeric_literal h = false \/ numeric_literal m = false
  | _ => True
  end.

(** A part that reads as a clock time [h:m]. *)
Definition clock_part (part : string) : Prop :=
  exists h m : Z,
    (0 <= h <= 23)%Z /\ (0 <= m <= 59)%Z
    /\ split_numbers part = (Num h, Num m).

(** A part whose hour and minute read as integers, of whatever range
    up to a million. *)
Definition integer_part (part : string) : Prop :=
  exists h m : Z,
    (- 1000000 <= h <= 1000000)%Z /\ (- 1000000 <= m <= 1000000)%Z
    /\ split_numbers part = (Num h, Num m).

(** A date in the ISO date form that names a day of the calendar. *)
Definition calendar_date (date : string) : Prop :=
  exists y m d : Z,
    parse_iso_date date = Some (y, m, d) /\ valid_civil y m d = true.

(** ** Replies of the model *)

(** The member [k] of a JSON value: only an object has members. *)
Definition member (v : JSValue.json) (k : string) : JSValue.value :=
  match v with
  | JSValue.JObject fields => JSValue.assoc k fields
  | _ => None
  end.

Definition is_array (v : JSValue.json) : bool :=
  match v with
  | JSValue.JArray _ => true
  | _ => false
  end.

(** The ways an enhancement fails: the request is rejected (network),
    the provider answers with a status that is not 2xx, the body of the
    answer is not JSON, the answer carries no text, or the text is not
    JSON. *)
Inductive enhancement_failure (p : LLMTimetableParser.Provider)
  : LLMTimetableParser.FetchOutcome -> Prop :=
| network_error (error : JSError) :
    enhancement_failure p (LLMTimetableParser.Rejected error)
| provider_error (status : Z) (statusText : string) (body : result JSValue.json) :
    enhancement_failure p
      (LLMTimetableParser.Response false status statusText body)
| unreadable_body (status : Z) (statusText : string) (error : JSError) :
    enhancement_failure p
      (LLMTimetableParser.Response true status statusText (Throw error))
| no_reply_text (status : Z) (statusText : string) (data : JSValue.json)
    (error : JSError) :
    LLMTimetableParser.reply_content p data = Throw error ->
    enhancement_failure p
      (LLMTimetableParser.Response true status statusText (Ok data))
| empty_reply_text (status : Z) (statusText : string) (data : JSValue.json)
    (content : JSValue.value) :
    LLMTimetableParser.reply_content p data = Ok content ->
    JSValue.truthy content = false ->
    enhancement_failure p
      (LLMTimetableParser.Response true status statusText (Ok data))
| malformed_reply (status : Z) (statusText : string) (data : JSValue.json)
    (text : string) (error : JSError) :
    LLMTimetableParser.reply_content p data = Ok (Some (JSValue.JString text)) ->
    JSON.parse (LLMTimetableParser.cleanContent text) = Throw error ->
    enhancement_failure p
      (LLMTimetableParser.Response true status statusText (Ok data)).

(** An answer of the chat-completion shape whose text is [text]. *)
Definition openai_answer (text : string) : LLMTimetableParser.FetchOutcome :=
  LLMTimetableParser.Response true 200 "OK"
    (Ok (JSValue.JObject
           [("choices",
             JSValue.JArray
               [JSValue.JObject
                  [("message",
                    JSValue.JObject [("content", JSValue.JString text)])]])])).

Definition two_events : list ParsedTimetableEvent.t :=
  [event_at "2024-03-15" "09:00 - 10:30"; event_at "2024-03-18" "14:00 - 15:00"].

(** Why [parseJSONResponse] answers with [success: false]. *)
Inductive fails_closed (env : Env) (clock : nat -> Z) (content : string)
  : Prop :=
| syntax_error (error : JSError) :
    JSON.parse (LLMTimetableParser.cleanContent content) = Throw error ->
    fails_closed env clock content
| null_reply :
    JSON.parse (LLMTimetableParser.cleanContent content) = Ok JSValue.JNull ->
    fails_closed env clock content
| events_not_array (v x : JSValue.json) :
    JSON.parse (LLMTimetableParser.cleanContent content) = Ok v ->
    member v "events" = Some x ->
    JSValue.truthy (Some x) = true -> is_array x = false ->
    fails_closed env clock content
| event_rejected (v : JSValue.json) (l : list JSValue.json) (error : JSError) :
    JSON.parse (LLMTimetableParser.cleanContent content) = Ok v ->
    member v "events" = Some (JSValue.JArray l) ->
    LLMTimetableParser.validateEvents env clock 0 l = Throw error ->
    fails_closed env clock content.

(** [v || d] for a value of the reply. *)
Definition or_json (v : JSValue.value) (d : JSValue.json) : JSValue.json :=
  match v with
  | Some x => if JSValue.truthy v then x else d
  | None => d
  end.

(** ** Validation of an event of the reply *)


(** A type that [validateEventType] can read: absent, [null] or a
    string. *)
Definition type_readable (type : JSValue.value) : bool :=
  match type with
  | None | Some JSValue.JNull | Some (JSValue.JString _) => true
  | Some _ => false
  end.


(** ** Generated ids *)

(** What follows the last [c0] of a string. *)
Fixpoint after_last (c0 : ascii) (s : string) : string :=
  match s with
  | EmptyString => EmptyString
  | String c r =>
      if has_char c0 r then after_last c0 r
      else if Ascii.eqb c c0 then r else s
  end.

(** A reply with two events that carry the same id. *)
Definition reply_same_ids : string :=
  let q := String (ascii_of_nat 34) EmptyString in
  "{" ++ q ++ "events" ++ q ++ ": [{" ++ q ++ "id" ++ q ++ ": " ++ q ++ "a"
    ++ q ++ "}, {" ++ q ++ "id" ++ q ++ ": " ++ q ++ "a" ++ q ++ "}]}".



Definition fixed_clock : nat -> Z := fun _ => 1710000000000%Z.

(** ** Outcomes of a sync run *)

Section Outcomes.

Variable createEvent : nat -> CalendarEvent.t -> result string.

Definition call_ok (c : GoogleCalendarService.Call) : bool :=
  is_ok (createEvent (fst c) (snd c)).

Definition call_failed (c : GoogleCalendarService.Call) : bool :=
  negb (call_ok c).

(** The entry of [errors] that a call leaves, if it fails. *)
Definition error_of (c : GoogleCalendarService.Call) : list SyncError.t :=
  match createEvent (fst c) (snd c) with
  | Ok _ => []
  | Throw error => [SyncError.mk (CalendarEvent.id (snd c)) (message_of error)]
  end.

Definition created_of (calls : list GoogleCalendarService.Call) : nat :=
  List.length (filter call_ok calls).

Definition failed_of (calls : list GoogleCalendarService.Call) : nat :=
  List.length (filter call_failed calls).

Definition errors_of (calls : list GoogleCalendarService.Call)
  : list SyncError.t :=
  flat_map error_of calls.

End Outcomes.

(** The calls of a list of batches, numbered as [syncEvents] numbers
    them. *)
Fixpoint all_calls (batchIndex : nat) (batches : list (list CalendarEvent.t))
  : list GoogleCalendarService.Call :=
  match batches with
  | [] => []
  | batch :: rest =>
      (GoogleCalendarService.number_from
         (batchIndex * GoogleCalendarService.batchSize) batch
       ++ all_calls (S batchIndex) rest)%list
  end.

(** The calendar where every creation succeeds but the fourth of the
    run, and seven events to sync. *)
Definition fourth_fails (i : nat) (event : CalendarEvent.t) : result string :=
  if (i =? 3)%nat
  then Throw (Error ("Failed to create event: Rate Limit Exceeded"))
  else Ok ("created-" ++ CalendarEvent.id event).

Definition seven_events : list ParsedTimetableEvent.t :=
  map (fun i => ParsedTimetableEvent.mk
                  ("local-parsed-1710000000000-" ++ Z_to_string (Z.of_nat i))
                  "Algorithms" "09:00 - 10:30" "2024-03-15" "TBD" lecture
                  "1h 30m" None None None (Some "TBD"))
    (seq 0 7).

(** The calls of a batch settle in the reverse of the order in which
    they were started. *)
Definition last_first : GoogleCalendarService.Schedule :=
  fun calls => rev calls.

End Spec.

(* ------------------------------------------------------------------ *)
(** * Vocabulary of the further properties *)

Module Props.
Import JSString JSNumber JSDate JSValue Spec.

(** ** Texts *)

(** The characters of a text that are not white space. *)
Fixpoint letters (s : string) : string :=
  match s with
  | EmptyString => EmptyString
  | String c r => if is_space c then letters r else String c (letters r)
  end.

(** A text that does not end with white space, and is not empty. *)
Fixpoint ends_ok (s : string) : bool :=
  match s with
  | EmptyString => false
  | String c EmptyString => negb (is_space c)
  | String _ r => ends_ok r
  end.

(** [spaced prev s]: the white space of [s] is made of single spaces,
    none at the end, and none at the start when [prev] is set. *)
Fixpoint spaced (prev : bool) (s : string) : bool :=
  match s with
  | EmptyString => negb prev
  | String c r =>
      if is_space c
      then Ascii.eqb c " " && negb prev && spaced true r
      else spaced false r
  end.

(** A text whose only white space is one space between two words. *)
Definition single_spaced (s : string) : bool := is_empty s || spaced true s.

(** A text without white space around it. *)
Definition trimmed (s : string) : Prop := trim s = s.

(** ** Rows *)

(** The names under which [findValueByKeys] looks for a key: as it is,
    without its white space, and with "_" for its white space. *)
Definition key_forms (key : string) : list string :=
  [key; replace_ws_runs EmptyString false key; replace_ws_runs "_" false key].

Definition padded_row : LocalFileParser.Row :=
  [("time", JNumber 9 0); ("course_name", JString "  Algorithms ")].

(** The titles of the events that a list of rows is to give: the
    cleaned title of every row that has one, in the order of the rows. *)
Definition titles_of (rows : list LocalFileParser.Row) : list string :=
  flat_map (fun row =>
              match LocalFileParser.findValueByKeys row
                      LocalFileParser.fieldMappings.title with
              | Some title => [LocalFileParser.cleanTitle title]
              | None => []
              end) rows.

(** Three rows: a course with blanks in its name, a row without a
    title, a course with a bare start time. *)
Definition three_rows : list LocalFileParser.Row :=
  [[("course", JString "  Linear   Algebra ")];
   [("room", JString "R1"); ("time", JString "10:00")];
   row_with_start].

(** ** The sync run *)

(** The reports that the progress callback is to receive for a list of
    events: one for each event, with its position in the list and its
    title, then the last one. *)
Definition reports_of (events : list ParsedTimetableEvent.t)
  : list GoogleCalendarService.Progress.t :=
  (map (fun c => GoogleCalendarService.Progress.mk (fst c)
                   (List.length events)
                   (ParsedTimetableEvent.title (snd c)))
     (GoogleCalendarService.number_from 0 events)
   ++ [GoogleCalendarService.Progress.mk (List.length events)
         (List.length events) "Sync completed"])%list.

(** The calendar that rejects every creation. *)
Definition always_fails (i : nat) (event : CalendarEvent.t) : result string :=
  Throw (Error "Failed to create event: Forbidden").

(** Two events, the second with a time that is not a range. *)
Definition one_bad_time : list ParsedTimetableEvent.t :=
  [event_at "2024-03-15" "09:00 - 10:30"; event_at "2024-03-15" "noon"].

(** The host of [spring_host] on the evening before its clocks go
    forward: Saturday 2024-03-09 at 19:30 on its clock, which is
    2024-03-10 at 00:30 UTC. *)
Definition evening_host : Env := at_time spring_host 1710030600000.

(** ** Replies of a model *)

(** The number of characters [c0] at the head of a text. *)
Fixpoint leading (c0 : ascii) (s : string) : nat :=
  match s with
  | EmptyString => 0
  | String c r => if Ascii.eqb c c0 then S (leading c0 r) else 0
  end.

Definition line_feed : string := String (ascii_of_nat 10) EmptyString.

(** A text on lines of its own between an opening fence and a closing
    one. *)
Definition fenced (opening body : string) : string :=
  opening ++ line_feed ++ body ++ line_feed ++ "```".

(** A reply with a good event and [null] in its [events]. *)
Definition reply_with_null : string :=
  let q := String (ascii_of_nat 34) EmptyString in
  "{" ++ q ++ "events" ++ q ++ ": [{" ++ q ++ "title" ++ q ++ ": " ++ q
    ++ "Algebra" ++ q ++ "}, null]}".

(** A reply to an enhancement whose [enhancedEvents] is a number. *)
Definition reply_number_events : string :=
  let q := String (ascii_of_nat 34) EmptyString in
  "{" ++ q ++ "enhancedEvents" ++ q ++ ": 1}".

End Props.

(* ------------------------------------------------------------------ *)
(** * Properties *)

(** ** Tools *)

Module Tools.
Import JSString JSNumber Spec.

(** A boolean property checked on a range of integers holds on it. *)
Lemma forallb_Zrange (P : Z -> bool) (lo : Z) (n : nat) :
  forallb P (Zrange lo n) = true ->
  forall x, (lo <= x < lo + Z.of_nat n)%Z -> P x = true.
Proof.
  intros H x Hx.
  rewrite forallb_forall in H. apply H.
  unfold Zrange. apply in_map_iff.
  exists (Z.to_nat (x - lo)). split; [lia|].
  apply in_seq. lia.
Qed.

Lemma append_nil_r (s : string) : s ++ EmptyString = s.
Proof. induction s; simpl; congruence. Qed.

Lemma append_assoc (a b c : string) : (a ++ b) ++ c = a ++ (b ++ c).
Proof. induction a; simpl; congruence. Qed.

Lemma length_append (a b : string) :
  String.length (a ++ b) = (String.length a + String.length b)%nat.
Proof. induction a; simpl; congruence. Qed.

Lemma space_not_digit (c : ascii) : is_space c = true -> is_digit c = false.
Proof.
  unfold is_space, is_digit, in_range. intros H.
  destruct (Nat.leb_spec 48 (nat_of_ascii c)); simpl; [|reflexivity].
  destruct (Nat.leb_spec (nat_of_ascii c) 57); simpl; [|reflexivity].
  apply orb_true_iff in H. destruct H as [H|H].
  - apply andb_true_iff in H. destruct H as [_ H].
    apply Nat.leb_le in H. lia.
  - apply Nat.eqb_eq in H. lia.
Qed.

End Tools.

(** ** 12-hour times ([convert12to24]) *)

Module Convert12.
Import JSString JSNumber JSDate LocalFileParser Spec Tools.

Ltac by_cases_on_char c :=
  destruct c as [[] [] [] [] [] [] [] []]; vm_compute; intros;
  try discriminate; repeat split; reflexivity.

Lemma is_AP_class (a : ascii) :
  is_AP a = true ->
  is_space a = false /\ is_digit a = false /\ Ascii.eqb a ":" = false.
Proof. by_cases_on_char a. Qed.

Lemma is_space_class (c : ascii) :
  is_space c = true -> is_digit c = false /\ Ascii.eqb c ":" = false.
Proof. by_cases_on_char c. Qed.

Lemma marker_chars (mk : string) (pm : bool) :
  toUpperCase mk = (if pm then "PM" else "AM") ->
  exists a m, mk = String a (String m EmptyString)
              /\ is_AP a = true /\ is_M m = true.
Proof.
  intros H.
  destruct mk as [|a [|m [|x r]]]; simpl in H;
    try (destruct pm; discriminate H).
  exists a, m. split; [reflexivity|].
  unfold is_AP, is_M.
  destruct pm; injection H as Ha Hm; rewrite Ha, Hm; split; reflexivity.
Qed.

Lemma skip_ws_marker (ws : string) (a : ascii) (r : string) :
  all_chars is_space ws = true -> is_space a = false ->
  skip_ws (ws ++ String a r) = String a r.
Proof.
  induction ws as [|c ws IH]; simpl; intros Hws Ha.
  - rewrite Ha. reflexivity.
  - apply andb_true_iff in Hws. destruct Hws as [Hc Hws].
    rewrite Hc. auto.
Qed.

Lemma match_period_marker (hs : string) (mo : option string)
    (ws : string) (a m : ascii) (rest : string) :
  all_chars is_space ws = true -> is_AP a = true -> is_M m = true ->
  match_period hs mo (ws ++ String a (String m rest))
  = Some (hs, mo, String a (String m EmptyString), rest).
Proof.
  intros Hws Ha Hm. unfold match_period.
  rewrite skip_ws_marker; [|assumption|apply is_AP_class; assumption].
  rewrite Ha, Hm. reflexivity.
Qed.

(** What stands right after the hour is neither a digit nor, when the
    minutes are absent, a colon. *)
Lemma marker_head (ws : string) (a m : ascii) (rest : string) :
  all_chars is_space ws = true -> is_AP a = true ->
  exists c r, ws ++ String a (String m rest) = String c r
              /\ is_digit c = false /\ Ascii.eqb c ":" = false.
Proof.
  intros Hws Ha. destruct ws as [|c ws]; simpl.
  - exists a, (String m rest). split; [reflexivity|].
    apply is_AP_class; assumption.
  - simpl in Hws. apply andb_true_iff in Hws. destruct Hws as [Hc _].
    exists c, (ws ++ String a (String m rest)).
    split; [reflexivity|]. apply is_space_class; assumption.
Qed.

Lemma match_minutes_absent (hs ws : string) (a m : ascii) (rest : string) :
  all_chars is_space ws = true -> is_AP a = true -> is_M m = true ->
  match_minutes hs (ws ++ String a (String m rest))
  = Some (hs, None, String a (String m EmptyString), rest).
Proof.
  intros Hws Ha Hm.
  pose proof (match_period_marker hs None ws a m rest Hws Ha Hm) as Hp.
  destruct (marker_head ws a m rest Hws Ha) as (c & r & Hs & Hd & _).
  unfold match_minutes. rewrite Hs in *. rewrite Hp.
  destruct r; [reflexivity|]. rewrite Hd. reflexivity.
Qed.

Lemma match_minutes_present (hs ws : string) (d1 d2 a m : ascii)
    (rest : string) :
  is_digit d1 = true -> is_digit d2 = true ->
  all_chars is_space ws = true -> is_AP a = true -> is_M m = true ->
  match_minutes hs (String d1 (String d2 (ws ++ String a (String m rest))))
  = Some (hs, Some (String d1 (String d2 EmptyString)),
          String a (String m EmptyString), rest).
Proof.
  intros H1 H2 Hws Ha Hm. unfold match_minutes.
  rewrite H1, H2. simpl.
  rewrite (match_period_marker hs _ ws a m rest Hws Ha Hm). reflexivity.
Qed.

Lemma pad2_two_digits (x : Z) : (0 <= x <= 99)%Z -> two_digits (pad 2 x) = true.
Proof.
  intros Hx.
  apply (forallb_Zrange (fun x => two_digits (pad 2 x)) 0 100);
    [vm_compute; reflexivity | lia].
Qed.

(** The tail of a 12-hour time, followed by the rest of the text. *)
Lemma clock_tail_app (m : option Z) (ws : string) (a c : ascii)
    (rest : string) :
  clock_tail m ws (String a (String c EmptyString)) ++ rest
  = match m with
    | Some x => String ":" (pad 2 x ++ ws ++ String a (String c rest))
    | None => ws ++ String a (String c rest)
    end.
Proof.
  unfold clock_tail. destruct m as [x|].
  - cbn [append]. rewrite !append_assoc. reflexivity.
  - rewrite append_assoc. reflexivity.
Qed.

Lemma match_colon_tail (hs : string) (m : option Z) (ws : string)
    (a c : ascii) (rest : string) :
  (forall x, m = Some x -> (0 <= x <= 59)%Z) ->
  all_chars is_space ws = true -> is_AP a = true -> is_M c = true ->
  match_colon hs (clock_tail m ws (String a (String c EmptyString)) ++ rest)
  = Some (hs, captured_minutes m, String a (String c EmptyString), rest).
Proof.
  intros Hm Hws Ha Hc. rewrite clock_tail_app.
  destruct m as [x|]; unfold captured_minutes.
  - assert (Hx : two_digits (pad 2 x) = true)
      by (apply pad2_two_digits; specialize (Hm x eq_refl); lia).
    destruct (pad 2 x) as [|d1 [|d2 [|? ?]]]; try discriminate Hx.
    simpl in Hx. apply andb_true_iff in Hx. destruct Hx as [H1 H2].
    cbn [append]. unfold match_colon.
    change (Ascii.eqb ":" ":") with true. cbv iota.
    rewrite (match_minutes_present hs ws d1 d2 a c rest); auto.
  - destruct (marker_head ws a c rest Hws Ha) as (c0 & r & Hs & _ & Hcolon).
    pose proof (match_minutes_absent hs ws a c rest Hws Ha Hc) as Hmm.
    unfold match_colon. rewrite Hs in *. rewrite Hcolon. exact Hmm.
Qed.

Lemma clock_tail_head (m : option Z) (ws : string) (a c : ascii)
    (rest : string) :
  all_chars is_space ws = true -> is_AP a = true ->
  exists c0 r,
    clock_tail m ws (String a (String c EmptyString)) ++ rest = String c0 r
    /\ is_digit c0 = false.
Proof.
  intros Hws Ha. rewrite clock_tail_app. destruct m as [x|].
  - eexists _, _. split; reflexivity.
  - destruct (marker_head ws a c rest Hws Ha) as (c0 & r & Hs & Hd & _).
    exists c0, r. auto.
Qed.

(** *** The replacement, from left to right *)

Lemma replace_12h_skip (mid rest : string) :
  replace_12h (String.length mid) (mid ++ rest) = replace_12h 0 rest.
Proof. induction mid as [|c mid IH]; [reflexivity|exact IH]. Qed.

(** A match at the head of the text is replaced, and the replacement
    goes on after it. *)
Lemma replace_12h_at (c : ascii) (mid rest h p : string) (m : option string) :
  match_12h (String c (mid ++ rest)) = Some (h, m, p, rest) ->
  replace_12h 0 (String c (mid ++ rest))
  = to24 h m p ++ replace_12h 0 rest.
Proof.
  intros H. cbn [replace_12h]. rewrite H.
  replace (String.length (String c (mid ++ rest)) - String.length rest - 1)%nat
    with (String.length mid)
    by (cbn [String.length]; rewrite length_append; lia).
  rewrite replace_12h_skip. reflexivity.
Qed.

(** No match starts at a character that is not a digit. *)
Lemma replace_12h_no_digit (pre s : string) :
  all_chars no_digit pre = true ->
  replace_12h 0 (pre ++ s) = pre ++ replace_12h 0 s.
Proof.
  induction pre as [|c pre IH]; intros H; [reflexivity|].
  simpl in H. apply andb_true_iff in H. destruct H as [Hc Hpre].
  unfold no_digit in Hc. apply negb_true_iff in Hc.
  cbn [append replace_12h]. unfold match_12h. rewrite Hc.
  rewrite (IH Hpre). reflexivity.
Qed.

Lemma match_12h_one_digit (d1 : ascii) (t : string) (c : Capture) :
  is_digit d1 = true ->
  (exists c0 r, t = String c0 r /\ is_digit c0 = false) ->
  match_colon (String d1 EmptyString) t = Some c ->
  match_12h (String d1 t) = Some c.
Proof.
  intros H1 (c0 & r & Ht & Hd) Hc. unfold match_12h.
  rewrite H1, Hc. rewrite Ht, Hd. reflexivity.
Qed.

Lemma match_12h_two_digits (d1 d2 : ascii) (t : string) (c : Capture) :
  is_digit d1 = true -> is_digit d2 = true ->
  match_colon (String d1 (String d2 EmptyString)) t = Some c ->
  match_12h (String d1 (String d2 t)) = Some c.
Proof.
  intros H1 H2 Hc. unfold match_12h.
  rewrite H1, H2, Hc. reflexivity.
Qed.

Lemma to24_hour (hs : string) (h : Z) (mo : option string) (mk : string)
    (pm : bool) :
  parseInt hs = Num h -> (1 <= h <= 12)%Z ->
  toUpperCase mk = (if pm then "PM" else "AM") ->
  to24 hs mo mk
  = pad 2 (hour24 h pm) ++ ":"
      ++ match mo with Some s => s | None => "00" end.
Proof.
  intros Hp Hh Hmk. unfold to24. rewrite Hp, Hmk.
  assert (E : In h (Zrange 1 12)).
  { unfold Zrange. apply in_map_iff. exists (Z.to_nat (h - 1)).
    split; [lia|]. apply in_seq. lia. }
  cbv in E.
  repeat (destruct E as [<-|E]; [destruct pm; reflexivity|]).
  contradiction.
Qed.

Lemma hour_text (h : Z) (hs : string) :
  (1 <= h <= 12)%Z -> hs = Z_to_string h \/ hs = pad 2 h ->
  parseInt hs = Num h
  /\ ((exists d1, hs = String d1 EmptyString /\ is_digit d1 = true)
      \/ (exists d1 d2, hs = String d1 (String d2 EmptyString)
                        /\ is_digit d1 = true /\ is_digit d2 = true)).
Proof.
  intros Hh Hs.
  assert (E : In h (Zrange 1 12)).
  { unfold Zrange. apply in_map_iff. exists (Z.to_nat (h - 1)).
    split; [lia|]. apply in_seq. lia. }
  cbv in E.
  repeat (destruct E as [<-|E];
          [destruct Hs as [-> | ->];
           (split; [reflexivity|]);
           ((left; eexists; split; reflexivity)
            || (right; eexists _, _; repeat split; reflexivity))|]).
  contradiction.
Qed.

(** A 12-hour time after a text without a digit is replaced by its
    24-hour time, and the conversion goes on with what follows it. *)
Lemma convert12to24_at :
  forall (h : Z) (m : option Z) (pm : bool) (pre hs ws mk post : string),
    (1 <= h <= 12)%Z ->
    hs = Z_to_string h \/ hs = pad 2 h ->
    (forall x, m = Some x -> (0 <= x <= 59)%Z) ->
    all_chars is_space ws = true ->
    toUpperCase mk = (if pm then "PM" else "AM") ->
    all_chars no_digit pre = true ->
    convert12to24 (pre ++ (hs ++ clock_tail m ws mk) ++ post)
    = pre
        ++ (pad 2 (hour24 h pm) ++ ":"
              ++ match m with Some x => pad 2 x | None => "00" end)
        ++ convert12to24 post.
Proof.
  intros h m pm pre hs ws mk post Hh Hhs Hm Hws Hmk Hpre.
  unfold convert12to24. rewrite replace_12h_no_digit by assumption.
  f_equal.
  destruct (marker_chars mk pm Hmk) as (a & c & -> & Ha & Hc).
  destruct (hour_text h hs Hh Hhs) as [Hp Hform].
  pose proof (fun hs' => match_colon_tail hs' m ws a c post Hm Hws Ha Hc)
    as Hcol.
  pose proof (clock_tail_head m ws a c post Hws Ha) as Hhead.
  assert (Hto : forall mo, to24 hs mo (String a (String c EmptyString))
                 = pad 2 (hour24 h pm) ++ ":"
                     ++ match mo with Some s => s | None => "00" end)
    by (intros mo; apply to24_hour; assumption).
  assert (Hcap : match captured_minutes m with Some s => s | None => "00" end
                 = match m with Some x => pad 2 x | None => "00" end)
    by (destruct m; reflexivity).
  rewrite append_assoc.
  set (t := clock_tail m ws (String a (String c EmptyString))) in *.
  destruct Hform as [(d1 & -> & H1) | (d1 & d2 & -> & H1 & H2)];
    cbn [append].
  - rewrite (replace_12h_at d1 t post (String d1 EmptyString)
               (String a (String c EmptyString)) (captured_minutes m)).
    + rewrite Hto, Hcap. reflexivity.
    + apply match_12h_one_digit; auto.
  - change (String d1 (String d2 (t ++ post)))
      with (String d1 (String d2 t ++ post)).
    rewrite (replace_12h_at d1 (String d2 t) post
               (String d1 (String d2 EmptyString))
               (String a (String c EmptyString)) (captured_minutes m)).
    + rewrite Hto, Hcap. reflexivity.
    + apply match_12h_two_digits; auto.
Qed.

(** The conversion itself, [convert12to24], on a 12-hour time that
    appears in a time value: hour [1..12] written with or without a
    leading zero, optional [:mm], optional white space and the marker AM
    or PM in any letter case.  Whatever follows it, and after any text
    without a digit, it is replaced by the zero-padded 24-hour time: 12 AM
    is hour 00, 12 PM is hour 12, the other PM hours are moved by twelve.
    The conversion then goes on with the rest of the value. *)
Theorem convert12to24_correct :
  forall (h : Z) (m : option Z) (pm : bool) (pre hs ws mk post : string),
    (1 <= h <= 12)%Z ->
    hs = Z_to_string h \/ hs = pad 2 h ->
    (forall x, m = Some x -> (0 <= x <= 59)%Z) ->
    all_chars is_space ws = true ->
    toUpperCase mk = (if pm then "PM" else "AM") ->
    all_chars no_digit pre = true ->
    convert12to24 (pre ++ (hs ++ clock_tail m ws mk) ++ post)
    = pre
        ++ (pad 2 (hour24 h pm) ++ ":"
              ++ match m with Some x => pad 2 x | None => "00" end)
        ++ convert12to24 post.
Proof.
  intros h m pm pre hs ws mk post Hh Hhs Hm Hws Hmk Hpre.
  apply convert12to24_at; assumption.
Qed.

Lemma convert12to24_correct_witness :
  convert12to24 ("at " ++ ("2" ++ clock_tail (Some 30%Z) " " "pm") ++ " sharp")
  = "at " ++ "14:30" ++ " sharp".
Proof.
  apply (convert12to24_correct 2 (Some 30%Z) true "at " "2" " " "pm" " sharp").
  - lia.
  - left; reflexivity.
  - intros x Hx; injection Hx as <-; lia.
  - reflexivity.
  - reflexivity.
  - reflexivity.
Defined.

(** A range of two 12-hour times. *)
Lemma convert12to24_range (h1 h2 : Z) (m1 m2 : option Z) (pm1 pm2 : bool)
    (hs1 hs2 ws1 ws2 mk1 mk2 : string) :
  (1 <= h1 <= 12)%Z -> (1 <= h2 <= 12)%Z ->
  hs1 = Z_to_string h1 \/ hs1 = pad 2 h1 ->
  hs2 = Z_to_string h2 \/ hs2 = pad 2 h2 ->
  (forall x, m1 = Some x -> (0 <= x <= 59)%Z) ->
  (forall x, m2 = Some x -> (0 <= x <= 59)%Z) ->
  all_chars is_space ws1 = true -> all_chars is_space ws2 = true ->
  toUpperCase mk1 = (if pm1 then "PM" else "AM") ->
  toUpperCase mk2 = (if pm2 then "PM" else "AM") ->
  convert12to24 ((hs1 ++ clock_tail m1 ws1 mk1) ++ " - "
                   ++ (hs2 ++ clock_tail m2 ws2 mk2))
  = (pad 2 (hour24 h1 pm1) ++ ":"
       ++ match m1 with Some x => pad 2 x | None => "00" end)
      ++ " - "
      ++ (pad 2 (hour24 h2 pm2) ++ ":"
            ++ match m2 with Some x => pad 2 x | None => "00" end).
Proof.
  intros Hh1 Hh2 Hs1 Hs2 Hm1 Hm2 Hw1 Hw2 Hk1 Hk2.
  set (t1 := hs1 ++ clock_tail m1 ws1 mk1).
  set (t2 := hs2 ++ clock_tail m2 ws2 mk2).
  assert (H1 : convert12to24 (t1 ++ " - " ++ t2)
               = (pad 2 (hour24 h1 pm1) ++ ":"
                    ++ match m1 with Some x => pad 2 x | None => "00" end)
                   ++ convert12to24 (" - " ++ t2))
    by exact (convert12to24_at h1 m1 pm1 EmptyString hs1 ws1 mk1
                (" - " ++ t2) Hh1 Hs1 Hm1 Hw1 Hk1 eq_refl).
  assert (H2 : convert12to24 (" - " ++ t2 ++ EmptyString)
               = " - "
                   ++ (pad 2 (hour24 h2 pm2) ++ ":"
                         ++ match m2 with Some x => pad 2 x | None => "00" end)
                   ++ EmptyString)
    by exact (convert12to24_at h2 m2 pm2 " - " hs2 ws2 mk2 EmptyString
                Hh2 Hs2 Hm2 Hw2 Hk2 eq_refl).
  rewrite !append_nil_r in H2. rewrite H1, H2. reflexivity.
Qed.

Example convert12to24_examples :
  convert12to24 "2:30 PM" = "14:30"
  /\ convert12to24 "12 AM" = "00:00"
  /\ convert12to24 "12 PM" = "12:00"
  /\ convert12to24 "12:05 am" = "00:05"
  /\ convert12to24 "09:15pm" = "21:15"
  /\ convert12to24 "2:30 PM - 4:00 PM" = "14:30 - 16:00".
Proof. repeat split; reflexivity. Qed.

(** [normalizeTime] calls the conversion only when the value includes
    AM or PM in upper case: a value without them is not converted,
    whatever its markers in lower case. *)
Lemma normalizeTime_unmarked (env : Env) (time : string) :
  includes (trim time) "AM" = false -> includes (trim time) "PM" = false ->
  normalizeTime env time
  = if includes (trim time) " - " then trim time
    else trim time ++ " - " ++ addMinutes env (trim time) 90.
Proof.
  intros Ha Hp. unfold normalizeTime. rewrite Ha, Hp. cbn [orb].
  destruct (includes (trim time) " - "); reflexivity.
Qed.

(** C7.  The conversion is written for markers in any letter case, and
    turns 2:30 pm into 14:30; the time normalisation calls it on 2:30 PM,
    and not on 2:30 pm, which it takes for a 24-hour start time: the end
    that it adds is not a time.  A range with its markers in lower case
    is returned as it was given. *)
Theorem normalizeTime_marker_case :
  convert12to24 "2:30 pm" = "14:30"
  /\ normalizeTime utc_host "2:30 PM" = "14:30 - 16:00"
  /\ normalizeTime utc_host "2:30 pm" = "2:30 pm - NaN:NaN"
  /\ normalizeTime utc_host "2:30 pm - 4:00 pm" = "2:30 pm - 4:00 pm".
Proof. repeat split; vm_compute; reflexivity. Qed.

End Convert12.

(** ** Decimal numerals, clocks and dates *)

Module Clock.
Import JSString JSNumber JSDate LocalFileParser Spec Tools.

Lemma string_of_uint_digits (d : Decimal.uint) :
  all_chars is_digit (NilEmpty.string_of_uint d) = true.
Proof. induction d; simpl; auto. Qed.

Lemma Z_to_string_digits (z : Z) :
  (0 <= z)%Z -> all_chars is_digit (Z_to_string z) = true.
Proof.
  intros Hz. unfold Z_to_string.
  destruct z as [|p|p]; [reflexivity| |lia].
  simpl. apply string_of_uint_digits.
Qed.

Lemma Z_to_string_inj (a b : Z) : Z_to_string a = Z_to_string b -> a = b.
Proof.
  unfold Z_to_string. intros H.
  apply DecimalZ.to_int_inj.
  apply (f_equal NilEmpty.int_of_string) in H.
  rewrite !NilEmpty.isi in H. congruence.
Qed.

Lemma padStart2_pad (x : Z) :
  (0 <= x <= 99)%Z -> padStart2 (Z_to_string x) = pad 2 x.
Proof.
  intros Hx.
  pose proof (forallb_Zrange
                (fun x => String.eqb (padStart2 (Z_to_string x)) (pad 2 x))
                0 100 eq_refl x) as H.
  apply String.eqb_eq. apply H. lia.
Qed.

(** *** Time of day after [setHours] *)

Lemma hours_of_day (day x : Z) :
  ((day * msPerDay + x * msPerMinute) mod msPerDay / msPerHour
   = (x mod 1440) / 60)%Z.
Proof.
  unfold msPerDay, msPerHour, msPerMinute.
  rewrite Z.add_comm, Z_mod_plus_full.
  change 86400000%Z with (1440 * 60000)%Z.
  rewrite Zmult_mod_distr_r.
  change 3600000%Z with (60 * 60000)%Z.
  rewrite Z.div_mul_cancel_r; lia.
Qed.

Lemma minutes_of_hour (day x : Z) :
  ((day * msPerDay + x * msPerMinute) mod msPerHour / msPerMinute
   = x mod 60)%Z.
Proof.
  unfold msPerDay, msPerHour, msPerMinute.
  replace (day * 86400000 + x * 60000)%Z
    with (x * 60000 + (day * 24) * 3600000)%Z by lia.
  rewrite Z_mod_plus_full.
  change 3600000%Z with (60 * 60000)%Z.
  rewrite Zmult_mod_distr_r.
  apply Z.div_mul. lia.
Qed.

(** The zone of a host whose clocks never change. *)
Lemma LocalTime_fixed (env : Env) (c t : Z) :
  fixed_offset env c -> LocalTime env t = (t + c * msPerMinute)%Z.
Proof. intros H. unfold LocalTime. rewrite H. reflexivity. Qed.

Lemma UTC_fixed (env : Env) (c t : Z) :
  fixed_offset env c -> UTC env t = (t - c * msPerMinute)%Z.
Proof. intros H. unfold UTC. rewrite H. reflexivity. Qed.

Lemma fixed_offset_range (env : Env) (c : Z) :
  host_ok env -> fixed_offset env c -> (- 1440 < c < 1440)%Z.
Proof.
  intros [_ Htz] H. specialize (Htz 0%Z true). rewrite H in Htz.
  unfold msPerDay, msPerMinute in Htz. lia.
Qed.

Lemma fixed_offset_at_time (env : Env) (c t : Z) :
  fixed_offset env c -> fixed_offset (at_time env t) c.
Proof. intros H. exact H. Qed.

Lemma host_at_fixed (clock c : Z) : fixed_offset (host_at clock c) c.
Proof. intros t isUTC. reflexivity. Qed.

Lemma host_at_ok (clock c : Z) :
  (- 8000000000000000 <= clock <= 8000000000000000)%Z ->
  (- 1440 < c < 1440)%Z -> host_ok (host_at clock c).
Proof.
  intros Hc Ho. split; [exact Hc|]. intros t isUTC.
  cbn [host_at LocalTZA]. unfold msPerDay, msPerMinute. lia.
Qed.

Lemma spring_host_ok : host_ok spring_host.
Proof.
  split; [cbn; lia|]. intros t isUTC. cbn [spring_host LocalTZA].
  unfold msPerDay.
  destruct isUTC; match goal with
                  | |- context [if ?c then _ else _] => destruct c
                  end; lia.
Qed.

Lemma host_ok_at_time (env : Env) (t : Z) :
  host_ok env -> (- 8000000000000000 <= t <= 8000000000000000)%Z ->
  host_ok (at_time env t).
Proof. intros [_ Htz] Ht. split; [exact Ht | exact Htz]. Qed.

Lemma LocalTime_range (env : Env) (t : Z) :
  host_ok env -> (t - msPerDay < LocalTime env t < t + msPerDay)%Z.
Proof.
  intros [_ Htz]. unfold LocalTime. specialize (Htz t true). lia.
Qed.

Lemma UTC_range (env : Env) (t : Z) :
  host_ok env -> (t - msPerDay < UTC env t < t + msPerDay)%Z.
Proof.
  intros [_ Htz]. unfold UTC. specialize (Htz t false). lia.
Qed.

(** [setHours] on a host in range gives a valid date. *)
Lemma setHours_valid (env : Env) (t h m : Z) :
  host_ok env ->
  (- 8100000000000000 <= t <= 8100000000000000)%Z ->
  (- 1000000 <= h <= 1000000)%Z -> (- 1000000 <= m <= 1000000)%Z ->
  exists t',
    setHours env (Some t) (Num h) (Num m) = Some t'
    /\ t' = UTC env (LocalTime env t / msPerDay * msPerDay
                     + h * msPerHour + m * msPerMinute)%Z.
Proof.
  intros Hok Ht Hh Hm. unfold setHours, TimeClip.
  set (x := (LocalTime env t / msPerDay * msPerDay + h * msPerHour
             + m * msPerMinute)%Z).
  pose proof (LocalTime_range env t Hok) as Hl.
  pose proof (UTC_range env x Hok) as Hu.
  assert (Hday : (LocalTime env t - msPerDay
                  < LocalTime env t / msPerDay * msPerDay
                  <= LocalTime env t)%Z).
  { pose proof (Z.mul_div_le (LocalTime env t) msPerDay).
    pose proof (Z.mul_succ_div_gt (LocalTime env t) msPerDay).
    unfold msPerDay in *. lia. }
  assert (E : (Z.abs (UTC env x) <=? 8640000000000000)%Z = true).
  { apply Z.leb_le. unfold x in *.
    unfold msPerDay, msPerHour, msPerMinute in *. lia. }
  rewrite E. eexists. split; reflexivity.
Qed.

(** On a host whose clocks never change, it gives the asked time of the
    local day. *)
Lemma setHours_local (env : Env) (c t h m : Z) :
  host_ok env -> fixed_offset env c ->
  (- 8100000000000000 <= t <= 8100000000000000)%Z ->
  (- 1000000 <= h <= 1000000)%Z -> (- 1000000 <= m <= 1000000)%Z ->
  exists t',
    setHours env (Some t) (Num h) (Num m) = Some t'
    /\ LocalTime env t'
       = (LocalTime env t / msPerDay * msPerDay + (h * 60 + m) * msPerMinute)%Z.
Proof.
  intros Hok Hc Ht Hh Hm.
  destruct (setHours_valid env t h m Hok Ht Hh Hm) as (t' & E & ->).
  eexists. split; [exact E|].
  rewrite (LocalTime_fixed env c _ Hc), (UTC_fixed env c _ Hc).
  unfold msPerDay, msPerHour, msPerMinute. lia.
Qed.

Lemma clock_after_setHours (env : Env) (c t h m : Z) :
  host_ok env -> fixed_offset env c ->
  (- 8100000000000000 <= t <= 8100000000000000)%Z ->
  (- 1000000 <= h <= 1000000)%Z -> (- 1000000 <= m <= 1000000)%Z ->
  let d := setHours env (Some t) (Num h) (Num m) in
  getHours env d = Num (((h * 60 + m) mod 1440) / 60)
  /\ getMinutes env d = Num ((h * 60 + m) mod 60).
Proof.
  intros Hok Hc Ht Hh Hm d. subst d.
  destruct (setHours_local env c t h m Hok Hc Ht Hh Hm) as (t' & -> & Hl).
  unfold getHours, getMinutes. rewrite Hl.
  rewrite hours_of_day, minutes_of_hour. split; reflexivity.
Qed.

(** *** Splitting at a character *)

Lemma rev_string_twice (a acc acc' : string) :
  rev_string acc (rev_string acc' a) = rev_string (a ++ acc) acc'.
Proof.
  revert acc acc'. induction a as [|c a IH]; intros acc acc'; simpl.
  - reflexivity.
  - rewrite IH. reflexivity.
Qed.

Lemma prefix_char (c0 c : ascii) (r : string) :
  prefix (String c0 EmptyString) (String c r) = Ascii.eqb c c0.
Proof.
  simpl. destruct (ascii_dec c0 c) as [->|Hne].
  - rewrite Ascii.eqb_refl. destruct r; reflexivity.
  - symmetry. apply Ascii.eqb_neq. congruence.
Qed.

Lemma split_aux_at_char (c0 : ascii) (a b cur : string) :
  all_chars (differs_from c0) a = true ->
  split_aux (String c0 EmptyString) 0 cur (a ++ String c0 b)
  = rev_string EmptyString (rev_string cur a)
      :: split_aux (String c0 EmptyString) 0 EmptyString b.
Proof.
  revert cur. induction a as [|c a IH]; intros cur Ha.
  - cbn [append split_aux rev_string]. rewrite prefix_char, Ascii.eqb_refl.
    reflexivity.
  - cbn [append split_aux]. rewrite prefix_char.
    simpl in Ha. apply andb_true_iff in Ha. destruct Ha as [Hc Ha].
    unfold differs_from in Hc. apply negb_true_iff in Hc. rewrite Hc.
    rewrite IH by assumption. reflexivity.
Qed.

Lemma split_at_char (c0 : ascii) (a b : string) :
  all_chars (differs_from c0) a = true ->
  split (String c0 EmptyString) (a ++ String c0 b)
  = a :: split (String c0 EmptyString) b.
Proof.
  intros Ha. unfold split. rewrite split_aux_at_char by assumption.
  rewrite rev_string_twice. simpl. rewrite append_nil_r. reflexivity.
Qed.

Lemma all_chars_app (p : ascii -> bool) (a b : string) :
  all_chars p (a ++ b) = all_chars p a && all_chars p b.
Proof.
  induction a as [|c a IH]; simpl; [reflexivity|].
  rewrite IH. apply andb_assoc.
Qed.

Lemma all_chars_weaken (p q : ascii -> bool) (s : string) :
  (forall c, p c = true -> q c = true) ->
  all_chars p s = true -> all_chars q s = true.
Proof.
  intros Hpq. induction s as [|c s IH]; simpl; [reflexivity|].
  intros H. apply andb_true_iff in H. destruct H as [Hc Hs].
  rewrite (Hpq c Hc). auto.
Qed.

(** *** Printed dates *)

Lemma string_of_uint_numeral (d : Decimal.uint) :
  all_chars numeral_char (NilEmpty.string_of_uint d) = true.
Proof. induction d; simpl; auto. Qed.

Lemma Z_to_string_numeral (z : Z) : all_chars numeral_char (Z_to_string z) = true.
Proof.
  unfold Z_to_string. destruct z as [|p|p]; simpl;
    try apply string_of_uint_numeral; reflexivity.
Qed.

Lemma zeros_numeral (n : nat) : all_chars numeral_char (zeros n) = true.
Proof. induction n; simpl; auto. Qed.

Lemma pad_numeral (w : nat) (z : Z) : all_chars numeral_char (pad w z) = true.
Proof.
  unfold pad. rewrite all_chars_app, zeros_numeral, Z_to_string_numeral.
  reflexivity.
Qed.

Lemma iso_date_numeral (t : Z) : all_chars numeral_char (iso_date t) = true.
Proof.
  unfold iso_date. destruct (civil_from_days (t / msPerDay)) as [[y m] d].
  rewrite !all_chars_app, !pad_numeral. unfold iso_year.
  destruct ((0 <=? y)%Z && (y <=? 9999)%Z); [|destruct (y <? 0)%Z];
    rewrite ?all_chars_app, !pad_numeral; reflexivity.
Qed.

Lemma numeral_not_T (c : ascii) :
  numeral_char c = true -> differs_from "T" c = true.
Proof.
  destruct c as [[] [] [] [] [] [] [] []]; vm_compute; intros;
    try discriminate; reflexivity.
Qed.

(** [d.toISOString().split('T')[0]] is the UTC date of [d]. *)
Lemma iso_date_part (t : Z) :
  hd EmptyString (split "T" (iso_date t ++ "T" ++ iso_time t ++ "Z"))
  = iso_date t.
Proof.
  change (iso_date t ++ "T" ++ iso_time t ++ "Z")
    with (iso_date t ++ String "T" (iso_time t ++ "Z")).
  rewrite split_at_char; [reflexivity|].
  apply (all_chars_weaken numeral_char); [apply numeral_not_T|].
  apply iso_date_numeral.
Qed.

End Clock.

(** ** Texts: trimming and searching *)

Module Texts.
Import JSString JSNumber Spec Props Tools Clock.

Lemma trimStart_head (s : string) :
  match trimStart s with
  | EmptyString => True
  | String c _ => is_space c = false
  end.
Proof.
  induction s as [|c s IH]; cbn [trimStart]; [exact I|].
  destruct (is_space c) eqn:E; [exact IH | exact E].
Qed.

Lemma trimEnd_shape (s : string) :
  trimEnd s = EmptyString \/ ends_ok (trimEnd s) = true.
Proof.
  induction s as [|c s IH]; cbn [trimEnd]; [left; reflexivity|].
  destruct IH as [-> | IH].
  - cbn [is_empty]. rewrite andb_true_r.
    destruct (is_space c) eqn:E; [left; reflexivity|].
    right. cbn [ends_ok]. rewrite E. reflexivity.
  - right. destruct (trimEnd s) as [|c' r] eqn:Er; [discriminate IH|].
    cbn [is_empty]. rewrite andb_false_r. exact IH.
Qed.

Lemma trimEnd_head (c : ascii) (r : string) :
  trimEnd (String c r) = EmptyString
  \/ exists r', trimEnd (String c r) = String c r'.
Proof.
  cbn [trimEnd]. destruct (is_space c && is_empty (trimEnd r));
    [left; reflexivity | right; eexists; reflexivity].
Qed.

Lemma trimEnd_fixed (s : string) : ends_ok s = true -> trimEnd s = s.
Proof.
  induction s as [|c s IH]; [discriminate|].
  intros H. cbn [trimEnd]. destruct s as [|c' r].
  - cbn [ends_ok] in H. apply negb_true_iff in H.
    cbn [trimEnd is_empty]. rewrite H. reflexivity.
  - change (ends_ok (String c (String c' r))) with (ends_ok (String c' r)) in H.
    rewrite (IH H). cbn [is_empty]. rewrite andb_false_r. reflexivity.
Qed.

Lemma trimStart_fixed (c : ascii) (r : string) :
  is_space c = false -> trimStart (String c r) = String c r.
Proof. intros H. cbn [trimStart]. rewrite H. reflexivity. Qed.

(** A trimmed text is empty, or starts and ends with a character that
    is not white space. *)
Lemma trim_shape (s : string) :
  trim s = EmptyString
  \/ exists c r, trim s = String c r /\ is_space c = false
                 /\ ends_ok (String c r) = true.
Proof.
  unfold trim. pose proof (trimStart_head s) as Hh.
  destruct (trimStart s) as [|c r]; [left; reflexivity|].
  destruct (trimEnd_head c r) as [-> | (r' & Hr)]; [left; reflexivity|].
  right. exists c, r'. split; [exact Hr|]. split; [exact Hh|].
  destruct (trimEnd_shape (String c r)) as [H|H]; rewrite Hr in H;
    [discriminate H | exact H].
Qed.

Lemma trim_fixed (c : ascii) (r : string) :
  is_space c = false -> ends_ok (String c r) = true ->
  trim (String c r) = String c r.
Proof.
  intros Hc He. unfold trim. rewrite trimStart_fixed by assumption.
  apply trimEnd_fixed. exact He.
Qed.

Lemma trim_idempotent (s : string) : trim (trim s) = trim s.
Proof.
  destruct (trim_shape s) as [-> | (c & r & -> & Hc & He)]; [reflexivity|].
  apply trim_fixed; assumption.
Qed.

Lemma letters_trimStart (s : string) : letters (trimStart s) = letters s.
Proof.
  induction s as [|c s IH]; [reflexivity|].
  cbn [trimStart letters]. destruct (is_space c) eqn:E; [exact IH|].
  cbn [letters]. rewrite E. reflexivity.
Qed.

Lemma letters_trimEnd (s : string) : letters (trimEnd s) = letters s.
Proof.
  induction s as [|c s IH]; [reflexivity|].
  cbn [trimEnd letters]. rewrite <- IH.
  destruct (is_space c) eqn:E; cbn [andb].
  - destruct (trimEnd s); cbn [is_empty letters]; rewrite ?E; reflexivity.
  - cbn [letters]. rewrite E. reflexivity.
Qed.

Lemma letters_trim (s : string) : letters (trim s) = letters s.
Proof. unfold trim. rewrite letters_trimEnd. apply letters_trimStart. Qed.

(** *** [includes] *)

Lemma prefix_append (p s : string) : prefix p (p ++ s) = true.
Proof.
  induction p as [|c p IH]; cbn [append].
  - destruct s; reflexivity.
  - cbn [prefix]. destruct (ascii_dec c c) as [_|Hn]; [exact IH|].
    exfalso. apply Hn. reflexivity.
Qed.

Lemma includes_here (s p : string) : prefix p s = true -> includes s p = true.
Proof. intros H. destruct s; cbn [includes]; rewrite H; reflexivity. Qed.

Lemma includes_later (c : ascii) (s p : string) :
  includes s p = true -> includes (String c s) p = true.
Proof. intros H. cbn [includes]. rewrite H. apply orb_true_r. Qed.

Lemma includes_append (a s p : string) :
  includes s p = true -> includes (a ++ s) p = true.
Proof.
  intros H. induction a as [|c a IH]; cbn [append]; [exact H|].
  apply includes_later. exact IH.
Qed.

Lemma prefix_app_r (p a b : string) :
  prefix p a = true -> prefix p (a ++ b) = true.
Proof.
  revert a. induction p as [|c p IH]; intros a H; [destruct (a ++ b); reflexivity|].
  destruct a as [|x a]; [discriminate H|].
  cbn [append prefix] in *. destruct (ascii_dec c x); [|discriminate H].
  apply IH. exact H.
Qed.

Lemma includes_append_r (a b p : string) :
  includes a p = true -> includes (a ++ b) p = true.
Proof.
  induction a as [|c a IH]; intros H.
  - cbn [includes] in H. rewrite orb_false_r in H.
    apply includes_here. apply (prefix_app_r p EmptyString b H).
  - cbn [includes] in H. apply orb_true_iff in H. destruct H as [H|H].
    + apply includes_here. apply (prefix_app_r p (String c a) b H).
    + cbn [append]. apply includes_later. apply IH. exact H.
Qed.

(** A text that holds [p] somewhere includes it. *)
Lemma includes_middle (a p b : string) : includes (a ++ p ++ b) p = true.
Proof. apply includes_append, includes_here, prefix_append. Qed.

Lemma map_chars_append (f : ascii -> ascii) (a b : string) :
  map_chars f (a ++ b) = map_chars f a ++ map_chars f b.
Proof. induction a as [|c a IH]; cbn [append map_chars]; congruence. Qed.

End Texts.

(** ** The structured parser: dates and times of a row *)

Module Rows.
Import JSString JSNumber JSDate JSValue LocalFileParser Spec Props Tools Clock.
Import Convert12 Texts.

Ltac zlia := Z.to_euclidean_division_equations; lia.

Lemma week_day_range (day : Z) : (0 <= week_day day <= 6)%Z.
Proof. unfold week_day. zlia. Qed.

(** [getNextWeekday]: the target is the local time of now [k] days
    later, [1 <= k <= 7]; the local day of the target falls on the asked
    weekday, and the date returned is the date in UTC of the instant at
    which the host reads that local time. *)
Lemma getNextWeekday_target (env : Env) (d : Z) :
  host_ok env -> (0 <= d <= 6)%Z ->
  exists k : Z,
    (1 <= k <= 7)%Z
    /\ getNextWeekday env d
       = Ok (iso_date (UTC env (LocalTime env (now env) + k * msPerDay)))
    /\ week_day ((LocalTime env (now env) + k * msPerDay) / msPerDay) = d.
Proof.
  intros Hok Hd.
  unfold getNextWeekday, Date_now, getDay.
  set (wd := week_day (LocalTime env (now env) / msPerDay)).
  pose proof (week_day_range (LocalTime env (now env) / msPerDay)) as Hwd.
  fold wd in Hwd.
  cbn [add sub rem].
  set (r := Z.rem (d + 7 - wd) 7).
  assert (Hr : (r = (d + 7 - wd) mod 7)%Z)
    by (unfold r; apply Z.rem_mod_nonneg; lia).
  assert (Hk : exists k, (1 <= k <= 7)%Z
             /\ match Num r with Num 0 | NaN => Num 7 | _ => Num r end = Num k
             /\ ((wd + k) mod 7 = d)%Z).
  { destruct r as [|p|p] eqn:E.
    - exists 7%Z. repeat split; try lia. zlia.
    - exists (Z.pos p). repeat split; try zlia.
    - exfalso. zlia. }
  destruct Hk as (k & Hk & -> & Hwk).
  exists k. split; [assumption|].
  unfold addDays, TimeClip.
  pose proof (LocalTime_range env (now env) Hok) as Hl.
  pose proof (UTC_range env (LocalTime env (now env) + k * msPerDay) Hok) as Hu.
  destruct Hok as [Hnow _].
  assert (Hin : (Z.abs (UTC env (LocalTime env (now env) + k * msPerDay))
                 <=? 8640000000000000)%Z = true)
    by (apply Z.leb_le; unfold msPerDay in *; lia).
  rewrite Hin. cbn [toISOString bind]. rewrite iso_date_part.
  split; [reflexivity|].
  clear - Hwk. unfold wd, week_day, msPerDay in *. zlia.
Qed.

(** On a host whose clocks never change the target is the instant [k]
    days after now. *)
Lemma getNextWeekday_target_fixed (env : Env) (c d : Z) :
  host_ok env -> fixed_offset env c -> (0 <= d <= 6)%Z ->
  exists k : Z,
    (1 <= k <= 7)%Z
    /\ getNextWeekday env d = Ok (iso_date (now env + k * msPerDay))
    /\ week_day (LocalTime env (now env + k * msPerDay) / msPerDay) = d.
Proof.
  intros Hok Hc Hd.
  destruct (getNextWeekday_target env d Hok Hd) as (k & Hk & Hg & Hw).
  exists k. split; [exact Hk|].
  rewrite (UTC_fixed env c _ Hc), (LocalTime_fixed env c _ Hc) in Hg.
  rewrite (LocalTime_fixed env c _ Hc) in Hw.
  rewrite (LocalTime_fixed env c _ Hc).
  split.
  - rewrite Hg. do 2 f_equal. lia.
  - rewrite <- Hw. do 2 f_equal. lia.
Qed.

Lemma getNextWeekday_ok (env : Env) (d : Z) :
  host_ok env -> (0 <= d <= 6)%Z -> exists s, getNextWeekday env d = Ok s.
Proof.
  intros Hok Hd.
  destruct (getNextWeekday_target env d Hok Hd) as (k & _ & -> & _).
  eexists; reflexivity.
Qed.

Lemma findIndex_range {A : Type} (p : A -> bool) (l : list A) (i k : Z) :
  findIndex p l i = Some k -> (i <= k < i + Z.of_nat (List.length l))%Z.
Proof.
  revert i. induction l as [|x l IH]; intros i H; simpl in H; [discriminate|].
  destruct (p x).
  - injection H as <-. simpl List.length. lia.
  - apply IH in H. simpl List.length. lia.
Qed.

Lemma normalizeDate_ok (env : Env) (date : string) :
  host_ok env -> exists s, normalizeDate env date = Ok s.
Proof.
  intros Hok. unfold normalizeDate.
  destruct (getNextWeekday_ok env 1 Hok ltac:(lia)) as (s1 & H1).
  destruct (findIndex _ dayNames 0) as [k|] eqn:E.
  - apply findIndex_range in E. simpl in E.
    destruct (getNextWeekday_ok env k Hok ltac:(lia)) as (s & ->).
    eexists; reflexivity.
  - destruct (Date_parse env date) as [t|].
    + cbn [toISOString]. eexists; reflexivity.
    + rewrite H1. eexists; reflexivity.
Qed.

(** *** Bare start times *)

Lemma bare_times_checked (hm : Z) :
  (0 <= hm < 1440)%Z -> bare_times_ok hm = true.
Proof.
  intros H. apply (forallb_Zrange bare_times_ok 0 1440); [|lia].
  vm_compute. reflexivity.
Qed.

Lemma jsnum_eqb_eq (a b : jsnum) : jsnum_eqb a b = true -> a = b.
Proof.
  destruct a, b; simpl; intros H; try discriminate; [reflexivity|].
  apply Z.eqb_eq in H. congruence.
Qed.

Lemma bare_time_facts (h m : Z) (hs : string) :
  (0 <= h <= 23)%Z -> (0 <= m <= 59)%Z ->
  hs = Z_to_string h \/ hs = pad 2 h ->
  bare_time_ok (hs ++ ":" ++ pad 2 m) h m = true.
Proof.
  intros Hh Hm Hhs.
  pose proof (bare_times_checked (h * 60 + m) ltac:(lia)) as H.
  unfold bare_times_ok in H.
  replace ((h * 60 + m) / 60)%Z with h in H by zlia.
  replace ((h * 60 + m) mod 60)%Z with m in H by zlia.
  rewrite forallb_forall in H. apply H.
  unfold hour_texts. simpl. destruct Hhs; subst; auto.
Qed.

Lemma split_numbers_bare (h m : Z) (hs : string) :
  (0 <= h <= 23)%Z -> (0 <= m <= 59)%Z ->
  hs = Z_to_string h \/ hs = pad 2 h ->
  split_numbers (hs ++ ":" ++ pad 2 m) = (Num h, Num m).
Proof.
  intros Hh Hm Hhs.
  pose proof (bare_time_facts h m hs Hh Hm Hhs) as H.
  unfold bare_time_ok in H.
  repeat (apply andb_true_iff in H; destruct H as [H ?]).
  repeat match goal with
         | Hj : jsnum_eqb _ _ = true |- _ => apply jsnum_eqb_eq in Hj
         end.
  destruct (split_numbers _) as [a b]. cbn [fst snd] in *. congruence.
Qed.

(** [addMinutes] on a host whose clocks never change: the time moves
    around the clock. *)
Lemma addMinutes_clock (env : Env) (c h m : Z) (hs : string) (minutes : Z) :
  host_ok env -> fixed_offset env c ->
  (0 <= h <= 23)%Z -> (0 <= m <= 59)%Z ->
  hs = Z_to_string h \/ hs = pad 2 h ->
  (- 100000 <= minutes <= 100000)%Z ->
  addMinutes env (hs ++ ":" ++ pad 2 m) minutes
  = clock_text ((h * 60 + m + minutes) mod 1440).
Proof.
  intros Hok Hc Hh Hm Hhs Hn. unfold addMinutes.
  rewrite (split_numbers_bare h m hs Hh Hm Hhs).
  cbn [add]. unfold Date_now.
  pose proof Hok as [Hnow _].
  destruct (clock_after_setHours env c (now env) h (m + minutes)
              Hok Hc ltac:(lia) ltac:(lia) ltac:(lia)) as [Hgh Hgm].
  cbv zeta in Hgh, Hgm. rewrite Hgh, Hgm.
  cbn [toString]. unfold clock_text.
  replace (h * 60 + (m + minutes))%Z with (h * 60 + m + minutes)%Z by lia.
  rewrite !padStart2_pad by zlia.
  replace (((h * 60 + m + minutes) mod 1440) mod 60)%Z
    with ((h * 60 + m + minutes) mod 60)%Z by zlia.
  reflexivity.
Qed.

(** [normalizeTime] on a bare start time, on a host whose clocks never
    change: the end is 90 minutes later on the clock. *)
Lemma normalizeTime_bare (env : Env) (c h m : Z) (hs : string) :
  host_ok env -> fixed_offset env c ->
  (0 <= h <= 23)%Z -> (0 <= m <= 59)%Z ->
  hs = Z_to_string h \/ hs = pad 2 h ->
  normalizeTime env (hs ++ ":" ++ pad 2 m)
  = (hs ++ ":" ++ pad 2 m) ++ " - "
      ++ clock_text ((h * 60 + m + 90) mod 1440).
Proof.
  intros Hok Hc Hh Hm Hhs.
  pose proof (bare_time_facts h m hs Hh Hm Hhs) as H.
  pose proof (addMinutes_clock env c h m hs 90 Hok Hc Hh Hm Hhs ltac:(lia))
    as Hadd.
  set (v := hs ++ ":" ++ pad 2 m) in *.
  unfold bare_time_ok in H.
  repeat (apply andb_true_iff in H; destruct H as [H ?]).
  apply String.eqb_eq in H.
  repeat match goal with
         | Hn : negb _ = true |- _ => apply negb_true_iff in Hn
         end.
  unfold normalizeTime. rewrite H.
  match goal with
  | Ha : includes v "AM" = false, Hp : includes v "PM" = false,
    Hs : includes v " - " = false |- _ =>
      rewrite Ha, Hp; cbn [orb]; rewrite Hs
  end.
  cbn [negb]. rewrite Hadd. reflexivity.
Qed.

(** *** A row becomes an event *)

Lemma date_of_row_ok (env : Env) (row : Row) :
  host_ok env ->
  exists s,
    bind match findValueByKeys row fieldMappings.date with
         | Some d => Ok d
         | None => getNextWeekday env 1
         end (normalizeDate env) = Ok s.
Proof.
  intros Hok.
  destruct (findValueByKeys row fieldMappings.date) as [d|].
  - cbn [bind]. apply normalizeDate_ok; assumption.
  - destruct (getNextWeekday_ok env 1 Hok ltac:(lia)) as (s1 & ->).
    cbn [bind]. apply normalizeDate_ok; assumption.
Qed.

(** On a host in range a row with a title becomes an event, whose time
    and duration are the normalised ones. *)
Lemma mapRowToEvent_some (env : Env) (row : Row) (index : nat)
    (title0 : string) :
  host_ok env ->
  findValueByKeys row fieldMappings.title = Some title0 ->
  exists ev,
    mapRowToEvent env row index = Ok (Some ev)
    /\ ParsedTimetableEvent.id ev = make_id env index
    /\ ParsedTimetableEvent.time ev
       = normalizeTime env
           (or_default (findValueByKeys row fieldMappings.time) "09:00 - 10:30")
    /\ ParsedTimetableEvent.duration ev
       = match findValueByKeys row fieldMappings.duration with
         | Some d => d
         | None => calculateDuration (ParsedTimetableEvent.time ev)
         end.
Proof.
  intros Hok Ht. unfold mapRowToEvent. rewrite Ht.
  destruct (date_of_row_ok env row Hok) as (date & Hd).
  unfold bind in Hd |- *.
  destruct (match findValueByKeys row fieldMappings.date with
            | Some d => Ok d
            | None => getNextWeekday env 1
            end) as [date0|e]; [|discriminate Hd].
  rewrite Hd.
  destruct (parseLocation _) as [room building].
  eexists. split; [reflexivity|].
  cbn [ParsedTimetableEvent.id ParsedTimetableEvent.time
         ParsedTimetableEvent.duration].
  repeat split; reflexivity.
Qed.

(** *** Bare start times on the 12-hour clock *)

Lemma ends_ok_append (a b : string) :
  ends_ok b = true -> ends_ok (a ++ b) = true.
Proof.
  intros Hb. induction a as [|c a IH]; [exact Hb|].
  cbn [append]. destruct (a ++ b) as [|c' r] eqn:E; [discriminate IH|].
  exact IH.
Qed.

Lemma minutes_text (m : option Z) :
  match m with Some x => pad 2 x | None => "00" end = pad 2 (minutes_of m).
Proof. destruct m; reflexivity. Qed.


(** A 12-hour time with its marker in upper case is a trimmed text that
    includes the marker. *)
Lemma marked_time_shape (h : Z) (m : option Z) (pm : bool) (hs ws : string) :
  (1 <= h <= 12)%Z -> hs = Z_to_string h \/ hs = pad 2 h ->
  let mk := if pm then "PM" else "AM" in
  let v := hs ++ clock_tail m ws mk in
  trim v = v /\ (includes v "AM" || includes v "PM") = true.
Proof.
  intros Hh Hhs mk v.
  destruct (hour_text h hs Hh Hhs) as [_ Hform].
  assert (Hends : ends_ok v = true).
  { unfold v, clock_tail.
    destruct m; rewrite <- ?append_assoc; apply ends_ok_append;
      unfold mk; destruct pm; reflexivity. }
  assert (Hmk : includes v mk = true).
  { unfold v, clock_tail.
    destruct m as [x|].
    - replace (hs ++ ":" ++ pad 2 x ++ ws ++ mk)
        with ((hs ++ ":" ++ pad 2 x ++ ws) ++ mk ++ EmptyString)
        by (rewrite !append_assoc, append_nil_r; reflexivity).
      apply includes_middle.
    - replace (hs ++ ws ++ mk) with ((hs ++ ws) ++ mk ++ EmptyString)
        by (rewrite !append_assoc, append_nil_r; reflexivity).
      apply includes_middle. }
  split.
  - destruct Hform as [(d1 & E & H1) | (d1 & d2 & E & H1 & _)];
      unfold v in *; rewrite E in *; cbn [append] in *;
      apply trim_fixed; try exact Hends;
      (destruct (is_space d1) eqn:Es; [|reflexivity]);
      apply space_not_digit in Es; congruence.
  - unfold mk in Hmk. destruct pm; rewrite Hmk; [apply orb_true_r|reflexivity].
Qed.


(** A range of two 12-hour times, the first with its marker in upper
    case: both ends are converted, on every host. *)
Lemma normalizeTime_range_12h (env : Env) (h1 h2 : Z) (m1 m2 : option Z)
    (pm1 pm2 : bool) (hs1 hs2 ws1 ws2 mk2 : string) :
  (1 <= h1 <= 12)%Z -> (1 <= h2 <= 12)%Z ->
  hs1 = Z_to_string h1 \/ hs1 = pad 2 h1 ->
  hs2 = Z_to_string h2 \/ hs2 = pad 2 h2 ->
  (forall x, m1 = Some x -> (0 <= x <= 59)%Z) ->
  (forall x, m2 = Some x -> (0 <= x <= 59)%Z) ->
  all_chars is_space ws1 = true -> all_chars is_space ws2 = true ->
  toUpperCase mk2 = (if pm2 then "PM" else "AM") ->
  normalizeTime env
    ((hs1 ++ clock_tail m1 ws1 (if pm1 then "PM" else "AM")) ++ " - "
       ++ (hs2 ++ clock_tail m2 ws2 mk2))
  = (pad 2 (hour24 h1 pm1) ++ ":" ++ pad 2 (minutes_of m1)) ++ " - "
      ++ (pad 2 (hour24 h2 pm2) ++ ":" ++ pad 2 (minutes_of m2)).
Proof.
  intros Hh1 Hh2 Hs1 Hs2 Hm1 Hm2 Hw1 Hw2 Hk2.
  set (mk1 := if pm1 then "PM" else "AM").
  assert (Hk1 : toUpperCase mk1 = (if pm1 then "PM" else "AM"))
    by (unfold mk1; destruct pm1; reflexivity).
  pose proof (convert12to24_range h1 h2 m1 m2 pm1 pm2 hs1 hs2 ws1 ws2 mk1 mk2
                Hh1 Hh2 Hs1 Hs2 Hm1 Hm2 Hw1 Hw2 Hk1 Hk2) as Hconv.
  rewrite !minutes_text in Hconv.
  destruct (marked_time_shape h1 m1 pm1 hs1 ws1 Hh1 Hs1) as [_ Hgate1].
  cbv zeta in Hgate1. fold mk1 in Hgate1.
  set (t1 := hs1 ++ clock_tail m1 ws1 mk1) in *.
  set (t2 := hs2 ++ clock_tail m2 ws2 mk2) in *.
  assert (Htrim : trim (t1 ++ " - " ++ t2) = t1 ++ " - " ++ t2).
  { destruct (marker_chars mk2 pm2 Hk2) as (a & c & E & _ & Hc).
    assert (Hends : ends_ok (t1 ++ " - " ++ t2) = true).
    { unfold t2, clock_tail. rewrite E.
      assert (Hm : ends_ok (String a (String c EmptyString)) = true).
      { cbn [ends_ok]. unfold is_M in Hc.
        destruct (is_space c) eqn:Es; [|reflexivity].
        destruct c as [[] [] [] [] [] [] [] []]; discriminate. }
      destruct m2; rewrite <- ?append_assoc;
        apply ends_ok_append; exact Hm. }
    destruct (hour_text h1 hs1 Hh1 Hs1)
      as [_ [(d1 & Ed & H1) | (d1 & d2 & Ed & H1 & _)]];
      unfold t1 in *; rewrite Ed in *; cbn [append] in *;
      apply trim_fixed; try exact Hends;
      (destruct (is_space d1) eqn:Es; [|reflexivity]);
      apply space_not_digit in Es; congruence. }
  assert (Hgate : (includes (t1 ++ " - " ++ t2) "AM"
                   || includes (t1 ++ " - " ++ t2) "PM") = true).
  { apply orb_true_iff in Hgate1. apply orb_true_iff.
    destruct Hgate1 as [H|H]; [left|right];
      apply includes_append_r; exact H. }
  unfold normalizeTime. rewrite Htrim, Hgate, Hconv.
  match goal with
  | |- context [includes ?s " - "] =>
      replace (includes s " - ") with true; [reflexivity|]
  end.
  symmetry.
  match goal with
  | |- includes (?x ++ " - " ++ ?y) " - " = true => apply includes_middle
  end.
Qed.




End Rows.

(** ** The calendar and the written form of dates *)

Module Calendar.
Import JSString JSNumber JSDate Spec Tools Clock Rows.
#[local] Open Scope Z_scope.

(** *** Day numbers and civil dates *)

Lemma year_of_era (yoe doy : Z) :
  0 <= yoe < 400 -> 0 <= doy ->
  (doy <= 364
   \/ (doy = 365 /\ (yoe mod 4 = 3 /\ yoe mod 100 <> 99 \/ yoe = 399))) ->
  let doe := yoe * 365 + yoe / 4 - yoe / 100 + doy in
  0 <= doe < 146097
  /\ (doe - doe / 1460 + doe / 36524 - doe / 146096) / 365 = yoe.
Proof.
  intros Hy Hd Hl doe. unfold doe. split; zlia.
Qed.

Lemma civil_of_era (era yoe doy : Z) :
  0 <= yoe < 400 -> 0 <= doy ->
  (doy <= 364
   \/ (doy = 365 /\ (yoe mod 4 = 3 /\ yoe mod 100 <> 99 \/ yoe = 399))) ->
  civil_from_days
    (era * 146097 + (yoe * 365 + yoe / 4 - yoe / 100 + doy) - 719468)
  = let mp := (5 * doy + 2) / 153 in
    let m := if mp <? 10 then mp + 3 else mp - 9 in
    (if m <=? 2 then yoe + era * 400 + 1 else yoe + era * 400, m,
     doy - (153 * mp + 2) / 5 + 1).
Proof.
  intros Hy Hd Hl.
  destruct (year_of_era yoe doy Hy Hd Hl) as [Hdoe Hyoe].
  unfold civil_from_days.
  set (doe := yoe * 365 + yoe / 4 - yoe / 100 + doy) in *.
  replace (era * 146097 + doe - 719468 + 719468)
    with (era * 146097 + doe) by lia.
  replace ((era * 146097 + doe) / 146097) with era by zlia.
  replace (era * 146097 + doe - era * 146097) with doe by lia.
  cbv zeta. rewrite Hyoe.
  replace (doe - (365 * yoe + yoe / 4 - yoe / 100)) with doy
    by (unfold doe; lia).
  reflexivity.
Qed.

Lemma is_leap_spec (y : Z) :
  is_leap y = true <-> (y mod 4 = 0 /\ y mod 100 <> 0) \/ y mod 400 = 0.
Proof.
  unfold is_leap.
  rewrite orb_true_iff, andb_true_iff, negb_true_iff, !Z.eqb_eq, Z.eqb_neq.
  tauto.
Qed.

Lemma valid_civil_spec (y m d : Z) :
  valid_civil y m d = true -> 1 <= m <= 12 /\ 1 <= d <= days_in_month y m.
Proof.
  unfold valid_civil. rewrite !andb_true_iff, !Z.leb_le. tauto.
Qed.

(** The day number of a day of the calendar is the number of that day. *)
Lemma civil_round_trip (y m d : Z) :
  valid_civil y m d = true ->
  civil_from_days (days_from_civil y m d) = (y, m, d).
Proof.
  intros H. apply valid_civil_spec in H. destruct H as [Hm Hd].
  unfold days_from_civil. cbv zeta.
  set (y' := if m <=? 2 then y - 1 else y).
  set (era := y' / 400). set (yoe := y' - era * 400).
  assert (Hyoe : 0 <= yoe < 400) by (unfold yoe, era; zlia).
  assert (Hy' : y' = yoe + era * 400) by (unfold yoe; lia).
  assert (Hleap : is_leap y = true -> m <= 2 ->
                  yoe mod 4 = 3 /\ yoe mod 100 <> 99 \/ yoe = 399).
  { intros Hl Hm2. apply is_leap_spec in Hl.
    assert (y = yoe + era * 400 + 1)
      by (unfold y' in Hy'; destruct (m <=? 2) eqn:E;
          [lia | apply Z.leb_gt in E; lia]).
    zlia. }
  unfold days_in_month in Hd.
  assert (Hc : m = 1 \/ m = 2 \/ m = 3 \/ m = 4 \/ m = 5 \/ m = 6 \/ m = 7
               \/ m = 8 \/ m = 9 \/ m = 10 \/ m = 11 \/ m = 12) by lia.
  repeat (destruct Hc as [Hc|Hc]); subst m.
  all: cbn in Hd.
  all: match goal with
       | |- context [(153 * ?mp + 2) / 5] =>
           let c := eval vm_compute in ((153 * mp + 2) / 5) in
           change ((153 * mp + 2) / 5) with c
       end.
  2: destruct (is_leap y) eqn:El;
       [specialize (Hleap eq_refl ltac:(lia)) | clear Hleap].
  all: match goal with
       | |- civil_from_days (_ + (_ + ?doy) - _) = (_, ?m, _) =>
           let mp := eval vm_compute in ((m + 9) mod 12) in
           assert (Hdoy : 0 <= doy) by lia;
           assert (Hlim : doy <= 364
                          \/ (doy = 365
                              /\ (yoe mod 4 = 3 /\ yoe mod 100 <> 99
                                  \/ yoe = 399))) by lia;
           rewrite (civil_of_era era yoe doy Hyoe Hdoy Hlim); cbv zeta;
           replace ((5 * doy + 2) / 153) with mp by zlia
       end.
  all: match goal with
       | |- (_, ?b, _) = _ =>
           let b' := eval vm_compute in b in change b with b'
       end.
  all: match goal with
       | |- context [(153 * ?mp + 2) / 5] =>
           let c := eval vm_compute in ((153 * mp + 2) / 5) in
           change ((153 * mp + 2) / 5) with c
       end.
  all: cbv beta iota delta [Z.leb Z.compare Pos.compare Pos.compare_cont]
         in y' |- *.
  all: f_equal; [f_equal|]; lia.
Qed.

Lemma era_of_day (doe : Z) :
  0 <= doe < 146097 ->
  let yoe := (doe - doe / 1460 + doe / 36524 - doe / 146096) / 365 in
  let doy := doe - (365 * yoe + yoe / 4 - yoe / 100) in
  0 <= yoe < 400 /\ 0 <= doy <= 365.
Proof.
  intros H yoe doy. unfold doy, yoe. zlia.
Qed.

(** The civil date of a day number has that day number. *)
Lemma days_round_trip (n : Z) :
  let '(y, m, d) := civil_from_days n in
  days_from_civil y m d = n /\ 1 <= m <= 12 /\ 1 <= d <= 31.
Proof.
  unfold civil_from_days. cbv zeta.
  set (z := n + 719468).
  set (era := z / 146097). set (doe := z - era * 146097).
  assert (Hdoe : 0 <= doe < 146097) by (unfold doe, era; zlia).
  destruct (era_of_day doe Hdoe) as [Hyoe Hdoy]. cbv zeta in Hyoe, Hdoy.
  set (yoe := (doe - doe / 1460 + doe / 36524 - doe / 146096) / 365) in *.
  set (doy := doe - (365 * yoe + yoe / 4 - yoe / 100)) in *.
  set (mp := (5 * doy + 2) / 153).
  assert (Hmp : 0 <= mp <= 11) by (unfold mp; zlia).
  set (m := if mp <? 10 then mp + 3 else mp - 9).
  assert (Hm : 1 <= m <= 12 /\ (m + 9) mod 12 = mp /\ (m <= 2 <-> 10 <= mp)).
  { unfold m. destruct (Z.ltb_spec mp 10); zlia. }
  destruct Hm as (Hm & Hmm & Hm2).
  split.
  - unfold days_from_civil. cbv zeta. rewrite Hmm.
    replace (if m <=? 2
             then (if m <=? 2 then yoe + era * 400 + 1 else yoe + era * 400) - 1
             else if m <=? 2 then yoe + era * 400 + 1 else yoe + era * 400)
      with (yoe + era * 400) by (destruct (m <=? 2); lia).
    replace ((yoe + era * 400) / 400) with era by zlia.
    replace (yoe + era * 400 - era * 400) with yoe by lia.
    unfold doy, doe, z. lia.
  - split; [assumption|]. unfold mp in *. zlia.
Qed.

(** The years of the days from 0000-03-01 to 9999-12-31. *)
Lemma civil_year_range (n : Z) :
  - 719468 <= n < 2932897 ->
  0 <= fst (fst (civil_from_days n)) <= 9999.
Proof.
  intros Hn. unfold civil_from_days. cbv zeta.
  set (z := n + 719468).
  set (era := z / 146097). set (doe := z - era * 146097).
  assert (Hdoe : 0 <= doe < 146097) by (unfold doe, era; zlia).
  destruct (era_of_day doe Hdoe) as [Hyoe Hdoy]. cbv zeta in Hyoe, Hdoy.
  set (yoe := (doe - doe / 1460 + doe / 36524 - doe / 146096) / 365) in *.
  set (doy := doe - (365 * yoe + yoe / 4 - yoe / 100)) in *.
  set (mp := (5 * doy + 2) / 153).
  cbn [fst].
  assert (He : 0 <= era <= 24) by (unfold era, z; zlia).
  assert (Hl : era = 24 -> yoe = 399 -> mp < 10)
    by (unfold mp, doy, doe, era, z in *; zlia).
  destruct (Z.ltb_spec mp 10) as [Hlt|Hge].
  - assert (Hm : (mp + 3 <=? 2) = false) by (apply Z.leb_gt; unfold mp; zlia).
    rewrite Hm. lia.
  - destruct (mp - 9 <=? 2); lia.
Qed.

(** The day numbers of the days of the years 0001 to 9999. *)
Lemma days_from_civil_range (y m d : Z) :
  1 <= y <= 9999 -> valid_civil y m d = true ->
  - 719162 <= days_from_civil y m d <= 2932896.
Proof.
  intros Hy Hv. apply valid_civil_spec in Hv. destruct Hv as [Hm Hd].
  assert (Hd' : 1 <= d <= 31).
  { unfold days_in_month in Hd.
    repeat match goal with
           | H : context [if ?c then _ else _] |- _ => destruct c
           end; lia. }
  clear Hd. unfold days_from_civil. cbv zeta.
  set (y' := if m <=? 2 then y - 1 else y).
  set (era := y' / 400). set (yoe := y' - era * 400).
  assert (Hy' : (m <= 2 /\ y' = y - 1) \/ (3 <= m /\ y' = y)).
  { unfold y'. destruct (Z.leb_spec m 2); [left | right]; lia. }
  assert (Hyoe : 0 <= yoe < 400) by (unfold yoe, era; zlia).
  assert (He : 0 <= era <= 24) by (unfold era; zlia).
  assert (Hq : 0 <= yoe * 365 + yoe / 4 - yoe / 100 <= 145731) by zlia.
  assert (Hq' : yoe <= 398 -> yoe * 365 + yoe / 4 - yoe / 100 <= 145366)
    by zlia.
  assert (Hq1 : 1 <= yoe -> 365 <= yoe * 365 + yoe / 4 - yoe / 100) by zlia.
  assert (Hl : era = 24 -> m <= 2 -> yoe <= 398) by (unfold yoe in *; lia).
  assert (Hl' : era = 0 -> 3 <= m -> 1 <= yoe) by (unfold yoe in *; lia).
  assert (Hmp : (m <= 2 /\ 306 <= (153 * ((m + 9) mod 12) + 2) / 5 <= 337)
                \/ (3 <= m /\ 0 <= (153 * ((m + 9) mod 12) + 2) / 5 <= 275))
    by zlia.
  lia.
Qed.

(** *** Decimal numerals *)

Lemma to_uint_head (q : positive) :
  exists h t,
    DecimalFacts.to_list (Pos.to_uint q) = h :: t /\ h <> DecimalFacts.d0.
Proof.
  pose proof (DecimalPos.Unsigned.to_of (Pos.to_uint q)) as Hn.
  rewrite DecimalPos.Unsigned.of_to in Hn. simpl in Hn.
  pose proof (DecimalPos.Unsigned.to_uint_nonzero q) as Hz.
  pose proof (DecimalPos.Unsigned.to_uint_nonnil q) as Hnil.
  destruct (Pos.to_uint q) as [|a|a|a|a|a|a|a|a|a|a] eqn:E;
    try (eexists; eexists; split; [reflexivity | discriminate]).
  - congruence.
  - exfalso. rewrite DecimalFacts.unorm_D0 in Hn. symmetry in Hn.
    unfold Decimal.unorm in Hn.
    pose proof (DecimalFacts.nzhead_nonzero a) as Hh.
    destruct (Decimal.nzhead a) eqn:En;
      try (exfalso; eapply Hh; rewrite Hn; reflexivity).
    congruence.
Qed.

Ltac digit_cases r :=
  let Hc := fresh "Hc" in
  assert (Hc : r = 0 \/ r = 1 \/ r = 2 \/ r = 3 \/ r = 4 \/ r = 5 \/ r = 6
               \/ r = 7 \/ r = 8 \/ r = 9) by lia;
  repeat (destruct Hc as [Hc|Hc]); subst r.

(** The numeral of [10 * q + r] is the numeral of [q] followed by the
    digit [r]. *)
Lemma to_uint_step (q : positive) (r : Z) :
  0 <= r <= 9 ->
  Pos.to_uint (Z.to_pos (10 * Z.pos q + r))
  = Decimal.app (Pos.to_uint q) (digit_uint r).
Proof.
  intros Hr.
  set (d := Decimal.app (Pos.to_uint q) (digit_uint r)).
  assert (Hrev : Decimal.rev d
                 = Decimal.revapp (digit_uint r)
                     (Decimal.rev (Pos.to_uint q))).
  { apply DecimalFacts.to_list_inj. unfold d.
    rewrite DecimalFacts.rev_spec, DecimalFacts.app_spec,
      DecimalFacts.revapp_spec, DecimalFacts.rev_spec, List.rev_app_distr.
    digit_cases r; reflexivity. }
  assert (Hof : Pos.of_uint d = N.pos (Z.to_pos (10 * Z.pos q + r))).
  { rewrite DecimalPos.Unsigned.of_uint_alt, Hrev.
    pose proof (DecimalPos.Unsigned.of_to q) as Hq.
    rewrite DecimalPos.Unsigned.of_uint_alt in Hq.
    digit_cases r;
      cbn [digit_uint Decimal.revapp DecimalPos.Unsigned.of_lu];
      rewrite Hq; lia. }
  pose proof (DecimalPos.Unsigned.to_of d) as Hto. rewrite Hof in Hto.
  cbn [N.to_uint] in Hto. rewrite Hto.
  apply DecimalFacts.to_list_inj. rewrite DecimalFacts.unorm_spec. unfold d.
  rewrite DecimalFacts.app_spec.
  destruct (to_uint_head q) as (h & t & -> & Hh).
  cbn [Datatypes.app]. unfold DecimalFacts.lunorm.
  rewrite DecimalFacts.lnzhead_head_nd0 by assumption.
  reflexivity.
Qed.

Lemma string_of_uint_app (a b : Decimal.uint) :
  NilEmpty.string_of_uint (Decimal.app a b)
  = (NilEmpty.string_of_uint a ++ NilEmpty.string_of_uint b)%string.
Proof.
  induction a as [|a IH|a IH|a IH|a IH|a IH|a IH|a IH|a IH|a IH|a IH];
    [rewrite DecimalFacts.app_nil_l; reflexivity|..].
  all: match goal with
       | |- context [Decimal.app (?f ?x) ?y] =>
           replace (Decimal.app (f x) y) with (f (Decimal.app x y))
             by (apply DecimalFacts.to_list_inj; cbn [DecimalFacts.to_list];
                 rewrite !DecimalFacts.app_spec; reflexivity)
       end.
  all: cbn [NilEmpty.string_of_uint append]; rewrite IH; reflexivity.
Qed.

Lemma Z_to_string_digit (r : Z) :
  0 <= r <= 9 -> Z_to_string r = String (digit_char r) EmptyString.
Proof. intros Hr. digit_cases r; reflexivity. Qed.

Lemma Z_to_string_step (q r : Z) :
  1 <= q -> 0 <= r <= 9 ->
  Z_to_string (10 * q + r)
  = (Z_to_string q ++ String (digit_char r) EmptyString)%string.
Proof.
  intros Hq Hr. destruct q as [|q|q]; try lia.
  unfold Z_to_string.
  replace (10 * Z.pos q + r) with (Z.pos (Z.to_pos (10 * Z.pos q + r)))
    by lia.
  cbn [Z.to_int NilEmpty.string_of_int].
  rewrite to_uint_step by assumption. rewrite string_of_uint_app. f_equal.
  digit_cases r; reflexivity.
Qed.

Lemma pad2_digits (a b : Z) :
  0 <= a <= 9 -> 0 <= b <= 9 ->
  pad 2 (10 * a + b)
  = String (digit_char a) (String (digit_char b) EmptyString).
Proof.
  intros Ha Hb. unfold pad.
  destruct (Z.eq_dec a 0) as [->|Hn].
  - rewrite Z.mul_0_r, Z.add_0_l, Z_to_string_digit by assumption.
    reflexivity.
  - rewrite Z_to_string_step, Z_to_string_digit by lia. reflexivity.
Qed.

Lemma pad4_digits (a b c e : Z) :
  0 <= a <= 9 -> 0 <= b <= 9 -> 0 <= c <= 9 -> 0 <= e <= 9 ->
  pad 4 (1000 * a + 100 * b + 10 * c + e)
  = String (digit_char a) (String (digit_char b)
      (String (digit_char c) (String (digit_char e) EmptyString))).
Proof.
  intros Ha Hb Hc He. unfold pad.
  replace (1000 * a + 100 * b + 10 * c + e)
    with (10 * (10 * (10 * a + b) + c) + e) by lia.
  destruct (Z.eq_dec a 0) as [->|Hna].
  - rewrite Z.mul_0_r, Z.add_0_l.
    destruct (Z.eq_dec b 0) as [->|Hnb].
    + rewrite Z.mul_0_r, Z.add_0_l.
      destruct (Z.eq_dec c 0) as [->|Hnc].
      * rewrite Z.mul_0_r, Z.add_0_l, Z_to_string_digit by assumption.
        reflexivity.
      * rewrite Z_to_string_step, Z_to_string_digit by lia. reflexivity.
    + rewrite !Z_to_string_step, Z_to_string_digit by lia. reflexivity.
  - rewrite !Z_to_string_step, Z_to_string_digit by lia. reflexivity.
Qed.

Lemma pad2_chars (x : Z) :
  0 <= x <= 99 ->
  pad 2 x
  = String (digit_char (x / 10)) (String (digit_char (x mod 10)) EmptyString).
Proof.
  intros Hx.
  replace x with (10 * (x / 10) + x mod 10) at 1 by zlia.
  apply pad2_digits; zlia.
Qed.

Lemma pad4_chars (y : Z) :
  0 <= y <= 9999 ->
  pad 4 y
  = String (digit_char (y / 1000)) (String (digit_char (y / 100 mod 10))
      (String (digit_char (y / 10 mod 10))
         (String (digit_char (y mod 10)) EmptyString))).
Proof.
  intros Hy.
  replace y with (1000 * (y / 1000) + 100 * (y / 100 mod 10)
                  + 10 * (y / 10 mod 10) + y mod 10) at 1 by zlia.
  apply pad4_digits; zlia.
Qed.

Lemma digit_char_val (c : ascii) :
  is_digit c = true -> digit_char (digit_val c) = c /\ 0 <= digit_val c <= 9.
Proof.
  destruct c as [[] [] [] [] [] [] [] []]; vm_compute; intros H;
    try discriminate H; (split; [reflexivity | split; discriminate]).
Qed.

Lemma digit_val_char (r : Z) :
  0 <= r <= 9 ->
  digit_val (digit_char r) = r /\ is_digit (digit_char r) = true.
Proof. intros Hr. digit_cases r; split; reflexivity. Qed.

(** *** The ISO date form *)

(** A date in the ISO date form is the written form of its numbers. *)
Lemma parse_iso_date_written (s : string) (y m d : Z) :
  parse_iso_date s = Some (y, m, d) ->
  s = (pad 4 y ++ "-" ++ pad 2 m ++ "-" ++ pad 2 d)%string
  /\ 0 <= y <= 9999 /\ 0 <= m <= 99 /\ 0 <= d <= 99.
Proof.
  intros H. unfold parse_iso_date in H.
  destruct s as [|y1 s]; [discriminate H|].
  destruct s as [|y2 s]; [discriminate H|].
  destruct s as [|y3 s]; [discriminate H|].
  destruct s as [|y4 s]; [discriminate H|].
  destruct s as [|c1 s]; [discriminate H|].
  destruct c1 as [[] [] [] [] [] [] [] []]; try discriminate H.
  destruct s as [|m1 s]; [discriminate H|].
  destruct s as [|m2 s]; [discriminate H|].
  destruct s as [|c2 s]; [discriminate H|].
  destruct c2 as [[] [] [] [] [] [] [] []]; try discriminate H.
  destruct s as [|d1 s]; [discriminate H|].
  destruct s as [|d2 s]; [discriminate H|].
  destruct s; [|discriminate H].
  destruct (forallb is_digit _) eqn:E; [|discriminate H].
  cbn [forallb] in E.
  repeat (apply andb_true_iff in E; destruct E as [? E]).
  repeat match goal with
         | Hc : is_digit _ = true |- _ =>
             apply digit_char_val in Hc; destruct Hc as [? ?]
         end.
  assert (Hy : y = 1000 * digit_val y1 + 100 * digit_val y2
                   + 10 * digit_val y3 + digit_val y4).
  { apply (f_equal (fun o => match o with
                             | Some (a, _, _) => a
                             | None => 0
                             end)) in H.
    cbv beta iota in H. symmetry. exact H. }
  assert (Hm : m = 10 * digit_val m1 + digit_val m2).
  { apply (f_equal (fun o => match o with
                             | Some (_, a, _) => a
                             | None => 0
                             end)) in H.
    cbv beta iota in H. symmetry. exact H. }
  assert (Hd : d = 10 * digit_val d1 + digit_val d2).
  { apply (f_equal (fun o => match o with
                             | Some (_, _, a) => a
                             | None => 0
                             end)) in H.
    cbv beta iota in H. symmetry. exact H. }
  clear H. subst y m d.
  rewrite pad4_digits, !pad2_digits by assumption.
  split; [|lia].
  cbn [append].
  repeat match goal with
         | Hc : digit_char (digit_val ?c) = ?c |- _ => rewrite Hc; clear Hc
         end.
  reflexivity.
Qed.

(** The written form of a date is read as its numbers. *)
Lemma parse_iso_date_of_written (y m d : Z) :
  0 <= y <= 9999 -> 0 <= m <= 99 -> 0 <= d <= 99 ->
  parse_iso_date (pad 4 y ++ "-" ++ pad 2 m ++ "-" ++ pad 2 d)
  = Some (y, m, d).
Proof.
  intros Hy Hm Hd.
  rewrite pad4_chars, !pad2_chars by assumption.
  cbn [append parse_iso_date forallb].
  destruct (digit_val_char (y / 1000)) as [-> ->]; [zlia|].
  destruct (digit_val_char (y / 100 mod 10)) as [-> ->]; [zlia|].
  destruct (digit_val_char (y / 10 mod 10)) as [-> ->]; [zlia|].
  destruct (digit_val_char (y mod 10)) as [-> ->]; [zlia|].
  destruct (digit_val_char (m / 10)) as [-> ->]; [zlia|].
  destruct (digit_val_char (m mod 10)) as [-> ->]; [zlia|].
  destruct (digit_val_char (d / 10)) as [-> ->]; [zlia|].
  destruct (digit_val_char (d mod 10)) as [-> ->]; [zlia|].
  cbn [andb]. f_equal. f_equal; [f_equal|]; zlia.
Qed.

(** *** Printed dates *)

(** The date of an instant of a day of the calendar is the date as it
    was written. *)
Lemma iso_date_calendar_date (date : string) (y m d r : Z) :
  parse_iso_date date = Some (y, m, d) -> valid_civil y m d = true ->
  0 <= r < msPerDay ->
  iso_date (days_from_civil y m d * msPerDay + r) = date.
Proof.
  intros Hp Hv Hr. unfold iso_date.
  replace ((days_from_civil y m d * msPerDay + r) / msPerDay)
    with (days_from_civil y m d) by (unfold msPerDay in *; zlia).
  rewrite (civil_round_trip y m d Hv).
  destruct (parse_iso_date_written date y m d Hp) as (-> & Hy & _).
  unfold iso_year.
  destruct (Z.leb_spec 0 y); [|lia].
  destruct (Z.leb_spec y 9999); [|lia].
  reflexivity.
Qed.

(** The printed date of an instant of the years 0000 to 9999 is read as
    the civil date of its day. *)
Lemma parse_iso_date_printed (t : Z) :
  - 719468 <= t / msPerDay < 2932897 ->
  parse_iso_date (iso_date t) = Some (civil_from_days (t / msPerDay)).
Proof.
  intros Ht. unfold iso_date.
  pose proof (civil_year_range _ Ht) as Hy.
  pose proof (days_round_trip (t / msPerDay)) as Hr.
  destruct (civil_from_days (t / msPerDay)) as [[y m] d].
  cbn [fst] in Hy. destruct Hr as (_ & Hm & Hd).
  unfold iso_year.
  destruct (Z.leb_spec 0 y); [|lia].
  destruct (Z.leb_spec y 9999); [|lia].
  cbn [andb]. apply parse_iso_date_of_written; lia.
Qed.

Lemma weekday_of_printed (t : Z) :
  - 719468 <= t / msPerDay < 2932897 ->
  weekday_of_date (iso_date t) = Some (week_day (t / msPerDay)).
Proof.
  intros Ht. unfold weekday_of_date. rewrite parse_iso_date_printed by exact Ht.
  pose proof (days_round_trip (t / msPerDay)) as Hr.
  destruct (civil_from_days (t / msPerDay)) as [[y m] d].
  destruct Hr as (-> & _). reflexivity.
Qed.

(** Two days of the years 0000 to 9999 with the same printed date are
    the same day. *)
Lemma iso_date_inj (s t : Z) :
  - 719468 <= s / msPerDay < 2932897 ->
  - 719468 <= t / msPerDay < 2932897 ->
  iso_date s = iso_date t -> s / msPerDay = t / msPerDay.
Proof.
  intros Hs Ht H.
  pose proof (parse_iso_date_printed s Hs) as Ps.
  pose proof (parse_iso_date_printed t Ht) as Pt.
  rewrite H, Pt in Ps.
  pose proof (days_round_trip (s / msPerDay)) as Rs.
  pose proof (days_round_trip (t / msPerDay)) as Rt.
  destruct (civil_from_days (s / msPerDay)) as [[y m] d].
  destruct (civil_from_days (t / msPerDay)) as [[y' m'] d'].
  destruct Rs as (<- & _), Rt as (<- & _).
  congruence.
Qed.

End Calendar.

(** ** Weekday names (C5) *)

Module Weekday.
Import JSString JSNumber JSDate JSValue LocalFileParser Spec Tools Clock Rows.
Import Calendar.

(** A value that names a weekday is resolved by [getNextWeekday]. *)
Lemma normalizeDate_weekday (env : Env) (date : string) (d : Z) :
  host_ok env ->
  findIndex (fun day => includes (toLowerCase date) day) dayNames 0 = Some d ->
  normalizeDate env date = getNextWeekday env d.
Proof.
  intros Hok Hd. unfold normalizeDate. rewrite Hd.
  apply findIndex_range in Hd. simpl in Hd.
  destruct (getNextWeekday_ok env d Hok ltac:(lia)) as (s & ->).
  reflexivity.
Qed.

(** On a host on UTC the date returned for a weekday name is the date of
    a day [1..7] days after today that falls on that weekday. *)
Lemma getNextWeekday_on_utc (env : Env) (d : Z) :
  host_ok env -> fixed_offset env 0 -> (0 <= d <= 6)%Z ->
  exists k : Z,
    (1 <= k <= 7)%Z
    /\ getNextWeekday env d = Ok (iso_date ((now env / msPerDay + k) * msPerDay))
    /\ week_day (now env / msPerDay + k) = d.
Proof.
  intros Hok Htz Hd.
  destruct (getNextWeekday_target_fixed env 0 d Hok Htz Hd)
    as (k & Hk & Hg & Hw).
  exists k. split; [assumption|].
  rewrite (LocalTime_fixed env 0 _ Htz) in Hw.
  replace ((now env + k * msPerDay + 0 * msPerMinute) / msPerDay)%Z
    with (now env / msPerDay + k)%Z in Hw
    by (unfold msPerDay, msPerMinute; zlia).
  split; [|assumption].
  rewrite Hg. f_equal. unfold iso_date.
  replace (((now env / msPerDay + k) * msPerDay) / msPerDay)%Z
    with ((now env + k * msPerDay) / msPerDay)%Z
    by (unfold msPerDay; zlia).
  reflexivity.
Qed.

(** On a host in range whose clocks never change, in the years 1970 to
    9890: the date returned for a weekday is the UTC date of the instant
    [k] days from now, for the [k] from 1 to 7 that brings the local day
    to that weekday; that date falls on the weekday exactly when the
    local day of the host is its UTC day. *)
Lemma getNextWeekday_weekday (env : Env) (c d : Z) :
  host_ok env -> fixed_offset env c ->
  (0 <= now env < 250000000000000)%Z -> (0 <= d <= 6)%Z ->
  exists k : Z,
    (1 <= k <= 7)%Z
    /\ getNextWeekday env d = Ok (iso_date (now env + k * msPerDay))
    /\ (weekday_of_date (iso_date (now env + k * msPerDay)) = Some d
        <-> (LocalTime env (now env) / msPerDay = now env / msPerDay)%Z).
Proof.
  intros Hok Hc Hnow Hd.
  destruct (getNextWeekday_target_fixed env c d Hok Hc Hd)
    as (k & Hk & Hg & Hw).
  exists k. split; [assumption|]. split; [assumption|].
  rewrite weekday_of_printed by (unfold msPerDay; zlia).
  pose proof (fixed_offset_range env c Hok Hc) as Htz.
  rewrite !(LocalTime_fixed env c _ Hc) in *. clear Hc Hok Hg.
  unfold week_day in *.
  unfold msPerDay, msPerMinute in *.
  split.
  - intros H. apply (f_equal (fun o => match o with
                                       | Some x => x
                                       | None => 0%Z
                                       end)) in H.
    cbv beta iota in H. zlia.
  - intros H. f_equal. zlia.
Qed.

(** A row with a title whose date names a weekday: the event is dated as
    [getNextWeekday] says. *)
Lemma mapRowToEvent_weekday (env : Env) (row : Row) (index : nat)
    (title0 date0 : string) (c d : Z) :
  host_ok env -> fixed_offset env c ->
  (0 <= now env < 250000000000000)%Z ->
  findValueByKeys row fieldMappings.title = Some title0 ->
  findValueByKeys row fieldMappings.date = Some date0 ->
  findIndex (fun day => includes (toLowerCase date0) day) dayNames 0 = Some d ->
  exists ev (k : Z),
    mapRowToEvent env row index = Ok (Some ev)
    /\ (1 <= k <= 7)%Z
    /\ ParsedTimetableEvent.date ev = iso_date (now env + k * msPerDay)
    /\ (weekday_of_date (ParsedTimetableEvent.date ev) = Some d
        <-> (LocalTime env (now env) / msPerDay = now env / msPerDay)%Z).
Proof.
  intros Hok Hc Hnow Ht Hd0 Hd.
  pose proof (findIndex_range _ _ _ _ Hd) as Hr. simpl in Hr.
  destruct (getNextWeekday_weekday env c d Hok Hc Hnow ltac:(lia))
    as (k & Hk & Hg & Hw).
  unfold mapRowToEvent. rewrite Ht, Hd0. cbn [bind].
  rewrite (normalizeDate_weekday env date0 d Hok Hd), Hg.
  destruct (parseLocation _) as [room building].
  eexists. exists k. split; [reflexivity|].
  cbn [ParsedTimetableEvent.date]. split; [assumption|].
  split; [reflexivity | exact Hw].
Qed.

(** C5 on a host east of UTC, shortly after local midnight.  The host's
    local day is Monday 2024-03-11; the row names Monday; the date of the
    event is 2024-03-17, a Sunday. *)
Theorem weekday_row_east_of_utc :
  getDay east_host (Date_now east_host) = Num 1
  /\ iso_date (LocalTime east_host (now east_host)) = "2024-03-11"
  /\ findIndex (fun day => includes (toLowerCase "Monday") day) dayNames 0
     = Some 1%Z
  /\ exists ev,
       mapRowToEvent east_host row_monday 0 = Ok (Some ev)
       /\ ParsedTimetableEvent.date ev = "2024-03-17"
       /\ weekday_of_date (ParsedTimetableEvent.date ev) = Some 0%Z.
Proof.
  split; [reflexivity|]. split; [vm_compute; reflexivity|].
  split; [reflexivity|].
  eexists. split; [vm_compute; reflexivity|].
  split; vm_compute; reflexivity.
Qed.

End Weekday.

(** ** The event mapper (C3) *)

Module Mapper.
Import JSString JSNumber JSDate JSValue LocalFileParser GoogleCalendarService.
Import Spec Tools Clock Rows.

Lemma digit_val_range (c : ascii) :
  is_digit c = true -> (0 <= digit_val c <= 9)%Z.
Proof.
  unfold is_digit, in_range, digit_val. intros H.
  apply andb_true_iff in H. destruct H as [H1 H2].
  apply Nat.leb_le in H1, H2. lia.
Qed.

Ltac only_dash c H :=
  destruct c as [[] [] [] [] [] [] [] []]; try discriminate H.

Lemma parse_iso_date_year (s : string) (y m d : Z) :
  parse_iso_date s = Some (y, m, d) -> (0 <= y <= 9999)%Z.
Proof.
  intros H. unfold parse_iso_date in H.
  destruct s as [|y1 s]; [discriminate H|].
  destruct s as [|y2 s]; [discriminate H|].
  destruct s as [|y3 s]; [discriminate H|].
  destruct s as [|y4 s]; [discriminate H|].
  destruct s as [|c1 s]; [discriminate H|].
  only_dash c1 H.
  destruct s as [|m1 s]; [discriminate H|].
  destruct s as [|m2 s]; [discriminate H|].
  destruct s as [|c2 s]; [discriminate H|].
  only_dash c2 H.
  destruct s as [|d1 s]; [discriminate H|].
  destruct s as [|d2 s]; [discriminate H|].
  destruct s; [|discriminate H].
  destruct (forallb is_digit _) eqn:E; [|discriminate H].
  apply (f_equal (fun o => match o with
                           | Some (a, _, _) => a
                           | None => 0%Z
                           end)) in H.
  cbv beta iota in H. subst y.
  cbn [forallb] in E.
  repeat (apply andb_true_iff in E; destruct E as [? E]).
  repeat match goal with
         | Hc : is_digit _ = true |- _ => apply digit_val_range in Hc
         end.
  lia.
Qed.

Lemma days_from_civil_bound (y m d : Z) :
  (0 <= y <= 9999)%Z -> valid_civil y m d = true ->
  (- 1000000 <= days_from_civil y m d <= 3000000)%Z.
Proof.
  intros Hy Hv. unfold valid_civil in Hv.
  repeat (apply andb_true_iff in Hv; destruct Hv as [Hv ?]).
  assert (Hd : (d <= 31)%Z).
  { unfold days_in_month in *.
    repeat match goal with
           | H : context [if ?c then _ else _] |- _ => destruct c
           end; lia. }
  unfold days_from_civil.
  destruct (m <=? 2)%Z; zlia.
Qed.

(** The start of a calendar day is a valid date on every host. *)
Lemma Date_parse_calendar_date (env : Env) (date : string) :
  calendar_date date ->
  exists t, Date_parse env date = Some t
            /\ (- 8100000000000000 <= t <= 8100000000000000)%Z.
Proof.
  intros (y & m & d & Hp & Hv). unfold Date_parse. rewrite Hp, Hv.
  eexists. split; [reflexivity|].
  pose proof (parse_iso_date_year _ _ _ _ Hp) as Hy.
  pose proof (days_from_civil_bound y m d Hy Hv).
  unfold msPerDay. lia.
Qed.

Lemma parseTime_part (env : Env) (part : string) (base : Date) :
  parseTime env (Some part) base
  = Ok (setHours env base (fst (split_numbers part))
          (snd (split_numbers part))).
Proof. unfold parseTime. destruct (split_numbers part); reflexivity. Qed.

(** *** Texts that are not numbers *)

Lemma all_chars_trimStart (p : ascii -> bool) (s : string) :
  (forall c, is_space c = true -> p c = true) ->
  all_chars p (trimStart s) = all_chars p s.
Proof.
  intros Hp. induction s as [|c s IH]; [reflexivity|].
  cbn [trimStart]. destruct (is_space c) eqn:E; [|reflexivity].
  cbn [all_chars]. rewrite (Hp c E). exact IH.
Qed.

Lemma all_chars_trimEnd (p : ascii -> bool) (s : string) :
  (forall c, is_space c = true -> p c = true) ->
  all_chars p (trimEnd s) = all_chars p s.
Proof.
  intros Hp. induction s as [|c s IH]; [reflexivity|].
  cbn [trimEnd all_chars]. rewrite <- IH.
  destruct (is_space c) eqn:E; cbn [andb]; [|reflexivity].
  destruct (trimEnd s); cbn [is_empty all_chars]; [|reflexivity].
  rewrite (Hp c E). reflexivity.
Qed.

Lemma digits_val_some (s : string) (acc z : Z) :
  digits_val acc s = Some z -> all_chars is_digit s = true.
Proof.
  revert acc. induction s as [|c s IH]; intros acc H; [reflexivity|].
  cbn [digits_val all_chars] in *. destruct (is_digit c); [|discriminate H].
  exact (IH _ H).
Qed.

Lemma skip_digits_all (s : string) :
  all_chars is_digit s = true -> skip_digits s = EmptyString.
Proof.
  induction s as [|c s IH]; [reflexivity|].
  cbn [all_chars skip_digits]. intros H.
  apply andb_true_iff in H. destruct H as [-> H]. exact (IH H).
Qed.

(** A run of digits is a numeric literal. *)
Lemma digits_literal (c : ascii) (r : string) :
  all_chars is_digit (String c r) = true ->
  unsigned_decimal (String c r) = true.
Proof.
  intros H. unfold unsigned_decimal.
  destruct (String.eqb (String c r) "Infinity"); [reflexivity|].
  rewrite (skip_digits_all _ H).
  cbn [all_chars] in H. apply andb_true_iff in H. destruct H as [Hc _].
  cbn [starts_with_digit]. rewrite Hc. reflexivity.
Qed.

Lemma digits_val_literal (s : string) (acc z : Z) :
  digits_val acc s = Some z -> s <> EmptyString ->
  unsigned_decimal s = true.
Proof.
  intros H Hne. apply digits_val_some in H.
  destruct s as [|c r]; [contradiction|]. apply digits_literal. exact H.
Qed.

Example numeric_literal_examples :
  forallb numeric_literal
    [EmptyString; "  12 "; "-7"; "+.5e-3"; "5."; "1E+2"; "0x1F"; "0b101";
     "Infinity"; "-Infinity"] = true
  /\ forallb (fun s => negb (numeric_literal s))
       ["ten"; "-"; "1e"; "0x"; "+0x1"; "1_0"; "."; "1 2"; "30 pm";
        "infinity"; "e5"; "1.2.3"] = true.
Proof. split; reflexivity. Qed.

(** [Number] of a text that is not a numeric literal. *)
Lemma Number_not_literal (s : string) :
  numeric_literal s = false -> Number s = NaN.
Proof.
  unfold numeric_literal, Number. cbv zeta.
  destruct (trim s) as [|c r]; [discriminate|].
  cbn [is_empty orb]. intros H. apply orb_false_iff in H.
  destruct H as [_ H]. cbn [unsigned_part] in H.
  destruct (Ascii.eqb c "+") eqn:Ep;
    [|destruct (Ascii.eqb c "-") eqn:Em]; cbn [orb andb] in *.
  - destruct r as [|c' r']; cbn [is_empty negb].
    + apply Ascii.eqb_eq in Ep. subst c. reflexivity.
    + destruct (digits_val 0 (String c' r')) as [z|] eqn:E; [|reflexivity].
      rewrite (digits_val_literal _ _ _ E) in H by discriminate.
      discriminate H.
  - destruct r as [|c' r']; cbn [is_empty negb].
    + apply Ascii.eqb_eq in Em. subst c. reflexivity.
    + destruct (digits_val 0 (String c' r')) as [z|] eqn:E; [|reflexivity].
      rewrite (digits_val_literal _ _ _ E) in H by discriminate.
      discriminate H.
  - destruct (digits_val 0 (String c r)) as [z|] eqn:E; [|reflexivity].
    rewrite (digits_val_literal _ _ _ E) in H by discriminate.
    discriminate H.
Qed.

Lemma unreadable_NaN (part : string) :
  unreadable part ->
  fst (split_numbers part) = NaN \/ snd (split_numbers part) = NaN.
Proof.
  unfold unreadable, split_numbers.
  destruct (split ":" part) as [|h [|m rest]]; cbn [map fst snd].
  - intros _. right. reflexivity.
  - intros _. right. reflexivity.
  - intros [H|H]; [left|right]; apply Number_not_literal; exact H.
Qed.

Lemma setHours_unreadable (env : Env) (part : string) (base : Date) :
  unreadable part ->
  setHours env base (fst (split_numbers part)) (snd (split_numbers part))
  = None.
Proof.
  intros Hu. destruct (unreadable_NaN part Hu) as [H|H];
    rewrite H; unfold setHours; destruct base; try reflexivity.
  destruct (fst (split_numbers part)); reflexivity.
Qed.

Lemma clock_part_integer (part : string) : clock_part part -> integer_part part.
Proof.
  intros (h & m & Hh & Hm & E). exists h, m.
  split; [lia|]. split; [lia | exact E].
Qed.

Lemma setHours_integer_part (env : Env) (part : string) (t : Z) :
  host_ok env -> integer_part part ->
  (- 8100000000000000 <= t <= 8100000000000000)%Z ->
  exists t',
    setHours env (Some t) (fst (split_numbers part)) (snd (split_numbers part))
    = Some t'.
Proof.
  intros Hok (h & m & Hh & Hm & ->) Ht. cbn [fst snd].
  destruct (setHours_valid env t h m Hok Ht Hh Hm) as (t' & Ht' & _).
  exists t'. exact Ht'.
Qed.

(** The mapper in terms of the parts of the time range. *)
Lemma convertToCalendarEvent_parts (env : Env) (ev : ParsedTimetableEvent.t)
    (a b : string) (rest : list string) :
  split " - " (ParsedTimetableEvent.time ev) = a :: b :: rest ->
  let base := Date_parse env (ParsedTimetableEvent.date ev) in
  let startTime := setHours env base (fst (split_numbers a))
                     (snd (split_numbers a)) in
  let endTime := setHours env base (fst (split_numbers b))
                   (snd (split_numbers b)) in
  is_ok (convertToCalendarEvent env ev)
  = is_ok (toISOString startTime) && is_ok (toISOString endTime).
Proof.
  intros Hs base startTime endTime.
  unfold convertToCalendarEvent, parseTimeRange. rewrite Hs.
  cbn [nth_error]. rewrite !parseTime_part. cbn [bind fst snd].
  fold base. fold startTime. fold endTime.
  destruct (toISOString startTime); cbn [bind is_ok andb]; [|reflexivity].
  destruct (toISOString endTime); reflexivity.
Qed.

Lemma toISOString_throws (d : Date) (e : JSError) :
  toISOString d = Throw e -> e = RangeError "Invalid time value".
Proof.
  destruct d; cbn [toISOString]; intros H; [discriminate H|].
  injection H as <-. reflexivity.
Qed.

(** C3, as amended.  The mapper throws a [TypeError] when the time has
    fewer than two parts between [" - "], and a [RangeError] when one of
    its first two parts has no colon or has an hour or a minute that is
    not a numeric literal.  It succeeds on a host in range when the date
    is a calendar date and the hour and the minute of the first two parts
    read as integers, whatever their range: the parts are not checked to
    be times of the clock, and the parts after the second are not
    read. *)
Theorem convertToCalendarEvent_outcome :
  forall (env : Env) (ev : ParsedTimetableEvent.t),
    let parts := split " - " (ParsedTimetableEvent.time ev) in
    ((List.length parts < 2)%nat ->
     exists message,
       convertToCalendarEvent env ev = Throw (TypeError message))
    /\ (forall a b rest,
           parts = a :: b :: rest -> unreadable a \/ unreadable b ->
           exists message,
             convertToCalendarEvent env ev = Throw (RangeError message))
    /\ (forall a b rest,
           parts = a :: b :: rest ->
           host_ok env -> calendar_date (ParsedTimetableEvent.date ev) ->
           integer_part a -> integer_part b ->
           is_ok (convertToCalendarEvent env ev) = true).
Proof.
  intros env ev parts. subst parts. repeat split.
  - intros Hlen. unfold convertToCalendarEvent, parseTimeRange.
    destruct (split " - " (ParsedTimetableEvent.time ev)) as [|a [|b rest]];
      cbn [nth_error]; [| |simpl in Hlen; lia].
    + eexists. reflexivity.
    + rewrite parseTime_part. eexists. reflexivity.
  - intros a b rest Hs Hbad.
    unfold convertToCalendarEvent, parseTimeRange. rewrite Hs.
    cbn [nth_error]. rewrite !parseTime_part. cbn [bind fst snd].
    set (base := Date_parse env (ParsedTimetableEvent.date ev)).
    destruct (toISOString (setHours env base (fst (split_numbers a))
                             (snd (split_numbers a)))) as [s1|e1] eqn:E1.
    + destruct Hbad as [Ha|Hb].
      * rewrite setHours_unreadable in E1 by assumption. discriminate E1.
      * rewrite (setHours_unreadable env b) by assumption.
        cbn [bind toISOString]. eexists. reflexivity.
    + apply toISOString_throws in E1. subst e1.
      cbn [bind]. eexists. reflexivity.
  - intros a b rest Hs Hok Hdate Ha Hb.
    rewrite (convertToCalendarEvent_parts env ev a b rest Hs).
    destruct (Date_parse_calendar_date env _ Hdate) as (t & -> & Ht).
    destruct (setHours_integer_part env a t Hok Ha Ht) as (ta & ->).
    destruct (setHours_integer_part env b t Hok Hb Ht) as (tb & ->).
    reflexivity.
Qed.

Lemma convertToCalendarEvent_outcome_witness :
  (exists message,
      convertToCalendarEvent utc_host (event_at "2024-03-15" "09:00")
      = Throw (TypeError message))
  /\ (exists message,
        convertToCalendarEvent utc_host (event_at "2024-03-15" "ten:00 - 11:00")
        = Throw (RangeError message))
  /\ is_ok (convertToCalendarEvent spring_host
              (event_at "2024-03-15" "09:00 - 25:70 - 11:00")) = true.
Proof.
  split; [|split].
  - apply (convertToCalendarEvent_outcome utc_host
             (event_at "2024-03-15" "09:00")).
    simpl. lia.
  - apply (proj1 (proj2 (convertToCalendarEvent_outcome utc_host
                           (event_at "2024-03-15" "ten:00 - 11:00")))
             "ten:00" "11:00" []); [reflexivity|].
    left. left. reflexivity.
  - apply (proj2 (proj2 (convertToCalendarEvent_outcome spring_host
                           (event_at "2024-03-15" "09:00 - 25:70 - 11:00")))
             "09:00" "25:70" ["11:00"]);
      [reflexivity|exact spring_host_ok| | |].
    + exists 2024%Z, 3%Z, 15%Z. split; reflexivity.
    + exists 9%Z, 0%Z. repeat split; try lia.
    + exists 25%Z, 70%Z. repeat split; try lia.
Defined.

(** C3 as stated fails on a time with three parts: the mapper does not
    throw, and the payload runs from the first part to the second. *)
Lemma three_parts_counterexample :
  split " - " "09:00 - 10:30 - 11:00" = ["09:00"; "10:30"; "11:00"]
  /\ exists p,
       convertToCalendarEvent utc_host
         (event_at "2024-03-15" "09:00 - 10:30 - 11:00") = Ok p
       /\ CalendarEvent.startTime p = "2024-03-15T09:00:00.000Z"
       /\ CalendarEvent.endTime p = "2024-03-15T10:30:00.000Z".
Proof.
  split; [reflexivity|].
  eexists. split; [vm_compute; reflexivity|]. split; reflexivity.
Qed.

End Mapper.

(** ** From an event to a payload and back (C8) *)

Module RoundTrip.
Import JSString JSNumber JSDate JSValue LocalFileParser GoogleCalendarService.
Import Spec Tools Clock Rows Calendar Mapper.

(** *** The parts of a time range *)

Lemma split_aux_plain (cur b : string) :
  all_chars (differs_from " ") b = true ->
  split_aux " - " 0 cur b = [rev_string EmptyString (rev_string cur b)].
Proof.
  revert cur. induction b as [|c b IH]; intros cur Hb; [reflexivity|].
  cbn [all_chars] in Hb. apply andb_true_iff in Hb. destruct Hb as [Hc Hb].
  unfold differs_from in Hc. apply negb_true_iff in Hc.
  cbn [split_aux rev_string].
  assert (Hp : prefix " - " (String c b) = false).
  { cbn [prefix]. destruct (ascii_dec " " c) as [<-|_]; [|reflexivity].
    discriminate Hc. }
  rewrite Hp. apply IH. exact Hb.
Qed.

Lemma split_aux_dash (cur a b : string) :
  all_chars (differs_from " ") a = true ->
  all_chars (differs_from " ") b = true ->
  split_aux " - " 0 cur (a ++ String " " (String "-" (String " " b)))
  = [rev_string EmptyString (rev_string cur a); b].
Proof.
  revert cur. induction a as [|c a IH]; intros cur Ha Hb.
  - cbn [append split_aux rev_string].
    assert (Hp : prefix " - " (String " " (String "-" (String " " b))) = true)
      by (destruct b; reflexivity).
    rewrite Hp. cbn [String.length Nat.sub split_aux].
    f_equal. rewrite (split_aux_plain EmptyString b Hb).
    rewrite rev_string_twice. cbn [rev_string]. rewrite append_nil_r.
    reflexivity.
  - cbn [all_chars] in Ha. apply andb_true_iff in Ha. destruct Ha as [Hc Ha].
    unfold differs_from in Hc. apply negb_true_iff in Hc.
    cbn [append split_aux rev_string].
    match goal with
    | |- context [prefix " - " ?s] =>
        assert (Hp : prefix " - " s = false)
    end.
    { cbn [prefix]. destruct (ascii_dec " " c) as [<-|_]; [|reflexivity].
      discriminate Hc. }
    rewrite Hp. apply IH; assumption.
Qed.

(** A range written from two texts without a space has these two
    parts. *)
Lemma split_range (a b : string) :
  all_chars (differs_from " ") a = true ->
  all_chars (differs_from " ") b = true ->
  split " - " (a ++ " - " ++ b) = [a; b].
Proof.
  intros Ha Hb. unfold split.
  change (a ++ " - " ++ b)
    with (a ++ String " " (String "-" (String " " b))).
  rewrite split_aux_dash by assumption.
  rewrite rev_string_twice. cbn [rev_string]. rewrite append_nil_r.
  reflexivity.
Qed.

Lemma numeral_not_space (c : ascii) :
  numeral_char c = true -> differs_from " " c = true.
Proof.
  destruct c as [[] [] [] [] [] [] [] []]; vm_compute; intros;
    try discriminate; reflexivity.
Qed.

Lemma clock_text_no_space (x : Z) :
  all_chars (differs_from " ") (clock_text x) = true.
Proof.
  unfold clock_text.
  change (pad 2 (x / 60) ++ ":" ++ pad 2 (x mod 60))
    with (pad 2 (x / 60) ++ String ":" (pad 2 (x mod 60))).
  rewrite all_chars_app. cbn [all_chars].
  rewrite !(all_chars_weaken numeral_char (differs_from " ") _
              numeral_not_space (pad_numeral 2 _)).
  reflexivity.
Qed.

(** A clock text is read as its hour and its minute. *)
Lemma split_numbers_clock_text (x : Z) :
  (0 <= x < 1440)%Z ->
  split_numbers (clock_text x) = (Num (x / 60), Num (x mod 60)).
Proof.
  intros Hx.
  pose proof (bare_time_facts (x / 60) (x mod 60) (pad 2 (x / 60))
                ltac:(zlia) ltac:(zlia) (or_intror eq_refl)) as H.
  unfold bare_time_ok in H.
  repeat (apply andb_true_iff in H; destruct H as [H ?]).
  repeat match goal with
         | Hj : jsnum_eqb _ _ = true |- _ => apply jsnum_eqb_eq in Hj
         end.
  unfold clock_text.
  destruct (split_numbers _) as [h m]. cbn [fst snd] in *. congruence.
Qed.

(** *** Reading a timestamp *)

Lemma timestamp_date_printed (t : Z) :
  timestamp_date (iso_date t ++ "T" ++ iso_time t ++ "Z") = iso_date t.
Proof. apply iso_date_part. Qed.

Lemma timestamp_clock_printed (t : Z) :
  (- 719468 <= t / msPerDay < 2932897)%Z ->
  timestamp_clock (iso_date t ++ "T" ++ iso_time t ++ "Z")
  = clock_text ((t mod msPerDay) / msPerMinute).
Proof.
  intros Ht. unfold timestamp_clock, iso_date, iso_time, clock_text.
  pose proof (civil_year_range _ Ht) as Hy.
  pose proof (days_round_trip (t / msPerDay)) as Hr.
  destruct (civil_from_days (t / msPerDay)) as [[y m] d].
  cbn [fst] in Hy. destruct Hr as (_ & Hm & Hd).
  unfold iso_year.
  destruct (Z.leb_spec 0 y); [|lia].
  destruct (Z.leb_spec y 9999); [|lia].
  cbn [andb].
  replace (t mod msPerDay / msPerHour)%Z
    with (t mod msPerDay / msPerMinute / 60)%Z
    by (unfold msPerDay, msPerHour, msPerMinute; zlia).
  replace ((t mod msPerDay) mod msPerHour / msPerMinute)%Z
    with ((t mod msPerDay / msPerMinute) mod 60)%Z
    by (unfold msPerDay, msPerHour, msPerMinute; zlia).
  set (q := (t mod msPerDay / msPerMinute)%Z).
  assert (Hq : (0 <= q < 1440)%Z)
    by (unfold q, msPerDay, msPerMinute; zlia).
  rewrite (pad4_chars y), (pad2_chars m), (pad2_chars d),
    (pad2_chars (q / 60)), (pad2_chars (q mod 60)) by zlia.
  reflexivity.
Qed.

(** A timestamp of a whole minute is read as its instant. *)
Lemma parse_timestamp_printed (t : Z) :
  (- 719468 <= t / msPerDay < 2932897)%Z ->
  (t mod msPerMinute = 0)%Z ->
  parse_timestamp (iso_date t ++ "T" ++ iso_time t ++ "Z") = Some t.
Proof.
  intros Ht Hmin. unfold parse_timestamp.
  rewrite timestamp_date_printed, timestamp_clock_printed by exact Ht.
  rewrite parse_iso_date_printed by exact Ht.
  rewrite split_numbers_clock_text
    by (unfold msPerDay, msPerMinute; zlia).
  pose proof (days_round_trip (t / msPerDay)) as Hr.
  destruct (civil_from_days (t / msPerDay)) as [[y m] d].
  destruct Hr as (-> & _). f_equal.
  unfold msPerDay, msPerHour, msPerMinute in *. zlia.
Qed.

(** *** The payload of a well-formed event *)

(** [setHours] at a clock time, from the midnight UTC of a day of the
    years 0001 to 9999. *)
Lemma setHours_clock (env : Env) (n x : Z) :
  host_ok env -> (- 719162 <= n <= 2932896)%Z -> (0 <= x < 1440)%Z ->
  setHours env (Some (n * msPerDay)%Z) (Num (x / 60)) (Num (x mod 60))
  = Some (UTC env (LocalTime env (n * msPerDay) / msPerDay * msPerDay
                   + x * msPerMinute)%Z).
Proof.
  intros Hok Hn Hx.
  destruct (setHours_valid env (n * msPerDay) (x / 60) (x mod 60) Hok)
    as (t' & -> & ->); try (unfold msPerDay; zlia).
  do 2 f_equal. unfold msPerHour, msPerMinute. zlia.
Qed.

Lemma convertToCalendarEvent_instants (env : Env) (ev : ParsedTimetableEvent.t)
    (y m d x1 x2 : Z) :
  host_ok env ->
  parse_iso_date (ParsedTimetableEvent.date ev) = Some (y, m, d) ->
  valid_civil y m d = true -> (1 <= y)%Z ->
  (0 <= x1 < 1440)%Z -> (0 <= x2 < 1440)%Z ->
  ParsedTimetableEvent.time ev = clock_text x1 ++ " - " ++ clock_text x2 ->
  let day := (LocalTime env (days_from_civil y m d * msPerDay) / msPerDay)%Z in
  let s1 := UTC env (day * msPerDay + x1 * msPerMinute)%Z in
  let s2 := UTC env (day * msPerDay + x2 * msPerMinute)%Z in
  exists p,
    convertToCalendarEvent env ev = Ok p
    /\ CalendarEvent.startTime p = iso_date s1 ++ "T" ++ iso_time s1 ++ "Z"
    /\ CalendarEvent.endTime p = iso_date s2 ++ "T" ++ iso_time s2 ++ "Z".
Proof.
  intros Hok Hp Hv Hy Hx1 Hx2 Htime day s1 s2.
  pose proof (parse_iso_date_written _ _ _ _ Hp) as (_ & Hy' & _).
  pose proof (days_from_civil_range y m d ltac:(lia) Hv) as Hn.
  unfold convertToCalendarEvent, parseTimeRange.
  rewrite Htime, split_range by apply clock_text_no_space.
  cbn [nth_error]. rewrite !parseTime_part.
  rewrite !split_numbers_clock_text by assumption.
  cbn [bind fst snd]. unfold Date_parse. rewrite Hp, Hv.
  rewrite !setHours_clock by assumption.
  fold day. fold s1. fold s2. cbn [toISOString bind].
  eexists. split; [reflexivity|]. split; reflexivity.
Qed.

Lemma iso_date_same_day (s t : Z) :
  (s / msPerDay = t / msPerDay)%Z -> iso_date s = iso_date t.
Proof. intros H. unfold iso_date. rewrite H. reflexivity. Qed.

(** A well-formed event of the years 0001 to 9999, on a host in range
    whose clocks never change.  Read on the clock of the host, the payload gives the time range of
    the event, and the date of the local day on which the date of the
    event begins in UTC: that is the date of the event on the hosts at
    or east of UTC, and another date on the hosts west of UTC.  Read as
    it is written, the payload gives the date and the time range of the
    event on a host on UTC. *)
Lemma round_trip_on_host (env : Env) (ev : ParsedTimetableEvent.t)
    (c y m d x1 x2 : Z) :
  host_ok env -> fixed_offset env c ->
  parse_iso_date (ParsedTimetableEvent.date ev) = Some (y, m, d) ->
  valid_civil y m d = true -> (1 <= y)%Z ->
  (0 <= x1 < 1440)%Z -> (0 <= x2 < 1440)%Z ->
  ParsedTimetableEvent.time ev = clock_text x1 ++ " - " ++ clock_text x2 ->
  let local_date :=
    iso_date (LocalTime env (days_from_civil y m d * msPerDay)) in
  exists p,
    convertToCalendarEvent env ev = Ok p
    /\ reconstruct_local env p = Some (local_date, ParsedTimetableEvent.time ev)
    /\ ((0 <= c)%Z -> local_date = ParsedTimetableEvent.date ev)
    /\ ((c < 0)%Z -> local_date <> ParsedTimetableEvent.date ev)
    /\ (c = 0%Z ->
        reconstruct p
        = (ParsedTimetableEvent.date ev, ParsedTimetableEvent.time ev)).
Proof.
  intros Hok Hc Hp Hv Hy Hx1 Hx2 Htime local_date.
  destruct (convertToCalendarEvent_instants env ev y m d x1 x2
              Hok Hp Hv Hy Hx1 Hx2 Htime) as (p & Hconv & Hs & He).
  cbv zeta in Hs, He.
  pose proof (parse_iso_date_written _ _ _ _ Hp) as (_ & Hy' & _).
  pose proof (days_from_civil_range y m d ltac:(lia) Hv) as Hn.
  pose proof (fixed_offset_range env c Hok Hc) as Htz.
  assert (HL : forall t, LocalTime env t = (t + c * msPerMinute)%Z)
    by (intros t; apply LocalTime_fixed; exact Hc).
  assert (HU : forall t, UTC env t = (t - c * msPerMinute)%Z)
    by (intros t; apply UTC_fixed; exact Hc).
  clear Hok Hc.
  set (n := days_from_civil y m d) in *.
  set (day := (LocalTime env (n * msPerDay) / msPerDay)%Z) in *.
  set (s1 := UTC env (day * msPerDay + x1 * msPerMinute)%Z) in *.
  set (s2 := UTC env (day * msPerDay + x2 * msPerMinute)%Z) in *.
  assert (Hday : (c < 0 /\ day = n - 1 \/ 0 <= c /\ day = n)%Z)
    by (clear - Htz HL; unfold day; rewrite HL;
        unfold msPerDay, msPerMinute; zlia).
  assert (Hinst : forall x, (0 <= x < 1440)%Z ->
            let s := UTC env (day * msPerDay + x * msPerMinute)%Z in
            (- 719468 <= s / msPerDay < 2932897)%Z
            /\ (s mod msPerMinute = 0)%Z
            /\ (LocalTime env s / msPerDay = day)%Z
            /\ ((LocalTime env s mod msPerDay) / msPerMinute = x)%Z
            /\ (c = 0 ->
                s / msPerDay = n /\ (s mod msPerDay) / msPerMinute = x)%Z).
  { intros x Hx s. clear - Hday Hn Htz Hx HL HU.
    unfold s. rewrite !HL, !HU. clear HL HU.
    unfold msPerDay, msPerMinute.
    repeat split; zlia. }
  destruct (Hinst x1 Hx1) as (Hr1 & Hm1 & Hl1 & Hc1 & Hu1).
  destruct (Hinst x2 Hx2) as (Hr2 & Hm2 & Hl2 & Hc2 & Hu2).
  cbv zeta in Hr1, Hm1, Hl1, Hc1, Hu1, Hr2, Hm2, Hl2, Hc2, Hu2.
  fold s1 in Hr1, Hm1, Hl1, Hc1, Hu1. fold s2 in Hr2, Hm2, Hl2, Hc2, Hu2.
  exists p. split; [exact Hconv|]. split; [|split; [|split]].
  - unfold reconstruct_local. rewrite Hs, He.
    rewrite !parse_timestamp_printed by assumption.
    unfold local_clock. rewrite Hc1, Hc2, Htime.
    f_equal. f_equal. apply iso_date_same_day.
    rewrite Hl1. reflexivity.
  - intros Hpos. unfold local_date. rewrite HL.
    apply (iso_date_calendar_date _ y m d); try assumption.
    unfold msPerDay, msPerMinute. lia.
  - intros Hneg Heq.
    assert (Hd0 : iso_date (n * msPerDay + 0) = ParsedTimetableEvent.date ev)
      by (apply (iso_date_calendar_date _ y m d); try assumption;
          unfold msPerDay; lia).
    rewrite <- Hd0 in Heq. unfold local_date in Heq.
    apply iso_date_inj in Heq.
    + rewrite HL in Heq. clear - Heq Hneg Htz.
      unfold msPerDay, msPerMinute in Heq. zlia.
    + rewrite HL. clear - Hneg Htz Hn. unfold msPerDay, msPerMinute. zlia.
    + clear - Hn. unfold msPerDay. zlia.
  - intros Hz. destruct (Hu1 Hz) as [Hn1 Hq1]. destruct (Hu2 Hz) as [Hn2 Hq2].
    unfold reconstruct. rewrite Hs, He.
    rewrite !timestamp_date_printed, !timestamp_clock_printed by assumption.
    rewrite Hq1, Hq2, Htime. f_equal.
    rewrite (iso_date_same_day s1 (n * msPerDay + 0))
      by (rewrite Hn1; clear; unfold msPerDay; zlia).
    apply (iso_date_calendar_date _ y m d); try assumption.
    unfold msPerDay; lia.
Qed.

(** On a host on UTC the event of 2024-03-15, 09:00 - 10:30 is read back
    from its payload as it was. *)
Example round_trip_on_utc :
  exists p,
    convertToCalendarEvent utc_host (event_at "2024-03-15" "09:00 - 10:30")
    = Ok p
    /\ reconstruct p = ("2024-03-15", "09:00 - 10:30")
    /\ reconstruct_local utc_host p = Some ("2024-03-15", "09:00 - 10:30").
Proof.
  eexists. split; [vm_compute; reflexivity|].
  split; vm_compute; reflexivity.
Qed.

(** C8 on a host west of UTC.  The event of 2024-03-15, 09:00 - 10:30
    gets timestamps on 2024-03-14: read as they are written the payload
    says 2024-03-14, 14:00 - 15:30, and read on the clock of the host it
    says 2024-03-14, 09:00 - 10:30. *)
Theorem round_trip_west_of_utc :
  exists p,
    convertToCalendarEvent west_host (event_at "2024-03-15" "09:00 - 10:30")
    = Ok p
    /\ CalendarEvent.startTime p = "2024-03-14T14:00:00.000Z"
    /\ CalendarEvent.endTime p = "2024-03-14T15:30:00.000Z"
    /\ reconstruct p = ("2024-03-14", "14:00 - 15:30")
    /\ reconstruct_local west_host p = Some ("2024-03-14", "09:00 - 10:30").
Proof.
  eexists. split; [vm_compute; reflexivity|].
  repeat split; vm_compute; reflexivity.
Qed.

End RoundTrip.

(** ** Enhancement (C1) *)

Module Enhance.
Import JSString JSNumber JSDate JSValue LLMTimetableParser Spec.

Lemma parseEnhancementResponse_try_success (content : string)
    (originalEvents : list ParsedTimetableEvent.t) (r : ParseResult.t) :
  parseEnhancementResponse_try content originalEvents = Ok r ->
  ParseResult.success r = true.
Proof.
  unfold parseEnhancementResponse_try, bind.
  repeat match goal with
         | |- context [match ?x with Ok _ => _ | Throw _ => _ end] =>
             destruct x; try discriminate
         end.
  intros H. injection H as <-. reflexivity.
Qed.

(** The answer of [parseEnhancementResponse] either is a success or has
    the caller's events and confidence 70. *)
Lemma parseEnhancementResponse_cases (content : string)
    (originalEvents : list ParsedTimetableEvent.t) :
  let r := parseEnhancementResponse content originalEvents in
  ParseResult.success r = true
  \/ (ParseResult.success r = false
      /\ ParseResult.events r = Original originalEvents
      /\ ParseResult.confidence r = JNumber 70 0).
Proof.
  unfold parseEnhancementResponse.
  destruct (parseEnhancementResponse_try content originalEvents) as [r|e] eqn:E.
  - left. eapply parseEnhancementResponse_try_success; eassumption.
  - right. repeat split.
Qed.

Lemma parseEnhancementResponse_malformed (content : string)
    (originalEvents : list ParsedTimetableEvent.t) (error : JSError) :
  JSON.parse (cleanContent content) = Throw error ->
  ParseResult.success (parseEnhancementResponse content originalEvents) = false.
Proof.
  intros H. unfold parseEnhancementResponse, parseEnhancementResponse_try.
  rewrite H. reflexivity.
Qed.

(** C1.  An enhancement that fails, by a network error, by an answer of
    the provider that is not 2xx, by an answer without a text or by a
    text that is not JSON, is reported with [success: false]; and every
    result with [success: false] carries the caller's events as they were
    given and confidence 70.  [enhanceEvents] always returns a result. *)
Theorem enhanceEvents_failure_keeps_events :
  forall (p : Provider) (outcome : FetchOutcome)
         (events : list ParsedTimetableEvent.t),
    let r := enhanceEvents p outcome events in
    (enhancement_failure p outcome -> ParseResult.success r = false)
    /\ (ParseResult.success r = false ->
        ParseResult.events r = Original events
        /\ ParseResult.confidence r = JNumber 70 0).
Proof.
  intros p outcome events r. subst r.
  unfold enhanceEvents, enhanceWith, enhanceWith_try. split.
  - intros Hf. destruct Hf as [e | st tx body | st tx e | st tx data e Hc
                              | st tx data c Hc Hfalsy | st tx data s e Hc Hp];
      cbn [negb bind]; try reflexivity.
    + rewrite Hc. reflexivity.
    + rewrite Hc. cbn [bind]. rewrite Hfalsy. reflexivity.
    + rewrite Hc. cbn [bind truthy is_empty].
      destruct s as [|c s'].
      * reflexivity.
      * cbn [is_empty negb]. eapply parseEnhancementResponse_malformed.
        eassumption.
  - destruct outcome as [e | ok st tx body]; [intros _; split; reflexivity|].
    destruct ok; cbn [negb]; [|intros _; split; reflexivity].
    destruct body as [data|e]; cbn [bind]; [|intros _; split; reflexivity].
    destruct (reply_content p data) as [content|e]; cbn [bind];
      [|intros _; split; reflexivity].
    destruct (truthy content) eqn:Ht; cbn [negb];
      [|intros _; split; reflexivity].
    destruct content as [[| b | m e | s | l | o]|];
      try (intros _; split; reflexivity).
    intros Hs.
    destruct (parseEnhancementResponse_cases s events) as [Hok|(_ & He & Hc)].
    + cbv zeta in Hok. rewrite Hok in Hs. discriminate Hs.
    + split; assumption.
Qed.

Lemma enhanceEvents_failure_keeps_events_witness :
  let r := enhanceEvents openai (openai_answer "Sorry, I cannot help.")
             two_events in
  ParseResult.success r = false
  /\ ParseResult.events r = Original two_events
  /\ ParseResult.confidence r = JNumber 70 0.
Proof.
  intros r.
  destruct (enhanceEvents_failure_keeps_events openai
              (openai_answer "Sorry, I cannot help.") two_events) as [Hf Hk].
  assert (Hs : ParseResult.success r = false).
  { apply Hf.
    eapply (malformed_reply openai 200 "OK" _ "Sorry, I cannot help.").
    - reflexivity.
    - vm_compute. reflexivity. }
  split; [exact Hs|]. exact (Hk Hs).
Defined.

Example enhanceEvents_network_error :
  let r := enhanceEvents gemini (Rejected (TypeError "Failed to fetch"))
             two_events in
  ParseResult.events r = Original two_events
  /\ ParseResult.confidence r = JNumber 70 0.
Proof. split; reflexivity. Qed.

End Enhance.

(** ** Replies without events (C10) *)

Module Reply.
Import JSString JSNumber JSDate JSValue LLMTimetableParser Spec.

Lemma prop_member (v : json) (k : string) :
  v <> JNull -> prop (Some v) k = Ok (member v k).
Proof. destruct v; intros H; try reflexivity. contradiction. Qed.

Lemma json_null_dec (v : json) : {v = JNull} + {v <> JNull}.
Proof. destruct v; (left; reflexivity) || (right; discriminate). Qed.

Lemma confidence_default (c : value) (d : json) :
  match or_else c (Some d) with
  | Some x => x
  | None => d
  end = or_json c d.
Proof.
  unfold or_else, or_json. destruct c as [x|]; [|reflexivity].
  destruct (truthy (Some x)); reflexivity.
Qed.

Lemma parseJSONResponse_try_success (env : Env) (clock : nat -> Z)
    (content : string) (r : ParseResult.t) :
  parseJSONResponse_try env clock content = Ok r ->
  ParseResult.success r = true.
Proof.
  unfold parseJSONResponse_try, bind.
  repeat match goal with
         | |- context [match ?x with Ok _ => _ | Throw _ => _ end] =>
             destruct x; try discriminate
         | |- context [match ?x with Some _ => _ | None => _ end] =>
             destruct x; try discriminate
         | |- context [match ?x with JArray _ => _ | _ => _ end] =>
             destruct x; try discriminate
         end;
    intros H; injection H as <-; reflexivity.
Qed.

(** C10, as amended.  A reply that is JSON, is not [null] and has no
    [events] member, or a falsy one, is a success with no event and the
    confidence of the reply, 75 if it gives none.  A result with
    [success: false] has no event and confidence 0, and comes from a
    syntax error, from the reply [null], from an [events] member that is
    truthy and not an array, or from an element of [events] that the
    validation rejects. *)
Theorem parseJSONResponse_without_events :
  forall (env : Env) (clock : nat -> Z) (content : string),
    let r := parseJSONResponse env clock content in
    (forall v,
        JSON.parse (cleanContent content) = Ok v -> v <> JNull ->
        truthy (member v "events") = false ->
        ParseResult.success r = true
        /\ ParseResult.events r = Validated []
        /\ ParseResult.confidence r
           = or_json (member v "confidence") (JNumber 75 0))
    /\ (ParseResult.success r = false ->
        fails_closed env clock content
        /\ ParseResult.events r = Validated []
        /\ ParseResult.confidence r = JNumber 0 0).
Proof.
  intros env clock content r. subst r. split.
  - intros v Hp Hv He.
    assert (Hr : parseJSONResponse env clock content
                 = ParseResult.mk true (Validated [])
                     (or_json (member v "confidence") (JNumber 75 0))
                     None (Some (JString content)) None).
    { unfold parseJSONResponse, parseJSONResponse_try.
      rewrite Hp. cbn [bind]. rewrite !prop_member by assumption.
      cbn [bind]. unfold or_else at 1. rewrite He.
      cbn [validateEvents bind]. rewrite confidence_default. reflexivity. }
    rewrite Hr. repeat split.
  - intros Hs. unfold parseJSONResponse in *.
    destruct (parseJSONResponse_try env clock content) as [r|e] eqn:E.
    + apply parseJSONResponse_try_success in E. congruence.
    + split; [|split; reflexivity].
      unfold parseJSONResponse_try in E.
      destruct (JSON.parse (cleanContent content)) as [v|e0] eqn:Hp;
        [|eapply syntax_error; exact Hp].
      destruct (json_null_dec v) as [->|Hv]; [apply null_reply; exact Hp|].
      cbn [bind] in E. rewrite !prop_member in E by assumption.
      cbn [bind] in E. unfold or_else at 1 in E.
      destruct (truthy (member v "events")) eqn:Ht.
      * destruct (member v "events") as [x|] eqn:Hm; [|discriminate Ht].
        destruct x as [| b | m ex | s | l | o];
          try (eapply (events_not_array env clock content v);
               [exact Hp | exact Hm | exact Ht | reflexivity]).
        destruct (validateEvents env clock 0 l) as [vs|e1] eqn:Hl;
          [discriminate E|].
        eapply event_rejected; [exact Hp | exact Hm | exact Hl].
      * discriminate E.
Qed.

Lemma parseJSONResponse_without_events_witness :
  let r := parseJSONResponse utc_host (fun _ => 1710000000000%Z)
             "{ }" in
  ParseResult.success r = true
  /\ ParseResult.events r = Validated []
  /\ ParseResult.confidence r = JNumber 75 0.
Proof.
  intros r.
  destruct (parseJSONResponse_without_events utc_host
              (fun _ => 1710000000000%Z) "{ }") as [H _].
  apply (H (JObject [])).
  - vm_compute. reflexivity.
  - discriminate.
  - reflexivity.
Defined.

(** C10 as stated fails on the reply [null]: it is JSON, it has no
    [events] member, and the result is the fail-closed one. *)
Lemma null_reply_counterexample :
  let r := parseJSONResponse utc_host (fun _ => 1710000000000%Z) "null" in
  JSON.parse (cleanContent "null") = Ok JNull
  /\ member JNull "events" = None
  /\ ParseResult.success r = false
  /\ ParseResult.events r = Validated []
  /\ ParseResult.confidence r = JNumber 0 0.
Proof. repeat split; vm_compute; reflexivity. Qed.

End Reply.

(** ** Validation of the events of a reply (C4) *)

Module Validation.
Import JSString JSNumber JSDate JSValue LLMTimetableParser Spec.
Import Tools Clock Rows Reply.

(** *** Types *)




Lemma validateEventType_unreadable (type : value) :
  type_readable type = false -> is_ok (validateEventType type) = false.
Proof.
  destruct type as [[| b | m e | s | l | o]|]; cbn [type_readable];
    try discriminate; intros _; reflexivity.
Qed.

(** *** Durations *)





(** *** One event *)

(** [getNextWeekday] of this class: the target is the local time of now
    [k] days later, [0 <= k <= 6]. *)
Lemma getNextWeekday_target0 (env : Env) (d : Z) :
  host_ok env -> (0 <= d <= 6)%Z ->
  exists k : Z,
    (0 <= k <= 6)%Z
    /\ getNextWeekday env d
       = Ok (iso_date (UTC env (LocalTime env (now env) + k * msPerDay)))
    /\ week_day ((LocalTime env (now env) + k * msPerDay) / msPerDay) = d
    /\ (week_day (LocalTime env (now env) / msPerDay) = d <-> k = 0%Z).
Proof.
  intros Hok Hd.
  unfold getNextWeekday, Date_now, getDay.
  set (wd := week_day (LocalTime env (now env) / msPerDay)).
  pose proof (week_day_range (LocalTime env (now env) / msPerDay)) as Hwd.
  fold wd in Hwd.
  cbn [add sub rem].
  set (k := Z.rem (d + 7 - wd) 7).
  assert (Hk : (k = (d + 7 - wd) mod 7)%Z)
    by (unfold k; apply Z.rem_mod_nonneg; lia).
  assert (Hr : (0 <= k <= 6)%Z) by (rewrite Hk; clear; zlia).
  assert (Hwk : ((wd + k) mod 7 = d)%Z) by (clear - Hk Hd Hwd; zlia).
  assert (H0 : (wd = d <-> k = 0)%Z) by (clear - Hk Hd Hwd; zlia).
  clearbody k. exists k. split; [exact Hr|].
  unfold addDays, TimeClip.
  pose proof (LocalTime_range env (now env) Hok) as Hl.
  pose proof (UTC_range env (LocalTime env (now env) + k * msPerDay) Hok) as Hu.
  destruct Hok as [Hnow _].
  assert (Hin : (Z.abs (UTC env (LocalTime env (now env) + k * msPerDay))
                 <=? 8640000000000000)%Z = true)
    by (apply Z.leb_le; unfold msPerDay in *; lia).
  rewrite Hin. cbn [toISOString bind]. rewrite iso_date_part.
  split; [reflexivity|]. split; [|exact H0].
  clear - Hwk. unfold wd, week_day, msPerDay in *. zlia.
Qed.

Lemma getNextWeekday_sunday_ok (env : Env) :
  host_ok env -> exists s, getNextWeekday env 0 = Ok s.
Proof.
  intros Hok.
  destruct (getNextWeekday_target0 env 0 Hok ltac:(lia)) as (k & _ & -> & _).
  eexists; reflexivity.
Qed.


(** What [validateEvent] builds out of an event that is not [null]. *)
Lemma validateEvent_built (env : Env) (event : json) (index : nat) :
  host_ok env -> event <> JNull ->
  exists s : string,
    getNextWeekday env 0 = Ok s
    /\ validateEvent env event index
       = bind (validateEventType (member event "type"))
           (fun type =>
              Ok (ValidatedEvent.mk
                    (or_string (member event "id") (make_id env index))
                    (or_string (member event "title") "Untitled Event")
                    (or_string (member event "time") "09:00 - 10:00")
                    (or_json (member event "date") (JString s))
                    (or_string (member event "location") "TBD")
                    type
                    (or_string (member event "duration")
                       (calculateDuration env (member event "time")))
                    (or_undefined (member event "instructor"))
                    (or_undefined (member event "courseCode"))
                    (or_undefined (member event "room"))
                    (or_undefined (member event "building")))).
Proof.
  intros Hok Hv. unfold validateEvent.
  rewrite !prop_member by assumption. cbn [bind].
  destruct (getNextWeekday_sunday_ok env Hok) as (s & Hs).
  exists s. split; [exact Hs|].
  unfold or_undefined at 1, or_else at 1, or_json.
  destruct (member event "date") as [d|].
  - destruct (truthy (Some d)); [|rewrite Hs]; cbn [bind];
      destruct (validateEventType (member event "type")); reflexivity.
  - cbn [truthy]. rewrite Hs. cbn [bind].
    destruct (validateEventType (member event "type")); reflexivity.
Qed.

Lemma validateEvent_fields (env : Env) (event : json) (index : nat) :
  host_ok env -> event <> JNull ->
  exists date : json,
    validateEvent env event index
    = bind (validateEventType (member event "type"))
        (fun type =>
           Ok (ValidatedEvent.mk
                 (or_string (member event "id") (make_id env index))
                 (or_string (member event "title") "Untitled Event")
                 (or_string (member event "time") "09:00 - 10:00")
                 date
                 (or_string (member event "location") "TBD")
                 type
                 (or_string (member event "duration")
                    (calculateDuration env (member event "time")))
                 (or_undefined (member event "instructor"))
                 (or_undefined (member event "courseCode"))
                 (or_undefined (member event "room"))
                 (or_undefined (member event "building")))).
Proof.
  intros Hok Hv.
  destruct (validateEvent_built env event index Hok Hv) as (s & _ & H).
  eexists. exact H.
Qed.

Lemma or_string_falsy (v : value) (d : string) :
  truthy v = false -> or_string v d = JString d.
Proof. intros H. unfold or_string, or_else. rewrite H. reflexivity. Qed.

Lemma or_string_truthy (x : json) (d : string) :
  truthy (Some x) = true -> or_string (Some x) d = x.
Proof. intros H. unfold or_string, or_else. rewrite H. reflexivity. Qed.




End Validation.

(** ** Ids of a parse (C9) *)

Module Ids.
Import JSString JSNumber JSDate JSValue Spec Tools Clock Rows Reply Validation.

Lemma has_char_app (c0 : ascii) (a b : string) :
  has_char c0 (a ++ b) = has_char c0 a || has_char c0 b.
Proof.
  induction a as [|c a IH]; simpl; [reflexivity|].
  rewrite IH. apply orb_assoc.
Qed.

Lemma after_last_app (c0 : ascii) (a b : string) :
  has_char c0 b = false -> after_last c0 (a ++ String c0 b) = b.
Proof.
  intros Hb. induction a as [|c a IH]; cbn [append after_last].
  - rewrite Hb, Ascii.eqb_refl. reflexivity.
  - rewrite has_char_app. cbn [has_char]. rewrite Ascii.eqb_refl.
    rewrite orb_true_r. exact IH.
Qed.

Lemma digits_no_dash (s : string) :
  all_chars is_digit s = true -> has_char "-" s = false.
Proof.
  induction s as [|c s IH]; simpl; [reflexivity|].
  intros H. apply andb_true_iff in H. destruct H as [Hc Hs].
  rewrite (IH Hs), orb_false_r.
  destruct c as [[] [] [] [] [] [] [] []]; try discriminate Hc; reflexivity.
Qed.

(** The index can be read off an id made of a prefix, a time stamp, a
    dash and the index. *)
Lemma index_of_id (prefix : string) (t : Z) (index : nat) :
  after_last "-" (prefix ++ Z_to_string t ++ "-" ++ Z_to_string (Z.of_nat index))
  = Z_to_string (Z.of_nat index).
Proof.
  rewrite <- append_assoc.
  change ("-" ++ Z_to_string (Z.of_nat index))
    with (String "-" (Z_to_string (Z.of_nat index))).
  apply after_last_app. apply digits_no_dash.
  apply Z_to_string_digits. lia.
Qed.

Lemma id_index_inj (prefix : string) (t t' : Z) (i j : nat) :
  prefix ++ Z_to_string t ++ "-" ++ Z_to_string (Z.of_nat i)
  = prefix ++ Z_to_string t' ++ "-" ++ Z_to_string (Z.of_nat j) ->
  i = j.
Proof.
  intros H. apply (f_equal (after_last "-")) in H.
  rewrite !index_of_id in H.
  apply Z_to_string_inj in H. lia.
Qed.

(** *** The structured parser *)

Lemma mapRowToEvent_id (env : Env) (row : LocalFileParser.Row) (index : nat)
    (ev : ParsedTimetableEvent.t) :
  LocalFileParser.mapRowToEvent env row index = Ok (Some ev) ->
  ParsedTimetableEvent.id ev = LocalFileParser.make_id env index.
Proof.
  unfold LocalFileParser.mapRowToEvent, bind.
  destruct (LocalFileParser.findValueByKeys row _); [|discriminate].
  destruct (match LocalFileParser.findValueByKeys row _ with
            | Some d => Ok d
            | None => LocalFileParser.getNextWeekday env 1
            end); [|discriminate].
  destruct (LocalFileParser.normalizeDate env _); [|discriminate].
  destruct (LocalFileParser.parseLocation _).
  intros H.
  apply (f_equal (fun r : result (option ParsedTimetableEvent.t) =>
                    match r with
                    | Ok (Some e) => ParsedTimetableEvent.id e
                    | _ => EmptyString
                    end)) in H.
  cbv beta iota in H. cbn [ParsedTimetableEvent.id] in H.
  symmetry. exact H.
Qed.

(** Every event of [convertRows] carries the index of its row, which
    is not below the first index. *)
Lemma convertRows_ids (env : Env) (clock : nat -> Z) (rows : list LocalFileParser.Row)
    (index : nat) (ev : ParsedTimetableEvent.t) :
  In ev (LocalFileParser.convertRows env clock index rows) ->
  exists j, (index <= j)%nat
            /\ ParsedTimetableEvent.id ev
               = LocalFileParser.make_id (at_time env (clock j)) j.
Proof.
  revert index. induction rows as [|row rows IH]; intros index Hin;
    cbn [LocalFileParser.convertRows] in Hin; [contradiction|].
  destruct (LocalFileParser.mapRowToEvent (at_time env (clock index)) row index)
    as [[e|]|err] eqn:E.
  - destruct Hin as [<-|Hin].
    + exists index. split; [lia|]. eapply mapRowToEvent_id; eassumption.
    + destruct (IH _ Hin) as (j & Hj & Hid). exists j. split; [lia|assumption].
  - destruct (IH _ Hin) as (j & Hj & Hid). exists j. split; [lia|assumption].
  - destruct (IH _ Hin) as (j & Hj & Hid). exists j. split; [lia|assumption].
Qed.

Lemma convertRows_NoDup (env : Env) (clock : nat -> Z)
    (rows : list LocalFileParser.Row) (index : nat) :
  NoDup (map ParsedTimetableEvent.id
           (LocalFileParser.convertRows env clock index rows)).
Proof.
  revert index. induction rows as [|row rows IH]; intros index;
    cbn [LocalFileParser.convertRows]; [constructor|].
  destruct (LocalFileParser.mapRowToEvent (at_time env (clock index)) row index)
    as [[e|]|err] eqn:E; try apply IH.
  cbn [map]. constructor; [|apply IH].
  intros Hin. apply in_map_iff in Hin. destruct Hin as (e' & Hid & Hin).
  apply convertRows_ids in Hin. destruct Hin as (j & Hj & Hid').
  apply mapRowToEvent_id in E. rewrite E, Hid' in Hid.
  unfold LocalFileParser.make_id in Hid.
  apply id_index_inj in Hid. lia.
Qed.

(** *** The validation of a reply *)

Lemma JString_inj (a b : string) : JString a = JString b -> a = b.
Proof. intros H. injection H as H. exact H. Qed.

(** An event that passes the validation has the fields that
    [validateEvent] builds. *)
Lemma validateEvent_shape (env : Env) (event : json) (index : nat)
    (v : LLMTimetableParser.ValidatedEvent.t) :
  LLMTimetableParser.validateEvent env event index = Ok v ->
  LLMTimetableParser.ValidatedEvent.id v
  = LLMTimetableParser.or_string (member event "id")
      (LLMTimetableParser.make_id env index).
Proof.
  intros H.
  destruct (json_null_dec event) as [->|Hv]; [discriminate H|].
  unfold LLMTimetableParser.validateEvent in H.
  rewrite !prop_member in H by assumption. cbn [bind] in H.
  match type of H with
  | bind ?d _ = _ => destruct d as [date|]; [|discriminate H]
  end.
  cbn [bind] in H.
  destruct (LLMTimetableParser.validateEventType (member event "type"))
    as [type|]; [|discriminate H].
  cbn [bind] in H. injection H as <-. reflexivity.
Qed.

Lemma validateEvent_id (env : Env) (event : json) (index : nat)
    (v : LLMTimetableParser.ValidatedEvent.t) :
  LLMTimetableParser.validateEvent env event index = Ok v ->
  truthy (member event "id") = false ->
  LLMTimetableParser.ValidatedEvent.id v
  = JString (LLMTimetableParser.make_id env index).
Proof.
  intros H Hid. rewrite (validateEvent_shape _ _ _ _ H).
  apply or_string_falsy. assumption.
Qed.

Lemma validateEvents_ids (env : Env) (clock : nat -> Z) (l : list json)
    (index : nat) (vs : list LLMTimetableParser.ValidatedEvent.t) :
  LLMTimetableParser.validateEvents env clock index l = Ok vs ->
  (forall e, In e l -> truthy (member e "id") = false) ->
  forall v, In v vs ->
  exists j, (index <= j)%nat
            /\ LLMTimetableParser.ValidatedEvent.id v
               = JString (LLMTimetableParser.make_id (at_time env (clock j)) j).
Proof.
  revert index vs. induction l as [|e l IH]; intros index vs H Hno v Hin;
    cbn [LLMTimetableParser.validateEvents] in H.
  - injection H as <-. contradiction.
  - unfold bind in H.
    destruct (LLMTimetableParser.validateEvent _ e index) as [v0|] eqn:E0;
      [|discriminate H].
    destruct (LLMTimetableParser.validateEvents env clock (S index) l)
      as [vs0|] eqn:E1; [|discriminate H].
    injection H as <-. destruct Hin as [<-|Hin].
    + exists index. split; [lia|].
      eapply validateEvent_id; [eassumption|]. apply Hno. left. reflexivity.
    + destruct (IH (S index) vs0 E1 (fun x Hx => Hno x (or_intror Hx)) v Hin)
        as (j & Hj & Hid).
      exists j. split; [lia|assumption].
Qed.

Lemma validateEvents_NoDup (env : Env) (clock : nat -> Z) (l : list json)
    (index : nat) (vs : list LLMTimetableParser.ValidatedEvent.t) :
  LLMTimetableParser.validateEvents env clock index l = Ok vs ->
  (forall e, In e l -> truthy (member e "id") = false) ->
  NoDup (map LLMTimetableParser.ValidatedEvent.id vs).
Proof.
  revert index vs. induction l as [|e l IH]; intros index vs H Hno;
    cbn [LLMTimetableParser.validateEvents] in H.
  - injection H as <-. constructor.
  - unfold bind in H.
    destruct (LLMTimetableParser.validateEvent _ e index) as [v0|] eqn:E0;
      [|discriminate H].
    destruct (LLMTimetableParser.validateEvents env clock (S index) l)
      as [vs0|] eqn:E1; [|discriminate H].
    injection H as <-. cbn [map]. constructor.
    + intros Hin. apply in_map_iff in Hin. destruct Hin as (v' & Hid & Hin).
      destruct (validateEvents_ids env clock l (S index) vs0 E1
                  (fun x Hx => Hno x (or_intror Hx)) v' Hin) as (j & Hj & Hid').
      rewrite (validateEvent_id _ e index v0 E0 (Hno e (or_introl eq_refl)))
        in Hid.
      rewrite Hid' in Hid. apply JString_inj in Hid.
      unfold LLMTimetableParser.make_id in Hid.
      apply id_index_inj in Hid. lia.
    + apply (IH (S index) vs0 E1). intros x Hx. apply Hno. right. exact Hx.
Qed.

(** C9, as amended.  The ids of the events that the structured parser
    makes out of the rows of one call are pairwise distinct.  The ids of
    the events of a validated reply are pairwise distinct when no event of
    the reply carries an id of its own; an id given in the reply is kept
    as it is. *)
Theorem parse_ids_distinct :
  forall (env : Env) (clock : nat -> Z),
    (forall rows,
        NoDup (map ParsedTimetableEvent.id
                 (LocalFileParser.convertRowsToEvents env clock rows)))
    /\ (forall l vs,
           LLMTimetableParser.validateEvents env clock 0 l = Ok vs ->
           (forall e, In e l -> truthy (member e "id") = false) ->
           NoDup (map LLMTimetableParser.ValidatedEvent.id vs))
    /\ (forall event index v x,
           LLMTimetableParser.validateEvent env event index = Ok v ->
           member event "id" = Some x -> truthy (Some x) = true ->
           LLMTimetableParser.ValidatedEvent.id v = x).
Proof.
  intros env clock. split; [|split].
  - intros rows. apply convertRows_NoDup.
  - intros l vs. apply validateEvents_NoDup.
  - intros event index v x H Hm Ht.
    rewrite (validateEvent_shape _ _ _ _ H), Hm.
    apply or_string_truthy. assumption.
Qed.

Lemma parse_ids_distinct_witness :
  exists vs,
    LLMTimetableParser.validateEvents utc_host fixed_clock 0
      [JObject []; JObject [("title", JString "Databases")]] = Ok vs
    /\ NoDup (map LLMTimetableParser.ValidatedEvent.id vs).
Proof.
  destruct (parse_ids_distinct utc_host fixed_clock) as (_ & Hllm & _).
  destruct (LLMTimetableParser.validateEvents utc_host fixed_clock 0
              [JObject []; JObject [("title", JString "Databases")]])
    as [vs|e] eqn:E; [|vm_compute in E; discriminate E].
  exists vs. split; [reflexivity|].
  apply (Hllm _ vs E).
  intros e [<-|[<-|[]]]; reflexivity.
Defined.

(** C9 as stated fails on a reply whose two events carry the same id:
    both validated events have that id. *)
Lemma same_ids_counterexample :
  exists v1 v2,
    LLMTimetableParser.ParseResult.events
      (LLMTimetableParser.parseJSONResponse utc_host fixed_clock reply_same_ids)
    = LLMTimetableParser.Validated [v1; v2]
    /\ LLMTimetableParser.ValidatedEvent.id v1 = JString "a"
    /\ LLMTimetableParser.ValidatedEvent.id v2 = JString "a".
Proof.
  eexists _, _. split; [vm_compute; reflexivity|]. split; reflexivity.
Qed.

End Ids.

(** ** The sync engine (C2) *)

Module Sync.
Import JSString JSNumber JSDate GoogleCalendarService Spec.
#[local] Open Scope list_scope.

Section Run.

Variable createEvent : nat -> CalendarEvent.t -> result string.

(** *** One call, one batch *)

Lemma settle_counts (run : Run) (c : Call) :
  let run' := settle createEvent run c in
  eventsCreated run' = (eventsCreated run + created_of createEvent [c])%nat
  /\ eventsFailed run' = (eventsFailed run + failed_of createEvent [c])%nat
  /\ errors run' = errors run ++ errors_of createEvent [c]
  /\ progress run' = progress run.
Proof.
  destruct c as [i event].
  unfold settle, created_of, failed_of, errors_of, call_failed, call_ok,
    error_of.
  cbn [filter flat_map fst snd].
  destruct (createEvent i event); cbn; rewrite ?app_nil_r;
    repeat split; lia.
Qed.

Lemma created_of_app (a b : list Call) :
  created_of createEvent (a ++ b)
  = (created_of createEvent a + created_of createEvent b)%nat.
Proof. unfold created_of. rewrite filter_app, length_app. reflexivity. Qed.

Lemma failed_of_app (a b : list Call) :
  failed_of createEvent (a ++ b)
  = (failed_of createEvent a + failed_of createEvent b)%nat.
Proof. unfold failed_of. rewrite filter_app, length_app. reflexivity. Qed.

Lemma errors_of_app (a b : list Call) :
  errors_of createEvent (a ++ b)
  = errors_of createEvent a ++ errors_of createEvent b.
Proof. unfold errors_of. apply flat_map_app. Qed.

Lemma settle_fold (calls : list Call) (run : Run) :
  let run' := fold_left (settle createEvent) calls run in
  eventsCreated run' = (eventsCreated run + created_of createEvent calls)%nat
  /\ eventsFailed run' = (eventsFailed run + failed_of createEvent calls)%nat
  /\ errors run' = errors run ++ errors_of createEvent calls
  /\ progress run' = progress run.
Proof.
  revert run. induction calls as [|c calls IH]; intros run; cbn [fold_left].
  - cbn. rewrite app_nil_r. repeat split; lia.
  - destruct (IH (settle createEvent run c)) as (H1 & H2 & H3 & H4).
    destruct (settle_counts run c) as (G1 & G2 & G3 & G4).
    cbv zeta in *.
    change (c :: calls) with ([c] ++ calls).
    rewrite created_of_app, failed_of_app, errors_of_app.
    rewrite H1, H2, H3, H4, G1, G2, G3, G4.
    rewrite app_assoc. repeat split; lia.
Qed.

Lemma report_fold (total : nat) (calls : list Call) (run : Run) :
  let run' := fold_left (report total) calls run in
  eventsCreated run' = eventsCreated run
  /\ eventsFailed run' = eventsFailed run
  /\ errors run' = errors run.
Proof.
  revert run. induction calls as [|[i e] calls IH]; intros run;
    cbn [fold_left]; [repeat split|].
  destruct (IH (report total run (i, e))) as (H1 & H2 & H3).
  cbv zeta in *. rewrite H1, H2, H3. repeat split.
Qed.

(** *** The order of settling does not change the counts *)

Lemma Permutation_filter {A : Type} (f : A -> bool) (l l' : list A) :
  Permutation l l' -> Permutation (filter f l) (filter f l').
Proof.
  induction 1 as [|x l l' _ IH|x y l|l l' l'' _ IH1 _ IH2]; cbn [filter].
  - constructor.
  - destruct (f x); [constructor|]; assumption.
  - destruct (f x), (f y); try reflexivity. constructor.
  - etransitivity; eassumption.
Qed.

Lemma outcomes_of_permutation (calls calls' : list Call) :
  Permutation calls calls' ->
  created_of createEvent calls' = created_of createEvent calls
  /\ failed_of createEvent calls' = failed_of createEvent calls
  /\ Permutation (errors_of createEvent calls') (errors_of createEvent calls).
Proof.
  intros H. unfold created_of, failed_of, errors_of. repeat split.
  - symmetry. apply Permutation_length, Permutation_filter, H.
  - symmetry. apply Permutation_length, Permutation_filter, H.
  - symmetry. apply Permutation_flat_map, H.
Qed.

Lemma run_batch_counts (sched : Schedule) (total : nat) (run : Run)
    (batchIndex : nat) (batch : list CalendarEvent.t) :
  fair sched ->
  let calls := number_from (batchIndex * batchSize) batch in
  let run' := run_batch createEvent sched total run batchIndex batch in
  eventsCreated run' = (eventsCreated run + created_of createEvent calls)%nat
  /\ eventsFailed run' = (eventsFailed run + failed_of createEvent calls)%nat
  /\ exists es, errors run' = errors run ++ es
                /\ Permutation es (errors_of createEvent calls).
Proof.
  intros Hfair calls run'. subst run'. unfold run_batch. fold calls.
  destruct (report_fold total calls run) as (R1 & R2 & R3).
  destruct (settle_fold (sched calls) (fold_left (report total) calls run))
    as (S1 & S2 & S3 & _).
  destruct (outcomes_of_permutation calls (sched calls) (Hfair calls))
    as (P1 & P2 & P3).
  cbv zeta in *. rewrite S1, S2, S3, R1, R2, R3, P1, P2.
  repeat split. eexists. split; [reflexivity|exact P3].
Qed.

Lemma run_batches_counts (sched : Schedule) (total : nat)
    (batches : list (list CalendarEvent.t)) (run : Run) (batchIndex : nat) :
  fair sched ->
  let calls := all_calls batchIndex batches in
  let run' := run_batches createEvent sched total run batchIndex batches in
  eventsCreated run' = (eventsCreated run + created_of createEvent calls)%nat
  /\ eventsFailed run' = (eventsFailed run + failed_of createEvent calls)%nat
  /\ exists es, errors run' = errors run ++ es
                /\ Permutation es (errors_of createEvent calls).
Proof.
  intros Hfair. revert run batchIndex.
  induction batches as [|batch rest IH]; intros run batchIndex;
    cbn [run_batches all_calls].
  - cbn. repeat split; try lia. exists []. split; [|constructor].
    rewrite app_nil_r. reflexivity.
  - destruct (run_batch_counts sched total run batchIndex batch Hfair)
      as (B1 & B2 & es1 & B3 & B4).
    destruct (IH (run_batch createEvent sched total run batchIndex batch)
                (S batchIndex)) as (H1 & H2 & es2 & H3 & H4).
    cbv zeta in *.
    rewrite created_of_app, failed_of_app, errors_of_app.
    rewrite H1, H2, H3, B1, B2, B3.
    repeat split; try lia.
    exists (es1 ++ es2). split; [rewrite app_assoc; reflexivity|].
    apply Permutation_app; assumption.
Qed.

End Run.

(** *** Batches *)

Lemma number_from_app {A : Type} (i : nat) (a b : list A) :
  number_from i (a ++ b)
  = number_from i a ++ number_from (i + List.length a) b.
Proof.
  revert i. induction a as [|x a IH]; intros i; cbn [app number_from List.length].
  - rewrite Nat.add_0_r. reflexivity.
  - rewrite IH, Nat.add_succ_r. reflexivity.
Qed.

Lemma number_from_chunk {A : Type} (i n : nat) (l : list A) :
  number_from i (firstn n l) ++ number_from (i + n) (skipn n l)
  = number_from i l.
Proof.
  destruct (Nat.le_gt_cases n (List.length l)) as [Hle|Hgt].
  - rewrite <- (firstn_skipn n l) at 3. rewrite number_from_app.
    rewrite length_firstn, Nat.min_l by assumption. reflexivity.
  - rewrite firstn_all2, skipn_all2 by lia. cbn. apply app_nil_r.
Qed.

Lemma all_calls_chunks (fuel : nat) (l : list CalendarEvent.t)
    (batchIndex : nat) :
  (List.length l <= fuel)%nat ->
  all_calls batchIndex (chunk_loop fuel batchSize l)
  = number_from (batchIndex * batchSize) l.
Proof.
  revert l batchIndex. induction fuel as [|fuel IH]; intros l batchIndex Hlen.
  - destruct l; [reflexivity|simpl in Hlen; lia].
  - destruct l as [|x l]; [reflexivity|].
    cbn [chunk_loop all_calls]. rewrite IH.
    + replace (S batchIndex * batchSize)%nat
        with (batchIndex * batchSize + batchSize)%nat by lia.
      apply number_from_chunk.
    + rewrite length_skipn. unfold batchSize. simpl in *. lia.
Qed.

(** *** The conversion of the events *)

Lemma convertToCalendarEvent_id (env : Env) (ev : ParsedTimetableEvent.t)
    (p : CalendarEvent.t) :
  convertToCalendarEvent env ev = Ok p ->
  CalendarEvent.id p = ParsedTimetableEvent.id ev.
Proof.
  unfold convertToCalendarEvent, bind.
  destruct (parseTimeRange env _ _) as [range|]; [|discriminate].
  destruct (toISOString (fst range)); [|discriminate].
  destruct (toISOString (snd range)); [|discriminate].
  intros H.
  apply (f_equal (fun r : result CalendarEvent.t =>
                    match r with
                    | Ok c => CalendarEvent.id c
                    | Throw _ => EmptyString
                    end)) in H.
  cbv beta iota in H. cbn [CalendarEvent.id] in H. symmetry. exact H.
Qed.

Lemma mapM_convert (env : Env) (events : list ParsedTimetableEvent.t) :
  (forall ev, In ev events -> is_ok (convertToCalendarEvent env ev) = true) ->
  exists calendarEvents,
    mapM (convertToCalendarEvent env) events = Ok calendarEvents
    /\ map CalendarEvent.id calendarEvents
       = map ParsedTimetableEvent.id events.
Proof.
  induction events as [|ev events IH]; intros Hall; cbn [mapM map].
  - exists []. split; reflexivity.
  - destruct (convertToCalendarEvent env ev) as [p|e] eqn:E.
    + destruct IH as (ps & -> & Hids);
        [intros x Hx; apply Hall; right; exact Hx|].
      exists (p :: ps). cbn [bind map]. split; [reflexivity|].
      rewrite Hids, (convertToCalendarEvent_id env ev p E). reflexivity.
    + specialize (Hall ev (or_introl eq_refl)). rewrite E in Hall.
      discriminate Hall.
Qed.

(** *** The run *)

Lemma syncEvents_run (env : Env)
    (createEvent : nat -> CalendarEvent.t -> result string)
    (sched : Schedule) (calendarId : string)
    (events : list ParsedTimetableEvent.t)
    (calendarEvents : list CalendarEvent.t) :
  fair sched ->
  mapM (convertToCalendarEvent env) events = Ok calendarEvents ->
  exists result progress,
    syncEvents env createEvent sched calendarId events = Ok (result, progress)
    /\ SyncResult.eventsCreated result
       = created_of createEvent (number_from 0 calendarEvents)
    /\ SyncResult.eventsFailed result
       = failed_of createEvent (number_from 0 calendarEvents)
    /\ Permutation (SyncResult.errors result)
         (errors_of createEvent (number_from 0 calendarEvents))
    /\ SyncResult.success result = (SyncResult.eventsFailed result =? 0)%nat.
Proof.
  intros Hfair Hmap. unfold syncEvents. rewrite Hmap.
  destruct (run_batches_counts createEvent sched (List.length calendarEvents)
              (chunkArray calendarEvents batchSize) (mkRun 0 0 [] []) 0 Hfair)
    as (H1 & H2 & es & H3 & H4).
  cbv zeta in *. unfold chunkArray in *.
  rewrite all_calls_chunks in * by lia.
  cbn [eventsCreated eventsFailed errors Nat.mul Nat.add app] in *.
  eexists _, _. split; [reflexivity|].
  cbn [SyncResult.eventsCreated SyncResult.eventsFailed SyncResult.errors
         SyncResult.success].
  rewrite H1, H2, H3. repeat split. exact H4.
Qed.

Lemma failed_call (createEvent : nat -> CalendarEvent.t -> result string)
    (i : nat) (c : CalendarEvent.t) :
  is_ok (createEvent i c) = false ->
  exists message,
    error_of createEvent (i, c) = [SyncError.mk (CalendarEvent.id c) message].
Proof.
  unfold error_of. cbn [fst snd].
  destruct (createEvent i c) as [s|e]; [discriminate|].
  intros _. eexists; reflexivity.
Qed.

Lemma passed_call (createEvent : nat -> CalendarEvent.t -> result string)
    (i : nat) (c : CalendarEvent.t) :
  is_ok (createEvent i c) = true -> error_of createEvent (i, c) = [].
Proof.
  unfold error_of. cbn [fst snd].
  destruct (createEvent i c) as [s|e]; [reflexivity|discriminate].
Qed.

(** C2.  When every event maps to a payload, [syncEvents] returns a
    result whatever the order in which the calls of a batch settle.  Its
    [eventsCreated] is the number of calls of the whole run that succeed,
    its [eventsFailed] the number of those that fail, its [errors] hold
    one entry, with the id of the event and the message, for each call that
    fails, and [success] tells that [eventsFailed] is zero.  For seven
    events of which the fourth alone fails: one failed, six created, no
    success, and the one entry of [errors] has the id of the fourth
    event. *)
Theorem syncEvents_isolation :
  forall (env : Env) (createEvent : nat -> CalendarEvent.t -> result string)
         (sched : Schedule) (calendarId : string)
         (events : list ParsedTimetableEvent.t),
    fair sched ->
    (forall ev, In ev events -> is_ok (convertToCalendarEvent env ev) = true) ->
    exists calendarEvents result progress,
      mapM (convertToCalendarEvent env) events = Ok calendarEvents
      /\ map CalendarEvent.id calendarEvents
         = map ParsedTimetableEvent.id events
      /\ syncEvents env createEvent sched calendarId events
         = Ok (result, progress)
      /\ SyncResult.eventsCreated result
         = created_of createEvent (number_from 0 calendarEvents)
      /\ SyncResult.eventsFailed result
         = failed_of createEvent (number_from 0 calendarEvents)
      /\ Permutation (SyncResult.errors result)
           (errors_of createEvent (number_from 0 calendarEvents))
      /\ SyncResult.success result
         = (SyncResult.eventsFailed result =? 0)%nat
      /\ (List.length events = 7%nat ->
          (forall i c, is_ok (createEvent i c) = negb (i =? 3)%nat) ->
          SyncResult.eventsFailed result = 1%nat
          /\ SyncResult.eventsCreated result = 6%nat
          /\ SyncResult.success result = false
          /\ exists message,
               SyncResult.errors result
               = [SyncError.mk
                    (nth 3 (map ParsedTimetableEvent.id events) EmptyString)
                    message]).
Proof.
  intros env createEvent sched calendarId events Hfair Hall.
  destruct (mapM_convert env events Hall) as (calendarEvents & Hmap & Hids).
  destruct (syncEvents_run env createEvent sched calendarId events
              calendarEvents Hfair Hmap)
    as (result & progress & Hrun & Hc & Hf & He & Hs).
  exists calendarEvents, result, progress.
  repeat (split; [assumption|]).
  intros Hlen Hfourth.
  assert (Hlen' : List.length calendarEvents = 7%nat)
    by (rewrite <- (length_map CalendarEvent.id), Hids, length_map;
        exact Hlen).
  destruct calendarEvents as [|c0 [|c1 [|c2 [|c3 [|c4 [|c5 [|c6 [|? ?]]]]]]]];
    try discriminate Hlen'.
  rewrite <- Hids. cbn [map nth].
  cbn [number_from] in Hc, Hf, He.
  unfold created_of, failed_of, call_failed, call_ok in Hc, Hf.
  cbn [filter fst snd] in Hc, Hf.
  rewrite !Hfourth in Hc, Hf. cbn in Hc, Hf.
  unfold errors_of in He. cbn [flat_map] in He.
  rewrite (passed_call createEvent 0 c0), (passed_call createEvent 1 c1),
    (passed_call createEvent 2 c2), (passed_call createEvent 4 c4),
    (passed_call createEvent 5 c5), (passed_call createEvent 6 c6) in He
    by (rewrite Hfourth; reflexivity).
  destruct (failed_call createEvent 3 c3) as (message & Hm);
    [rewrite Hfourth; reflexivity|].
  rewrite Hm in He. cbn [app] in He.
  apply Permutation_sym, Permutation_length_1_inv in He.
  rewrite Hs, Hf. repeat split; [assumption|].
  exists message. exact He.
Qed.

Lemma last_first_fair : fair last_first.
Proof. intros batch. apply Permutation_rev. Qed.

Lemma seven_events_convert :
  forall ev, In ev seven_events ->
             is_ok (convertToCalendarEvent utc_host ev) = true.
Proof.
  intros ev Hin. cbv [seven_events seq map] in Hin.
  repeat (destruct Hin as [<-|Hin]; [vm_compute; reflexivity|]).
  contradiction.
Qed.

Lemma syncEvents_isolation_witness :
  exists result progress,
    syncEvents utc_host fourth_fails last_first "primary" seven_events
    = Ok (result, progress)
    /\ SyncResult.eventsFailed result = 1%nat
    /\ SyncResult.eventsCreated result = 6%nat
    /\ SyncResult.success result = false
    /\ exists message,
         SyncResult.errors result
         = [SyncError.mk "local-parsed-1710000000000-3" message].
Proof.
  destruct (syncEvents_isolation utc_host fourth_fails last_first "primary"
              seven_events last_first_fair seven_events_convert)
    as (calendarEvents & result & progress & _ & _ & Hrun & _ & _ & _ & _
        & Hseven).
  exists result, progress. split; [exact Hrun|].
  apply Hseven; [reflexivity|].
  intros i c. unfold fourth_fails. destruct (i =? 3)%nat; reflexivity.
Defined.

End Sync.

(** ** Titles and cells of a row ([cleanTitle], [findValueByKeys]) *)

Module Titles.
Import JSString JSNumber JSValue LocalFileParser Spec Props Tools Clock Texts.

Lemma spaced_runs (s : string) :
  ends_ok s = true ->
  spaced false (replace_ws_runs " " false s) = true
  /\ forall prev, spaced prev (replace_ws_runs " " true s) = true.
Proof.
  induction s as [|c s IH]; [discriminate|].
  intros He. destruct s as [|c' r].
  - cbn [ends_ok] in He. apply negb_true_iff in He.
    cbn [replace_ws_runs]. rewrite He. cbn [spaced]. rewrite He.
    split; [reflexivity | intros prev; reflexivity].
  - change (ends_ok (String c (String c' r))) with (ends_ok (String c' r)) in He.
    destruct (IH He) as [IHf IHt].
    cbn [replace_ws_runs]. fold (replace_ws_runs " " false (String c' r)).
    fold (replace_ws_runs " " true (String c' r)).
    destruct (is_space c) eqn:E.
    + split.
      * cbn [append spaced]. change (is_space " ") with true.
        change (Ascii.eqb " " " ") with true. cbn [andb negb].
        apply IHt.
      * intros prev. apply IHt.
    + cbn [spaced]. rewrite E. split; [exact IHf | intros prev; exact IHf].
Qed.

Lemma letters_runs (in_run : bool) (s : string) :
  letters (replace_ws_runs " " in_run s) = letters s.
Proof.
  revert in_run. induction s as [|c s IH]; intros in_run; [reflexivity|].
  cbn [replace_ws_runs letters]. destruct (is_space c) eqn:E.
  - destruct in_run; [apply IH|]. cbn [append letters]. apply IH.
  - cbn [letters]. rewrite E, IH. reflexivity.
Qed.

Lemma spaced_fixed (prev : bool) (s : string) :
  spaced prev s = true -> replace_ws_runs " " prev s = s.
Proof.
  revert prev. induction s as [|c s IH]; intros prev H; [reflexivity|].
  cbn [spaced] in H. cbn [replace_ws_runs].
  destruct (is_space c) eqn:E.
  - apply andb_true_iff in H. destruct H as [H Hs].
    apply andb_true_iff in H. destruct H as [Hc Hp].
    apply negb_true_iff in Hp. subst prev.
    apply Ascii.eqb_eq in Hc. subst c.
    cbn [append]. rewrite (IH true Hs). reflexivity.
  - rewrite (IH false H). reflexivity.
Qed.

Lemma spaced_runs_any (prev : bool) (s : string) :
  spaced true s = true -> replace_ws_runs " " prev s = s.
Proof.
  intros H. destruct prev; [apply spaced_fixed; exact H|].
  destruct s as [|c s]; [reflexivity|].
  cbn [spaced] in H. cbn [replace_ws_runs].
  destruct (is_space c) eqn:E.
  - rewrite andb_false_r in H. discriminate H.
  - rewrite (spaced_fixed false s H). reflexivity.
Qed.

Lemma spaced_ends (prev : bool) (c : ascii) (s : string) :
  spaced prev (String c s) = true -> ends_ok (String c s) = true.
Proof.
  revert prev c. induction s as [|c' s IH]; intros prev c H.
  - cbn [spaced] in H. cbn [ends_ok]. destruct (is_space c); [|reflexivity].
    rewrite andb_false_r in H. discriminate H.
  - change (ends_ok (String c (String c' s))) with (ends_ok (String c' s)).
    cbn [spaced] in H. fold (spaced true (String c' s)) in H.
    fold (spaced false (String c' s)) in H.
    destruct (is_space c).
    + apply andb_true_iff in H. destruct H as [_ H]. exact (IH true c' H).
    + exact (IH false c' H).
Qed.

Lemma single_spaced_trimmed (s : string) :
  single_spaced s = true -> trim s = s.
Proof.
  unfold single_spaced. destruct s as [|c s]; [reflexivity|].
  cbn [is_empty orb]. intros H.
  apply trim_fixed; [|exact (spaced_ends true c s H)].
  cbn [spaced] in H. destruct (is_space c); [|reflexivity].
  rewrite andb_false_r in H. discriminate H.
Qed.

Lemma cleanTitle_single_spaced (title : string) :
  single_spaced (cleanTitle title) = true.
Proof.
  unfold cleanTitle, single_spaced.
  destruct (trim_shape title) as [-> | (c & r & -> & Hc & He)];
    [reflexivity|].
  cbn [replace_ws_runs]. rewrite Hc. cbn [is_empty orb spaced]. rewrite Hc.
  destruct r as [|c' r']; [reflexivity|].
  change (ends_ok (String c (String c' r'))) with (ends_ok (String c' r')) in He.
  exact (proj1 (spaced_runs _ He)).
Qed.

(** X1.  [cleanTitle] gives a text whose only white space is one space
    between two words, with the same characters other than white space,
    in the same order; cleaning a cleaned title changes nothing. *)
Theorem cleanTitle_normal_form :
  forall title : string,
    single_spaced (cleanTitle title) = true
    /\ letters (cleanTitle title) = letters title
    /\ cleanTitle (cleanTitle title) = cleanTitle title.
Proof.
  intros title. pose proof (cleanTitle_single_spaced title) as H.
  split; [exact H|]. split.
  - unfold cleanTitle. rewrite letters_runs. apply letters_trim.
  - unfold cleanTitle at 1. rewrite (single_spaced_trimmed _ H).
    unfold single_spaced in H.
    destruct (cleanTitle title) as [|c s] eqn:E; [reflexivity|].
    cbn [is_empty orb] in H. apply spaced_runs_any. exact H.
Qed.

Lemma or_else_cases (a b : value) (x : json) :
  or_else a b = Some x -> a = Some x \/ b = Some x.
Proof. unfold or_else. destruct (truthy a); auto. Qed.

Lemma trim_not_empty (s : string) :
  is_empty (trim s) = false -> trim s <> EmptyString.
Proof. intros H E. rewrite E in H. discriminate H. Qed.

Lemma findValueByKeys_cons (row : Row) (key : string) (rest : list string) :
  findValueByKeys row (key :: rest)
  = match or_else (get key row)
            (or_else (get (replace_ws_runs EmptyString false key) row)
                     (get (replace_ws_runs "_" false key) row)) with
    | Some (JString s) =>
        if negb (is_empty s) && negb (is_empty (trim s))
        then Some (trim s) else findValueByKeys row rest
    | _ => findValueByKeys row rest
    end.
Proof. reflexivity. Qed.

(** X2.  The value that [findValueByKeys] finds is a text cell of the
    row, without the white space around it, and it is not empty; the cell
    stands under one of the keys asked, written as it is, without its
    white space, or with "_" for its white space.  A cell that holds a
    number, or a blank text, is never the value found. *)
Theorem findValueByKeys_found :
  forall (row : Row) (keys : list string) (v : string),
    findValueByKeys row keys = Some v ->
    v <> EmptyString /\ trim v = v
    /\ exists key k s,
         In key keys /\ In k (key_forms key)
         /\ get k row = Some (JString s) /\ v = trim s.
Proof.
  intros row keys. induction keys as [|key rest IH]; intros v;
    [discriminate|].
  assert (Hrest : findValueByKeys row rest = Some v ->
             v <> EmptyString /\ trim v = v
             /\ exists key0 k s,
                  In key0 (key :: rest) /\ In k (key_forms key0)
                  /\ get k row = Some (JString s) /\ v = trim s).
  { intros Hx. destruct (IH v Hx) as (H1 & H2 & key0 & k & s & Hin & Hr).
    split; [exact H1|]. split; [exact H2|].
    exists key0, k, s. split; [right; exact Hin | exact Hr]. }
  rewrite findValueByKeys_cons.
  destruct (or_else (get key row) _) as [[| b | m e | s | l | o]|] eqn:E;
    try (apply Hrest).
  destruct (negb (is_empty s) && negb (is_empty (trim s))) eqn:G;
    [|apply Hrest].
  intros H. injection H as <-.
  apply andb_true_iff in G. destruct G as [_ G]. apply negb_true_iff in G.
  split; [exact (trim_not_empty s G)|]. split; [apply trim_idempotent|].
  exists key.
  destruct (or_else_cases _ _ _ E) as [H|H].
  - exists key, s. repeat split; [left; reflexivity | left; reflexivity | exact H].
  - destruct (or_else_cases _ _ _ H) as [H'|H'].
    + eexists _, s. repeat split; [left; reflexivity| |exact H'].
      right; left; reflexivity.
    + eexists _, s. repeat split; [left; reflexivity| |exact H'].
      right; right; left; reflexivity.
Qed.

Lemma findValueByKeys_found_witness :
  "Algorithms" <> EmptyString /\ trim "Algorithms" = "Algorithms"
  /\ exists key k s,
       In key fieldMappings.title /\ In k (key_forms key)
       /\ get k padded_row = Some (JString s) /\ "Algorithms" = trim s.
Proof.
  apply (findValueByKeys_found padded_row fieldMappings.title "Algorithms").
  reflexivity.
Defined.

End Titles.

(** ** Event types ([normalizeEventType]) *)

Module Kinds.
Import JSString JSNumber JSValue LocalFileParser Spec Props Tools Clock Texts.

(** X3.  A type text that holds "lab" somewhere, in any letter case and
    even inside a word, is a lab, whatever else the text holds. *)
Theorem normalizeEventType_lab_wins :
  forall a x b : string,
    toLowerCase x = "lab" -> normalizeEventType (a ++ x ++ b) = lab.
Proof.
  intros a x b Hx. unfold normalizeEventType, toLowerCase.
  rewrite !map_chars_append. fold (toLowerCase x). rewrite Hx.
  rewrite includes_middle. reflexivity.
Qed.

Lemma normalizeEventType_lab_wins_witness :
  normalizeEventType ("Col" ++ "LAB" ++ "orative Meeting") = lab.
Proof.
  apply (normalizeEventType_lab_wins "Col" "LAB" "orative Meeting").
  reflexivity.
Defined.

End Kinds.

(** ** Dates of a row ([normalizeDate]) *)

Module Dates.
Import JSString JSNumber JSDate JSValue LocalFileParser Spec Props Tools Clock.
Import Rows Calendar Texts.

Lemma includes_no_head (c : ascii) (r s : string) :
  all_chars (differs_from c) s = true -> includes s (String c r) = false.
Proof.
  induction s as [|x s IH]; intros H; [reflexivity|].
  cbn [all_chars] in H. apply andb_true_iff in H. destruct H as [Hx Hs].
  cbn [includes prefix]. rewrite (IH Hs).
  destruct (ascii_dec c x) as [<-|_]; [|reflexivity].
  unfold differs_from in Hx. rewrite Ascii.eqb_refl in Hx. discriminate Hx.
Qed.

Lemma numeral_lower (c : ascii) : numeral_char c = true -> lower_char c = c.
Proof.
  destruct c as [[] [] [] [] [] [] [] []]; vm_compute; intros;
    try discriminate; reflexivity.
Qed.

Lemma numeral_toLowerCase (s : string) :
  all_chars numeral_char s = true -> toLowerCase s = s.
Proof.
  induction s as [|c s IH]; [reflexivity|].
  cbn [all_chars]. intros H. apply andb_true_iff in H. destruct H as [Hc Hs].
  unfold toLowerCase in *. cbn [map_chars].
  rewrite (numeral_lower c Hc), (IH Hs). reflexivity.
Qed.

Lemma numeral_not_letter (x c : ascii) :
  in_range 97 122 x = true -> numeral_char c = true ->
  differs_from x c = true.
Proof.
  intros Hx Hc. unfold differs_from. apply negb_true_iff.
  apply Ascii.eqb_neq. intros ->.
  revert Hx Hc. destruct x as [[] [] [] [] [] [] [] []]; vm_compute;
    intros; discriminate.
Qed.

(** A text of digits and signs names no weekday. *)
Lemma numeral_no_weekday (s : string) :
  all_chars numeral_char s = true ->
  findIndex (fun day => includes (toLowerCase s) day) dayNames 0 = None.
Proof.
  intros H. rewrite (numeral_toLowerCase s H).
  assert (Hday : forall c r, in_range 97 122 c = true ->
                             includes s (String c r) = false).
  { intros c r Hc. apply includes_no_head.
    apply (all_chars_weaken numeral_char); [|exact H].
    intros x Hx. apply numeral_not_letter; assumption. }
  unfold dayNames. cbn [findIndex].
  rewrite !Hday by reflexivity. reflexivity.
Qed.

Lemma written_date_numeral (date : string) (y m d : Z) :
  parse_iso_date date = Some (y, m, d) -> all_chars numeral_char date = true.
Proof.
  intros H. destruct (parse_iso_date_written date y m d H) as (-> & _).
  change (pad 4 y ++ "-" ++ pad 2 m ++ "-" ++ pad 2 d)
    with (pad 4 y ++ String "-" (pad 2 m ++ String "-" (pad 2 d))).
  rewrite all_chars_app. cbn [all_chars]. rewrite all_chars_app.
  cbn [all_chars]. rewrite !pad_numeral. reflexivity.
Qed.

(** X4.  A date of the calendar written [YYYY-MM-DD] is kept as it is by
    [normalizeDate], on every host: whatever its clock, its time zone and
    its own parser of dates. *)
Theorem normalizeDate_calendar_date :
  forall (env : Env) (date : string),
    calendar_date date -> normalizeDate env date = Ok date.
Proof.
  intros env date (y & m & d & Hp & Hv). unfold normalizeDate.
  rewrite (numeral_no_weekday date (written_date_numeral date y m d Hp)).
  unfold Date_parse. rewrite Hp, Hv. cbn [toISOString].
  rewrite iso_date_part. f_equal.
  rewrite <- (Z.add_0_r (days_from_civil y m d * msPerDay)).
  apply (iso_date_calendar_date date y m d 0 Hp Hv).
  unfold msPerDay. lia.
Qed.

Lemma normalizeDate_calendar_date_witness :
  normalizeDate west_host "2024-02-29" = Ok "2024-02-29".
Proof.
  apply (normalizeDate_calendar_date west_host "2024-02-29").
  exists 2024%Z, 2%Z, 29%Z. split; reflexivity.
Defined.

End Dates.

(** ** Times and durations of a row *)

Module Times.
Import JSString JSNumber JSDate JSValue LocalFileParser Spec Props Tools Clock.
Import Rows Calendar RoundTrip Texts.

(** X5.  The time that [normalizeTime] gives always holds the separator
    of a range, whatever the value it was given. *)
Theorem normalizeTime_has_separator :
  forall (env : Env) (time : string),
    includes (normalizeTime env time) " - " = true.
Proof.
  intros env time. unfold normalizeTime.
  set (t := if includes (trim time) "AM" || includes (trim time) "PM"
            then convert12to24 (trim time) else trim time).
  destruct (includes t " - ") eqn:E; cbn [negb]; [exact E|].
  apply includes_middle.
Qed.

(** *** [addMinutes] *)

Lemma hour_text_no_space (h : Z) (hs : string) :
  hs = Z_to_string h \/ hs = pad 2 h ->
  all_chars (differs_from " ") hs = true.
Proof.
  intros [-> | ->]; apply (all_chars_weaken numeral_char);
    try apply numeral_not_space.
  - apply Z_to_string_numeral.
  - apply pad_numeral.
Qed.

Lemma bare_time_no_space (h m : Z) (hs : string) :
  hs = Z_to_string h \/ hs = pad 2 h ->
  all_chars (differs_from " ") (hs ++ ":" ++ pad 2 m) = true.
Proof.
  intros Hhs.
  change (hs ++ ":" ++ pad 2 m) with (hs ++ String ":" (pad 2 m)).
  rewrite all_chars_app. cbn [all_chars].
  rewrite (hour_text_no_space h hs Hhs).
  rewrite (all_chars_weaken numeral_char (differs_from " ") _
             numeral_not_space (pad_numeral 2 m)).
  reflexivity.
Qed.

(** X6.  On a host whose clocks never change, [addMinutes] moves a
    clock time [h:mm] by a number of minutes around the clock: the result
    is the zero-padded time of day [(h * 60 + mm + minutes) mod 1440],
    whatever the day, the clock and the offset of the host. *)
Theorem addMinutes_around_the_clock :
  forall (env : Env) (c h m : Z) (hs : string) (minutes : Z),
    host_ok env -> fixed_offset env c ->
    (0 <= h <= 23)%Z -> (0 <= m <= 59)%Z ->
    hs = Z_to_string h \/ hs = pad 2 h ->
    (- 100000 <= minutes <= 100000)%Z ->
    addMinutes env (hs ++ ":" ++ pad 2 m) minutes
    = clock_text ((h * 60 + m + minutes) mod 1440).
Proof.
  intros env c h m hs minutes Hok Hc Hh Hm Hhs Hn.
  apply (addMinutes_clock env c); assumption.
Qed.

Lemma addMinutes_around_the_clock_witness :
  addMinutes east_host ("9" ++ ":" ++ pad 2 5) (- 70) = clock_text 475
  /\ addMinutes west_host ("23" ++ ":" ++ pad 2 45) 30 = clock_text 15.
Proof.
  split.
  - apply (addMinutes_around_the_clock east_host 60 9 5 "9" (- 70));
      try lia;
      [apply host_at_ok; lia | apply host_at_fixed | left; reflexivity].
  - apply (addMinutes_around_the_clock west_host (- 300) 23 45 "23" 30);
      try lia;
      [apply host_at_ok; lia | apply host_at_fixed | left; reflexivity].
Defined.

(** On the day the clocks go forward the time asked may not exist: the
    clock of the host shows an hour more. *)
Example addMinutes_over_clock_change :
  addMinutes spring_host "1:45" 30 = "03:15"
  /\ normalizeTime spring_host "01:00" = "01:00 - 03:30".
Proof. split; vm_compute; reflexivity. Qed.

(** *** [calculateDuration] *)

(** The duration of a range of two texts read as clock times. *)
Lemma calculateDuration_parts (s1 s2 : string) (h1 m1 h2 m2 : Z) :
  all_chars (differs_from " ") s1 = true ->
  all_chars (differs_from " ") s2 = true ->
  split_numbers s1 = (Num h1, Num m1) ->
  split_numbers s2 = (Num h2, Num m2) ->
  calculateDuration (s1 ++ " - " ++ s2)
  = let d := (h2 * 60 + m2 - (h1 * 60 + m1))%Z in
    render_duration (Num (d / 60)) (Num (Z.rem d 60)).
Proof.
  intros H1 H2 E1 E2. unfold calculateDuration.
  rewrite (split_range s1 s2 H1 H2), E1, E2. reflexivity.
Qed.

Lemma calculateDuration_clock_texts (a b : Z) :
  (0 <= a < 1440)%Z -> (0 <= b < 1440)%Z ->
  calculateDuration (clock_text a ++ " - " ++ clock_text b)
  = render_duration (Num ((b - a) / 60)) (Num (Z.rem (b - a) 60)).
Proof.
  intros Ha Hb.
  rewrite (calculateDuration_parts (clock_text a) (clock_text b)
             (a / 60) (a mod 60) (b / 60) (b mod 60));
    try apply clock_text_no_space;
    try (apply split_numbers_clock_text; assumption).
  cbv zeta.
  replace (b / 60 * 60 + b mod 60 - (a / 60 * 60 + a mod 60))%Z
    with (b - a)%Z by zlia.
  reflexivity.
Qed.

(** X7.  The duration of a range of two clock times, [d] minutes apart.
    A whole number of hours is written [Nh]; less than an hour is written
    [Nm], and [0m] when the two times are the same; otherwise it is
    written [Nh Mm].  When the range ends before it starts the hours are
    not written: the text is the remainder of [d] by 60, zero or
    negative, followed by [m]. *)
Theorem calculateDuration_of_range :
  forall a b d : Z,
    (0 <= a < 1440)%Z -> (0 <= b < 1440)%Z -> d = (b - a)%Z ->
    let text := calculateDuration (clock_text a ++ " - " ++ clock_text b) in
    ((0 < d)%Z -> (d mod 60 = 0)%Z -> text = Z_to_string (d / 60) ++ "h")
    /\ ((60 < d)%Z -> (d mod 60 <> 0)%Z ->
        text = Z_to_string (d / 60) ++ "h " ++ Z_to_string (d mod 60) ++ "m")
    /\ ((0 <= d < 60)%Z -> text = Z_to_string d ++ "m")
    /\ ((d < 0)%Z -> text = Z_to_string (Z.rem d 60) ++ "m").
Proof.
  intros a b d Ha Hb Hd text. subst text.
  rewrite (calculateDuration_clock_texts a b Ha Hb). rewrite <- Hd.
  unfold render_duration. cbn [gt0 toString].
  assert (Hrem : (0 <= d)%Z -> Z.rem d 60 = (d mod 60)%Z)
    by (intros H; apply Z.rem_mod_nonneg; lia).
  repeat split.
  - intros Hpos Hm. rewrite Hrem by lia. rewrite Hm.
    destruct (Z.ltb_spec 0 (d / 60)); [reflexivity | zlia].
  - intros Hpos Hm. rewrite Hrem by lia.
    destruct (Z.ltb_spec 0 (d / 60)); [|zlia].
    destruct (Z.ltb_spec 0 (d mod 60)); [reflexivity | zlia].
  - intros Hs. rewrite Hrem by lia.
    destruct (Z.ltb_spec 0 (d / 60)); [zlia|].
    cbn [andb]. replace (d mod 60)%Z with d by zlia. reflexivity.
  - intros Hneg.
    destruct (Z.ltb_spec 0 (d / 60)); [zlia | reflexivity].
Qed.

Lemma calculateDuration_of_range_witness :
  calculateDuration (clock_text 540 ++ " - " ++ clock_text 660) = "2h"
  /\ calculateDuration (clock_text 540 ++ " - " ++ clock_text 645) = "1h 45m"
  /\ calculateDuration (clock_text 540 ++ " - " ++ clock_text 540) = "0m"
  /\ calculateDuration (clock_text 600 ++ " - " ++ clock_text 510) = "-30m".
Proof.
  split; [|split; [|split]].
  - destruct (calculateDuration_of_range 540 660 120) as (H & _);
      try lia. apply H; [lia | reflexivity].
  - destruct (calculateDuration_of_range 540 645 105) as (_ & H & _);
      try lia. apply H; [lia | discriminate].
  - destruct (calculateDuration_of_range 540 540 0) as (_ & _ & H & _);
      try lia. apply H; lia.
  - destruct (calculateDuration_of_range 600 510 (- 90)) as (_ & _ & _ & H);
      try lia. apply H; lia.
Defined.

(** X8.  A row with a title, a bare start time [h:mm] and no duration of
    its own, on a host whose clocks never change.  When the start is
    before 22:30 the duration of the event is 1h 30m.  From 22:30 on, the end that [normalizeTime] adds is after
    midnight, on the clock before the start, and the duration of the event
    is written -30m. *)
Theorem mapRowToEvent_bare_start_duration :
  forall (env : Env) (row : Row) (index : nat) (title0 : string)
         (c h m : Z) (hs : string),
    host_ok env -> fixed_offset env c ->
    findValueByKeys row fieldMappings.title = Some title0 ->
    (0 <= h <= 23)%Z -> (0 <= m <= 59)%Z ->
    hs = Z_to_string h \/ hs = pad 2 h ->
    findValueByKeys row fieldMappings.time = Some (hs ++ ":" ++ pad 2 m) ->
    findValueByKeys row fieldMappings.duration = None ->
    exists ev,
      mapRowToEvent env row index = Ok (Some ev)
      /\ ParsedTimetableEvent.duration ev
         = if (h * 60 + m <? 1350)%Z then "1h 30m" else "-30m".
Proof.
  intros env row index title0 c h m hs Hok Hc Ht Hh Hm Hhs Hv Hd.
  destruct (mapRowToEvent_some env row index title0 Hok Ht)
    as (ev & Hev & _ & Htime & Hdur).
  exists ev. split; [exact Hev|].
  rewrite Hdur, Hd, Htime, Hv. cbn [or_default].
  rewrite (normalizeTime_bare env c h m hs Hok Hc Hh Hm Hhs).
  set (e := ((h * 60 + m + 90) mod 1440)%Z).
  assert (He : (0 <= e < 1440)%Z) by (unfold e; zlia).
  rewrite (calculateDuration_parts (hs ++ ":" ++ pad 2 m) (clock_text e)
             h m (e / 60) (e mod 60));
    [ | apply (bare_time_no_space h m hs Hhs)
      | apply clock_text_no_space
      | apply split_numbers_bare; assumption
      | apply split_numbers_clock_text; exact He ].
  cbv zeta.
  replace (e / 60 * 60 + e mod 60 - (h * 60 + m))%Z
    with (e - (h * 60 + m))%Z by zlia.
  destruct (Z.ltb_spec (h * 60 + m) 1350).
  - replace (e - (h * 60 + m))%Z with 90%Z by (unfold e; zlia).
    reflexivity.
  - replace (e - (h * 60 + m))%Z with (- 1350)%Z by (unfold e; zlia).
    reflexivity.
Qed.

Lemma mapRowToEvent_bare_start_duration_witness :
  exists ev,
    mapRowToEvent utc_host row_with_start 0 = Ok (Some ev)
    /\ ParsedTimetableEvent.duration ev = "-30m".
Proof.
  assert (Hok : host_ok utc_host) by (apply host_at_ok; lia).
  exact (mapRowToEvent_bare_start_duration utc_host row_with_start 0
           "Algorithms" 0 23 15 "23" Hok (host_at_fixed 1710000000000 0)
           eq_refl ltac:(lia) ltac:(lia)
           (or_introl eq_refl) eq_refl eq_refl).
Defined.

End Times.

(** ** From rows to events ([convertRowsToEvents]) *)

Module RowsToEvents.
Import JSString JSNumber JSDate JSValue LocalFileParser Spec Props Tools Clock.
Import Rows.
#[local] Open Scope list_scope.

Lemma mapRowToEvent_title (env : Env) (row : Row) (index : nat)
    (title0 : string) :
  host_ok env ->
  findValueByKeys row fieldMappings.title = Some title0 ->
  exists ev,
    mapRowToEvent env row index = Ok (Some ev)
    /\ ParsedTimetableEvent.title ev = cleanTitle title0.
Proof.
  intros Hok Ht. unfold mapRowToEvent. rewrite Ht.
  destruct (date_of_row_ok env row Hok) as (date & Hd).
  unfold bind in Hd |- *.
  destruct (match findValueByKeys row fieldMappings.date with
            | Some d => Ok d
            | None => getNextWeekday env 1
            end) as [date0|e]; [|discriminate Hd].
  rewrite Hd.
  destruct (parseLocation _) as [room building].
  eexists. split; reflexivity.
Qed.

Lemma mapRowToEvent_untitled (env : Env) (row : Row) (index : nat) :
  findValueByKeys row fieldMappings.title = None ->
  mapRowToEvent env row index = Ok None.
Proof. intros Ht. unfold mapRowToEvent. rewrite Ht. reflexivity. Qed.

Lemma convertRows_titles (env : Env) (clock : nat -> Z) (rows : list Row)
    (index : nat) :
  (forall i, host_ok (at_time env (clock i))) ->
  map ParsedTimetableEvent.title (convertRows env clock index rows)
  = titles_of rows.
Proof.
  intros Hok. revert index.
  induction rows as [|row rows IH]; intros index; [reflexivity|].
  cbn [convertRows titles_of flat_map].
  fold (titles_of rows).
  destruct (findValueByKeys row fieldMappings.title) as [title0|] eqn:Ht.
  - destruct (mapRowToEvent_title (at_time env (clock index)) row index title0
                (Hok index) Ht) as (ev & -> & Htitle).
    cbn [map app]. rewrite Htitle, IH. reflexivity.
  - rewrite (mapRowToEvent_untitled _ row index Ht). cbn [app]. apply IH.
Qed.

(** X9.  On a host in range, [convertRowsToEvents] gives one event for
    every row that has a title, and none for the others: the titles of the
    events are the cleaned titles of those rows, in the order of the
    rows.  No row with a title is dropped. *)
Theorem convertRowsToEvents_titles :
  forall (env : Env) (clock : nat -> Z) (rows : list Row),
    (forall i, host_ok (at_time env (clock i))) ->
    map ParsedTimetableEvent.title (convertRowsToEvents env clock rows)
    = titles_of rows.
Proof.
  intros env clock rows Hok. apply convertRows_titles. exact Hok.
Qed.

Lemma convertRowsToEvents_titles_witness :
  map ParsedTimetableEvent.title
    (convertRowsToEvents utc_host fixed_clock three_rows)
  = ["Linear Algebra"; "Algorithms"].
Proof.
  apply (convertRowsToEvents_titles utc_host fixed_clock three_rows).
  intros i. apply (host_at_ok (fixed_clock i) 0); unfold fixed_clock; lia.
Defined.

End RowsToEvents.

(** ** Batches ([chunkArray]) *)

Module Chunks.
Import GoogleCalendarService Spec Props Tools.
#[local] Open Scope list_scope.

Lemma chunk_loop_facts {A : Type} (size : nat) :
  (0 < size)%nat ->
  forall (fuel : nat) (l : list A),
    (List.length l <= fuel)%nat ->
    let chunks := chunk_loop fuel size l in
    List.concat chunks = l
    /\ (forall c, In c chunks -> (1 <= List.length c <= size)%nat)
    /\ (forall i, (S i < List.length chunks)%nat ->
                  List.length (nth i chunks []) = size)
    /\ (List.length chunks * size < List.length l + size)%nat
    /\ (List.length l <= List.length chunks * size)%nat.
Proof.
  intros Hsize. induction fuel as [|fuel IH]; intros l Hlen.
  - destruct l; [|simpl in Hlen; lia].
    cbn. repeat split; try lia; intros; try contradiction; lia.
  - destruct l as [|x l].
    + cbn. repeat split; try lia; intros; try contradiction; lia.
    + cbn [chunk_loop].
      set (l0 := x :: l) in *.
      assert (Hl0 : (1 <= List.length l0)%nat) by (unfold l0; simpl; lia).
      assert (Hrest : (List.length (skipn size l0) <= fuel)%nat)
        by (rewrite length_skipn; lia).
      destruct (IH (skipn size l0) Hrest) as (C1 & C2 & C3 & C4 & C5).
      cbv zeta in *.
      set (rest := chunk_loop fuel size (skipn size l0)) in *.
      assert (Hfirst : List.length (firstn size l0)
                       = Nat.min size (List.length l0))
        by apply length_firstn.
      split; [|split; [|split; [|split]]].
      * cbn [List.concat]. rewrite C1. apply firstn_skipn.
      * intros c0 Hc0. destruct Hc0 as [<- | Hin];
          [lia | apply C2; exact Hin].
      * intros i Hi. cbn [List.length] in Hi. destruct i as [|i].
        -- cbn [nth]. rewrite Hfirst.
           destruct rest as [|c rest']; [simpl in Hi; lia|].
           assert (Hc : (1 <= List.length c)%nat)
             by (apply (C2 c); left; reflexivity).
           assert (Hsk : (1 <= List.length (skipn size l0))%nat).
           { rewrite <- C1. cbn [List.concat]. rewrite length_app. lia. }
           rewrite length_skipn in Hsk. lia.
        -- cbn [nth]. apply C3. lia.
      * cbn [List.length]. rewrite length_skipn in C4.
        clear - C4 Hl0 Hsize.
        destruct (List.length rest); cbn [Nat.mul] in *; lia.
      * cbn [List.length]. rewrite length_skipn in C5.
        clear - C5 Hl0 Hsize.
        destruct (List.length rest); cbn [Nat.mul] in *; lia.
Qed.

(** X10.  For a positive size, [chunkArray] cuts the array into its
    consecutive pieces: put end to end the chunks are the array, no chunk
    is empty or longer than the size, every chunk but the last has exactly
    the size, and there are as many chunks as the length of the array
    divided by the size, rounded up. *)
Theorem chunkArray_partition :
  forall (A : Type) (array : list A) (size : nat),
    (0 < size)%nat ->
    let chunks := chunkArray array size in
    List.concat chunks = array
    /\ (forall c, In c chunks -> (1 <= List.length c <= size)%nat)
    /\ (forall i, (S i < List.length chunks)%nat ->
                  List.length (nth i chunks []) = size)
    /\ List.length chunks = ((List.length array + size - 1) / size)%nat.
Proof.
  intros A array size Hsize chunks. subst chunks. unfold chunkArray.
  destruct (chunk_loop_facts size Hsize (List.length array) array (le_n _))
    as (C1 & C2 & C3 & C4 & C5).
  cbv zeta in *. repeat split; try assumption.
  - apply C2; assumption.
  - apply C2; assumption.
  - set (n := List.length (chunk_loop (List.length array) size array)) in *.
    apply Nat.div_unique
      with (r := (List.length array + size - 1 - size * n)%nat);
      clear - C4 C5 Hsize; nia.
Qed.

Lemma chunkArray_partition_witness :
  List.concat (chunkArray (seq 0 12) 5) = seq 0 12
  /\ List.length (chunkArray (seq 0 12) 5) = 3%nat.
Proof.
  destruct (chunkArray_partition nat (seq 0 12) 5 ltac:(lia))
    as (H1 & _ & _ & H4).
  split; [exact H1 | exact H4].
Defined.

End Chunks.

(** ** The sync run: reports, counts and the conversion of the events *)

Module SyncRun.
Import JSString JSNumber JSDate GoogleCalendarService Spec Props Tools.
Import Mapper Sync.
#[local] Open Scope list_scope.

Lemma convertToCalendarEvent_title (env : Env) (ev : ParsedTimetableEvent.t)
    (p : CalendarEvent.t) :
  convertToCalendarEvent env ev = Ok p ->
  CalendarEvent.title p = ParsedTimetableEvent.title ev.
Proof.
  unfold convertToCalendarEvent, bind.
  destruct (parseTimeRange env _ _) as [range|]; [|discriminate].
  destruct (toISOString (fst range)); [|discriminate].
  destruct (toISOString (snd range)); [|discriminate].
  intros H.
  apply (f_equal (fun r : result CalendarEvent.t =>
                    match r with
                    | Ok c => CalendarEvent.title c
                    | Throw _ => EmptyString
                    end)) in H.
  cbv beta iota in H. cbn [CalendarEvent.title] in H. symmetry. exact H.
Qed.

Lemma mapM_titles (env : Env) (events : list ParsedTimetableEvent.t)
    (calendarEvents : list CalendarEvent.t) :
  mapM (convertToCalendarEvent env) events = Ok calendarEvents ->
  map CalendarEvent.title calendarEvents
  = map ParsedTimetableEvent.title events.
Proof.
  revert calendarEvents.
  induction events as [|ev events IH]; intros calendarEvents;
    cbn [mapM map].
  - intros H. injection H as <-. reflexivity.
  - destruct (convertToCalendarEvent env ev) as [p|e] eqn:E;
      cbn [bind]; [|discriminate].
    destruct (mapM (convertToCalendarEvent env) events) as [ps|e];
      cbn [bind]; [|discriminate].
    intros H. injection H as <-. cbn [map].
    rewrite (IH ps eq_refl), (convertToCalendarEvent_title env ev p E).
    reflexivity.
Qed.

Lemma mapM_all_ok (env : Env) (events : list ParsedTimetableEvent.t) :
  (forall ev, In ev events -> is_ok (convertToCalendarEvent env ev) = true) ->
  exists calendarEvents,
    mapM (convertToCalendarEvent env) events = Ok calendarEvents.
Proof.
  intros H. destruct (mapM_convert env events H) as (c & Hc & _).
  exists c. exact Hc.
Qed.

Lemma number_from_map {A B : Type} (f : A -> B) (i : nat) (l : list A) :
  number_from i (map f l)
  = map (fun c => (fst c, f (snd c))) (number_from i l).
Proof.
  revert i. induction l as [|x l IH]; intros i; cbn [map number_from];
    [reflexivity|].
  rewrite IH. reflexivity.
Qed.

Section Reports.

Variable createEvent : nat -> CalendarEvent.t -> result string.

Lemma report_progress (total : nat) (calls : list Call) (run : Run) :
  progress (fold_left (report total) calls run)
  = progress run
      ++ map (fun c => Progress.mk (fst c) total (CalendarEvent.title (snd c)))
           calls.
Proof.
  revert run. induction calls as [|[i e] calls IH]; intros run;
    cbn [fold_left map].
  - rewrite app_nil_r. reflexivity.
  - rewrite IH. cbn [report progress fst snd]. rewrite <- app_assoc.
    reflexivity.
Qed.

Lemma run_batches_progress (sched : Schedule) (total : nat)
    (batches : list (list CalendarEvent.t)) (run : Run) (batchIndex : nat) :
  progress (run_batches createEvent sched total run batchIndex batches)
  = progress run
      ++ map (fun c => Progress.mk (fst c) total (CalendarEvent.title (snd c)))
           (all_calls batchIndex batches).
Proof.
  revert run batchIndex.
  induction batches as [|batch rest IH]; intros run batchIndex;
    cbn [run_batches all_calls map].
  - rewrite app_nil_r. reflexivity.
  - rewrite IH. unfold run_batch.
    destruct (settle_fold createEvent
                (sched (number_from (batchIndex * batchSize) batch))
                (fold_left (report total)
                   (number_from (batchIndex * batchSize) batch) run))
      as (_ & _ & _ & Hp).
    cbv zeta in Hp. rewrite Hp, report_progress, map_app, app_assoc.
    reflexivity.
Qed.

End Reports.

(** X11.  When every event maps to a payload, the progress callback
    receives one report for each event, in the order of the events, with
    the position of the event as [completed], the number of events as
    [total] and the title of the event, and then one last report, "Sync
    completed".  The reports are the same whatever the calls come to and
    whatever the order in which they settle: a report is made when a call
    is started. *)
Theorem syncEvents_progress_reports :
  forall (env : Env) (createEvent : nat -> CalendarEvent.t -> result string)
         (sched : Schedule) (calendarId : string)
         (events : list ParsedTimetableEvent.t),
    (forall ev, In ev events -> is_ok (convertToCalendarEvent env ev) = true) ->
    exists result,
      syncEvents env createEvent sched calendarId events
      = Ok (result, reports_of events).
Proof.
  intros env createEvent sched calendarId events Hall.
  destruct (mapM_convert env events Hall) as (cal & Hmap & Hids).
  pose proof (mapM_titles env events cal Hmap) as Htitles.
  assert (Hlen : List.length cal = List.length events).
  { rewrite <- (length_map CalendarEvent.id cal), Hids. apply length_map. }
  unfold syncEvents. rewrite Hmap. eexists. f_equal. f_equal.
  rewrite run_batches_progress. cbn [progress app].
  unfold chunkArray. rewrite all_calls_chunks by lia.
  unfold reports_of. rewrite Hlen. f_equal.
  cbn [Nat.mul].
  transitivity
    (map (fun c : nat * string =>
            Progress.mk (fst c) (List.length events) (snd c))
       (number_from 0 (map CalendarEvent.title cal))).
  - rewrite number_from_map, map_map. reflexivity.
  - rewrite Htitles, number_from_map, map_map. reflexivity.
Qed.

Lemma syncEvents_progress_reports_witness :
  exists result,
    syncEvents utc_host always_fails last_first "primary" two_events
    = Ok (result,
          [Progress.mk 0 2 "Algorithms"; Progress.mk 1 2 "Algorithms";
           Progress.mk 2 2 "Sync completed"]).
Proof.
  apply (syncEvents_progress_reports utc_host always_fails last_first
           "primary" two_events).
  intros ev [<- | [<- | []]]; vm_compute; reflexivity.
Defined.

Lemma outcomes_partition
    (createEvent : nat -> CalendarEvent.t -> result string)
    (calls : list Call) :
  (created_of createEvent calls + failed_of createEvent calls
   = List.length calls)%nat
  /\ List.length (errors_of createEvent calls) = failed_of createEvent calls.
Proof.
  unfold created_of, failed_of, errors_of, call_failed, call_ok, error_of.
  induction calls as [|[i e] calls [IH1 IH2]]; [split; reflexivity|].
  cbn [filter flat_map fst snd List.length].
  destruct (createEvent i e); cbn [is_ok negb List.length app];
    rewrite ?length_app; cbn [List.length]; split; lia.
Qed.

Lemma number_from_length {A : Type} (i : nat) (l : list A) :
  List.length (number_from i l) = List.length l.
Proof.
  revert i. induction l as [|x l IH]; intros i; cbn [number_from List.length];
    [reflexivity|].
  rewrite IH. reflexivity.
Qed.

(** X12.  When every event maps to a payload, every event is counted
    once, whatever the order in which the calls of a batch settle: the
    created and the failed events together are the events given, there is
    one entry of [errors] for each failed event, no event is ever counted
    as updated, and the result carries the calendar id that was given. *)
Theorem syncEvents_counts_every_event :
  forall (env : Env) (createEvent : nat -> CalendarEvent.t -> result string)
         (sched : Schedule) (calendarId : string)
         (events : list ParsedTimetableEvent.t),
    fair sched ->
    (forall ev, In ev events -> is_ok (convertToCalendarEvent env ev) = true) ->
    exists result progress,
      syncEvents env createEvent sched calendarId events
      = Ok (result, progress)
      /\ (SyncResult.eventsCreated result + SyncResult.eventsFailed result
          = List.length events)%nat
      /\ List.length (SyncResult.errors result)
         = SyncResult.eventsFailed result
      /\ SyncResult.eventsUpdated result = 0%nat
      /\ SyncResult.calendarId result = calendarId.
Proof.
  intros env createEvent sched calendarId events Hfair Hall.
  destruct (mapM_convert env events Hall) as (cal & Hmap & Hids).
  assert (Hlen : List.length cal = List.length events).
  { rewrite <- (length_map CalendarEvent.id cal), Hids. apply length_map. }
  unfold syncEvents. rewrite Hmap.
  destruct (run_batches_counts createEvent sched (List.length cal)
              (chunkArray cal batchSize) (mkRun 0 0 [] []) 0 Hfair)
    as (H1 & H2 & es & H3 & H4).
  cbv zeta in *. unfold chunkArray in *.
  rewrite all_calls_chunks in * by lia.
  cbn [eventsCreated eventsFailed errors Nat.mul Nat.add app] in *.
  destruct (outcomes_partition createEvent (number_from 0 cal)) as [P1 P2].
  rewrite (number_from_length 0 cal
           : @List.length Call (number_from 0 cal) = List.length cal) in P1.
  eexists _, _. split; [reflexivity|].
  cbn [SyncResult.eventsCreated SyncResult.eventsFailed SyncResult.errors
         SyncResult.eventsUpdated SyncResult.calendarId].
  rewrite H1, H2, H3. repeat split; try lia.
  rewrite (Permutation_length H4). exact P2.
Qed.

Lemma syncEvents_counts_every_event_witness :
  exists result progress,
    syncEvents utc_host fourth_fails last_first "primary" seven_events
    = Ok (result, progress)
    /\ (SyncResult.eventsCreated result + SyncResult.eventsFailed result
        = 7)%nat
    /\ List.length (SyncResult.errors result)
       = SyncResult.eventsFailed result
    /\ SyncResult.eventsUpdated result = 0%nat
    /\ SyncResult.calendarId result = "primary".
Proof.
  apply (syncEvents_counts_every_event utc_host fourth_fails last_first
           "primary" seven_events).
  - intros batch. unfold last_first. apply Permutation_rev.
  - intros ev Hin. unfold seven_events in Hin. cbn in Hin.
    repeat (destruct Hin as [<- | Hin]; [vm_compute; reflexivity|]).
    contradiction.
Defined.

Lemma mapM_throws {A B : Type} (f : A -> result B) (l : list A) (x : A) :
  In x l -> is_ok (f x) = false -> exists e, mapM f l = Throw e.
Proof.
  induction l as [|y l IH]; intros Hin Hx; [contradiction|].
  cbn [mapM]. destruct (f y) as [b|e] eqn:E; cbn [bind].
  - destruct Hin as [-> | Hin]; [rewrite E in Hx; discriminate Hx|].
    destruct (IH Hin Hx) as (e & ->). cbn [bind]. eexists; reflexivity.
  - eexists; reflexivity.
Qed.

(** X13.  When one of the events does not map to a payload, [syncEvents]
    throws an error "Failed to sync events: ...", whatever the other
    events are: no result is returned, and the error is the same whatever
    the calendar does, for no call is made. *)
Theorem syncEvents_throws_on_unmapped_event :
  forall (env : Env) (events : list ParsedTimetableEvent.t)
         (ev : ParsedTimetableEvent.t),
    In ev events -> is_ok (convertToCalendarEvent env ev) = false ->
    exists message,
      forall (createEvent : nat -> CalendarEvent.t -> result string)
             (sched : Schedule) (calendarId : string),
        syncEvents env createEvent sched calendarId events
        = Throw (Error ("Failed to sync events: " ++ message)).
Proof.
  intros env events ev Hin Hbad.
  destruct (mapM_throws (convertToCalendarEvent env) events ev Hin Hbad)
    as (e & He).
  exists (message_of e). intros createEvent sched calendarId.
  unfold syncEvents. rewrite He. reflexivity.
Qed.

Lemma syncEvents_throws_on_unmapped_event_witness :
  exists message,
    forall (createEvent : nat -> CalendarEvent.t -> result string)
           (sched : Schedule) (calendarId : string),
      syncEvents utc_host createEvent sched calendarId one_bad_time
      = Throw (Error ("Failed to sync events: " ++ message)).
Proof.
  apply (syncEvents_throws_on_unmapped_event utc_host one_bad_time
           (event_at "2024-03-15" "noon")).
  - right; left; reflexivity.
  - reflexivity.
Defined.

End SyncRun.

(** ** Code fences around a reply ([cleanContent]) *)

Module Fences.
Import JSString JSNumber JSValue LLMTimetableParser Spec Props Tools Clock Texts.

Lemma prefix_cons (a b : ascii) (p s : string) :
  prefix (String a p) (String b s) = Ascii.eqb b a && prefix p s.
Proof.
  cbn [prefix]. destruct (ascii_dec a b) as [->|Hne].
  - rewrite Ascii.eqb_refl. reflexivity.
  - assert (H : Ascii.eqb b a = false) by (apply Ascii.eqb_neq; congruence).
    rewrite H. reflexivity.
Qed.

Lemma prefix_nil (s : string) : prefix EmptyString s = true.
Proof. destruct s; reflexivity. Qed.

Lemma prefix_empty (a : ascii) (p : string) :
  prefix (String a p) EmptyString = false.
Proof. reflexivity. Qed.

Lemma prefix_fence (s : string) :
  prefix "```" s = (3 <=? leading "`" s)%nat.
Proof.
  destruct s as [|a [|b [|c r]]]; cbn [leading];
    rewrite ?prefix_cons, ?prefix_empty, ?prefix_nil, ?andb_false_r;
    repeat match goal with
           | |- context [Ascii.eqb ?x "`"] => destruct (Ascii.eqb x "`")
           end; reflexivity.
Qed.

Lemma includes_cons (c : ascii) (s p : string) :
  includes (String c s) p = prefix p (String c s) || includes s p.
Proof. reflexivity. Qed.

Lemma no_fence_leading (s : string) :
  includes s "```" = false -> (leading "`" s <= 2)%nat.
Proof.
  intros H. destruct (prefix "```" s) eqn:P.
  - rewrite (includes_here s _ P) in H. discriminate H.
  - rewrite prefix_fence in P. apply Nat.leb_gt in P. lia.
Qed.

(** What the removal of the fences gives holds no fence, and starts
    with no more backticks than the text it was given. *)
Lemma strip_fence_inv (n : nat) :
  forall s : string,
    (String.length s <= n)%nat ->
    (forall skip nl, includes (strip "```" skip nl s) "```" = false)
    /\ (leading "`" (strip "```" 0 false s) <= leading "`" s)%nat.
Proof.
  induction n as [|n IH]; intros s Hlen.
  - destruct s; [|cbn [String.length] in Hlen; lia].
    split; [intros skip nl; reflexivity | cbn; lia].
  - destruct s as [|c r]; [split; [intros skip nl; reflexivity | cbn; lia]|].
    cbn [String.length] in Hlen.
    destruct (IH r ltac:(lia)) as [A B].
    assert (Hemit : prefix "```" (String c r) = false ->
                    includes (String c (strip "```" 0 false r)) "```" = false).
    { intros P. rewrite includes_cons, A, orb_false_r.
      rewrite prefix_fence in *. apply Nat.leb_gt in P. apply Nat.leb_gt.
      cbn [leading] in *. destruct (Ascii.eqb c "`"); lia. }
    split.
    + intros skip nl. cbn [strip]. destruct skip as [|k]; [|apply A].
      destruct (nl && is_newline c); [apply A|].
      destruct (prefix "```" (String c r)) eqn:P; [apply A|].
      apply Hemit. reflexivity.
    + cbn [strip andb]. destruct (prefix "```" (String c r)) eqn:P.
      * pose proof (no_fence_leading _ (A (String.length "```" - 1)%nat true)) as H.
        rewrite prefix_fence in P. apply Nat.leb_le in P. lia.
      * cbn [leading]. destruct (Ascii.eqb c "`"); lia.
Qed.

Lemma strip_no_fence (skip : nat) (nl : bool) (s : string) :
  includes (strip "```" skip nl s) "```" = false.
Proof. apply (strip_fence_inv (String.length s) s (le_n _)). Qed.

Lemma prefix_append_l (p a b : string) :
  prefix p a = true -> prefix p (a ++ b) = true.
Proof.
  revert a. induction p as [|c p IH]; intros a H; [apply prefix_nil|].
  destruct a as [|x a]; [discriminate H|].
  cbn [append]. rewrite prefix_cons in *.
  apply andb_true_iff in H. destruct H as [-> H]. apply IH. exact H.
Qed.

Lemma includes_append_l (a b p : string) :
  includes a p = true -> includes (a ++ b) p = true.
Proof.
  induction a as [|c a IH]; intros H.
  - cbn [includes] in H. rewrite orb_false_r in H.
    apply includes_here. apply (prefix_append_l p EmptyString b H).
  - rewrite includes_cons in H. cbn [append]. rewrite includes_cons.
    apply orb_true_iff in H. destruct H as [H|H].
    + pose proof (prefix_append_l p (String c a) b H) as H'.
      cbn [append] in H'. rewrite H'. reflexivity.
    + rewrite (IH H). apply orb_true_r.
Qed.

Lemma trimStart_suffix (s : string) : exists a, s = a ++ trimStart s.
Proof.
  induction s as [|c s (a & IH)]; [exists EmptyString; reflexivity|].
  cbn [trimStart]. destruct (is_space c).
  - exists (String c a). cbn [append]. f_equal. exact IH.
  - exists EmptyString. reflexivity.
Qed.

Lemma trimEnd_prefix (s : string) : exists b, s = trimEnd s ++ b.
Proof.
  induction s as [|c s (b & IH)]; [exists EmptyString; reflexivity|].
  cbn [trimEnd]. destruct (is_space c && is_empty (trimEnd s)).
  - exists (String c s). reflexivity.
  - exists b. cbn [append]. f_equal. exact IH.
Qed.

(** Trimming brings in no text that was not there. *)
Lemma includes_trim (s p : string) :
  includes s p = false -> includes (trim s) p = false.
Proof.
  intros H. destruct (includes (trim s) p) eqn:E; [|reflexivity].
  unfold trim in E. destruct (trimEnd_prefix (trimStart s)) as (b & Hb).
  destruct (trimStart_suffix s) as (a & Ha).
  apply (includes_append_l _ b) in E. rewrite <- Hb in E.
  apply (includes_append a) in E. rewrite <- Ha in E. congruence.
Qed.

(** X14.  The text that [cleanContent] gives to the JSON parser holds no
    code fence: no three backticks in a row are left anywhere in it,
    whatever the reply was. *)
Theorem cleanContent_no_fence :
  forall content : string, includes (cleanContent content) "```" = false.
Proof.
  intros content. unfold cleanContent. apply includes_trim, strip_no_fence.
Qed.

Lemma strip_plain (p' body rest : string) :
  has_char "`" body = false ->
  strip (String "`" p') 0 false (body ++ rest)
  = body ++ strip (String "`" p') 0 false rest.
Proof.
  induction body as [|c body IH]; intros H; [reflexivity|].
  cbn [has_char] in H. apply orb_false_iff in H. destruct H as [Hc H].
  cbn [append strip andb]. rewrite prefix_cons, Hc. cbn [andb].
  rewrite (IH H). reflexivity.
Qed.

Lemma strip_skip (pat a r : string) (nl : bool) :
  strip pat (String.length a) nl (a ++ r) = strip pat 0 nl r.
Proof.
  induction a as [|c a IH]; [reflexivity|].
  cbn [String.length append strip]. exact IH.
Qed.

(** An occurrence of the pattern is dropped, with the line feed that
    follows it. *)
Lemma strip_occurrence (c : ascii) (p' r : string) :
  strip (String c p') 0 false (String c p' ++ r) = strip (String c p') 0 true r.
Proof.
  pose proof (prefix_append (String c p') r) as P.
  cbn [append] in *. cbn [strip andb]. rewrite P.
  cbn [String.length]. rewrite Nat.sub_1_r. cbn [Nat.pred].
  apply strip_skip.
Qed.

Lemma strip_line_feed (pat r : string) :
  strip pat 0 true (line_feed ++ r) = strip pat 0 false r.
Proof. reflexivity. Qed.

Lemma strip_other_fence (r : string) :
  strip "```json" 0 false ("```" ++ line_feed ++ r)
  = "```" ++ line_feed ++ strip "```json" 0 false r.
Proof.
  unfold line_feed. cbn [append strip andb]. rewrite !prefix_cons.
  reflexivity.
Qed.

Lemma trimEnd_append_space (c : ascii) (s : string) :
  is_space c = true -> trimEnd (s ++ String c EmptyString) = trimEnd s.
Proof.
  intros Hc. induction s as [|a s IH].
  - cbn [append trimEnd is_empty]. rewrite Hc. reflexivity.
  - cbn [append trimEnd]. rewrite IH. reflexivity.
Qed.

Lemma trim_append_space (c : ascii) (s : string) :
  is_space c = true -> trim (s ++ String c EmptyString) = trim s.
Proof.
  intros Hc. unfold trim. induction s as [|a s IH].
  - cbn [append trimStart]. rewrite Hc. reflexivity.
  - cbn [append trimStart]. destruct (is_space a); [exact IH|].
    apply (trimEnd_append_space c (String a s) Hc).
Qed.

(** X15.  A reply that is a text on lines of its own between two code
    fences, the opening one with or without the word json: when the text
    holds no backtick, [cleanContent] gives the text itself, without the
    white space around it. *)
Theorem cleanContent_fenced_reply :
  forall opening body : string,
    In opening ["```json"; "```"] ->
    has_char "`" body = false ->
    cleanContent (fenced opening body) = trim body.
Proof.
  intros opening body Ho Hb. unfold cleanContent, fenced.
  assert (E1 : strip "```json" 0 false (line_feed ++ "```") = line_feed ++ "```")
    by reflexivity.
  assert (E2 : strip "```" 0 false (line_feed ++ "```") = line_feed)
    by reflexivity.
  assert (E : strip "```json" 0 false
                (opening ++ line_feed ++ body ++ line_feed ++ "```")
              = strip "```json" 0 false ("```" ++ line_feed ++ body ++ line_feed ++ "```")
                \/ strip "```json" 0 false
                     (opening ++ line_feed ++ body ++ line_feed ++ "```")
                   = body ++ line_feed ++ "```").
  { destruct Ho as [<- | [<- | []]]; [right | left; reflexivity].
    rewrite (strip_occurrence "`" "``json"), strip_line_feed.
    rewrite (strip_plain "``json" body _ Hb), E1. reflexivity. }
  assert (E3 : strip "```" 0 false (body ++ line_feed ++ "```") = body ++ line_feed).
  { rewrite (strip_plain "``" body _ Hb), E2. reflexivity. }
  destruct E as [-> | ->].
  - rewrite strip_other_fence, (strip_plain "``json" body _ Hb), E1.
    rewrite (strip_occurrence "`" "``"), strip_line_feed, E3.
    apply trim_append_space. reflexivity.
  - rewrite E3. apply trim_append_space. reflexivity.
Qed.

Lemma cleanContent_fenced_reply_witness :
  cleanContent (fenced "```json" " {} ") = "{}".
Proof.
  apply (cleanContent_fenced_reply "```json" " {} ");
    [left; reflexivity | reflexivity].
Defined.

End Fences.

(** ** The date given to an event without one ([getNextWeekday] of the
    model parser) *)

Module NextDay.
Import JSString JSNumber JSDate JSValue Spec Props Tools Clock Rows.
Import Validation.

(** X16.  [getNextWeekday] of the model parser gives the date, in UTC,
    of the instant at which the host reads the local time of now [k] days
    later, with [k] from 0 to 6: the local day of that time is the
    weekday asked, and [k] is 0 exactly when today is that weekday on the
    host.  On a host whose clocks never change the instant is [k] days
    after now. *)
Theorem getNextWeekday_may_be_today :
  forall (env : Env) (d : Z),
    host_ok env -> (0 <= d <= 6)%Z ->
    exists k : Z,
      (0 <= k <= 6)%Z
      /\ LLMTimetableParser.getNextWeekday env d
         = Ok (iso_date (UTC env (LocalTime env (now env) + k * msPerDay)))
      /\ week_day ((LocalTime env (now env) + k * msPerDay) / msPerDay) = d
      /\ (week_day (LocalTime env (now env) / msPerDay) = d <-> k = 0%Z)
      /\ (forall c, fixed_offset env c ->
                    UTC env (LocalTime env (now env) + k * msPerDay)
                    = (now env + k * msPerDay)%Z).
Proof.
  intros env d Hok Hd.
  destruct (Validation.getNextWeekday_target0 env d Hok Hd)
    as (k & Hk & Hg & Hw & H0).
  exists k. split; [exact Hk|]. split; [exact Hg|]. split; [exact Hw|].
  split; [exact H0|].
  intros c Hc.
  rewrite (UTC_fixed env c _ Hc), (LocalTime_fixed env c _ Hc). lia.
Qed.

Lemma getNextWeekday_may_be_today_witness :
  LLMTimetableParser.getNextWeekday utc_host 6 = Ok "2024-03-09"
  /\ LLMTimetableParser.getNextWeekday evening_host 0 = Ok "2024-03-10".
Proof.
  split.
  - destruct (getNextWeekday_may_be_today utc_host 6)
      as (k & _ & H & _ & H0 & _).
    + apply host_at_ok; lia.
    + lia.
    + rewrite H. replace k with 0%Z by (symmetry; apply H0; reflexivity).
      reflexivity.
  - destruct (getNextWeekday_may_be_today evening_host 0)
      as (k & Hk & H & Hw & _).
    + apply host_ok_at_time; [exact spring_host_ok | lia].
    + lia.
    + rewrite H.
      change (LocalTime evening_host (now evening_host))
        with 1710012600000%Z in *.
      assert (E : k = 1%Z)
        by (clear - Hk Hw; unfold week_day, msPerDay in Hw; zlia).
      subst k. vm_compute. reflexivity.
Defined.

End NextDay.

(** ** Parsing with a provider ([parseWithOpenAI], [parseWithGemini]) *)

Module Providers.
Import JSString JSNumber JSDate JSValue LLMTimetableParser Spec Props.

Lemma parseJSONResponse_try_shape (env : Env) (clock : nat -> Z)
    (content : string) (r : ParseResult.t) :
  parseJSONResponse_try env clock content = Ok r ->
  ParseResult.success r = true
  /\ ParseResult.errors r = None
  /\ ParseResult.rawResponse r = Some (JString content).
Proof.
  unfold parseJSONResponse_try, bind.
  repeat match goal with
         | |- context [match ?x with Ok _ => _ | Throw _ => _ end] =>
             destruct x; try discriminate
         | |- context [match ?x with Some _ => _ | None => _ end] =>
             destruct x; try discriminate
         | |- context [match ?x with JArray _ => _ | _ => _ end] =>
             destruct x; try discriminate
         end;
    intros H; injection H as <-; repeat split.
Qed.

(** The answer of [parseJSONResponse] has the events of a success, or
    no event, confidence 0 and one message. *)
Lemma parseJSONResponse_cases (env : Env) (clock : nat -> Z) (content : string) :
  let r := parseJSONResponse env clock content in
  (ParseResult.success r = true
   /\ ParseResult.errors r = None
   /\ ParseResult.rawResponse r = Some (JString content))
  \/ (ParseResult.success r = false
      /\ ParseResult.events r = Validated []
      /\ ParseResult.confidence r = JNumber 0 0
      /\ exists message, ParseResult.errors r = Some [message]).
Proof.
  unfold parseJSONResponse.
  destruct (parseJSONResponse_try env clock content) as [r|e] eqn:E.
  - left. eapply parseJSONResponse_try_shape; eassumption.
  - right. repeat split. eexists; reflexivity.
Qed.

(** X17.  Parsing with a provider always returns a result, whatever the
    request comes to.  A result that is not a success has no event,
    confidence 0 and one error message.  A success comes only from an
    answer of the provider that was accepted and carries a text that is
    not empty: the result is the one of [parseJSONResponse] on that
    text, it carries the text as its raw response and has no error. *)
Theorem parseWith_fails_closed :
  forall (env : Env) (clock : nat -> Z) (p : Provider) (outcome : FetchOutcome),
    let r := parseWith env clock p outcome in
    (ParseResult.success r = false ->
     ParseResult.events r = Validated []
     /\ ParseResult.confidence r = JNumber 0 0
     /\ exists message, ParseResult.errors r = Some [message])
    /\ (ParseResult.success r = true ->
        exists status statusText data text,
          outcome = Response true status statusText (Ok data)
          /\ reply_content p data = Ok (Some (JString text))
          /\ text <> EmptyString
          /\ r = parseJSONResponse env clock text
          /\ ParseResult.errors r = None
          /\ ParseResult.rawResponse r = Some (JString text)).
Proof.
  intros env clock p outcome r. subst r.
  unfold parseWith, parseWith_try.
  assert (Hfail : forall (m : string) (raw : value),
            let r := ParseResult.mk false (Validated []) (JNumber 0 0)
                       (Some [m]) raw None in
            (ParseResult.success r = false ->
             ParseResult.events r = Validated []
             /\ ParseResult.confidence r = JNumber 0 0
             /\ exists message, ParseResult.errors r = Some [message])
            /\ (ParseResult.success r = true ->
                exists status statusText data text,
                  outcome = Response true status statusText (Ok data)
                  /\ reply_content p data = Ok (Some (JString text))
                  /\ text <> EmptyString
                  /\ r = parseJSONResponse env clock text
                  /\ ParseResult.errors r = None
                  /\ ParseResult.rawResponse r = Some (JString text))).
  { intros m raw r. split.
    - intros _. repeat split. eexists; reflexivity.
    - intros H. discriminate H. }
  destruct outcome as [e | ok st tx body]; [apply Hfail|].
  destruct ok; cbn [negb]; [|apply Hfail].
  destruct body as [data|e]; cbn [bind]; [|apply Hfail].
  destruct (reply_content p data) as [content|e] eqn:Hc; cbn [bind];
    [|apply Hfail].
  destruct (truthy content) eqn:Ht; cbn [negb]; [|apply Hfail].
  destruct content as [[| b | m e | s | l | o]|]; try apply Hfail.
  destruct (parseJSONResponse_cases env clock s) as [(Hs & He & Hr) | (Hs & Hf)];
    cbv zeta in *.
  - split; [intros H; rewrite Hs in H; discriminate H|].
    intros _. exists st, tx, data, s. repeat split; try assumption.
    intros ->. discriminate Ht.
  - split; [intros _; exact Hf|].
    intros H. rewrite Hs in H. discriminate H.
Qed.

End Providers.

(** ** Rooms and buildings ([parseLocation]) *)

Module Places.
Import JSString JSNumber JSValue LocalFileParser Spec Props Tools Clock.

Lemma split_aux_no_char (c0 : ascii) (b cur : string) :
  all_chars (differs_from c0) b = true ->
  split_aux (String c0 EmptyString) 0 cur b
  = [rev_string EmptyString (rev_string cur b)].
Proof.
  revert cur. induction b as [|c b IH]; intros cur Hb; [reflexivity|].
  cbn [all_chars] in Hb. apply andb_true_iff in Hb. destruct Hb as [Hc Hb].
  unfold differs_from in Hc. apply negb_true_iff in Hc.
  cbn [split_aux]. rewrite prefix_char, Hc. cbn [rev_string].
  apply IH. exact Hb.
Qed.

Lemma split_no_char (c0 : ascii) (b : string) :
  all_chars (differs_from c0) b = true ->
  split (String c0 EmptyString) b = [b].
Proof.
  intros Hb. unfold split. rewrite split_aux_no_char by assumption.
  rewrite rev_string_twice. cbn [rev_string]. rewrite append_nil_r.
  reflexivity.
Qed.

(** X18.  A location without a comma is kept as it is: it is the room
    when it holds the word room, in any letter case, and the building
    otherwise.  A location with a comma is never looked at for that
    word: the text before the first comma is the room and the text after
    it, up to the next comma, is the building, both without the white
    space around them; what follows a second comma is dropped. *)
Theorem parseLocation_parts :
  forall a : string,
    all_chars (differs_from ",") a = true ->
    parseLocation a
    = (if includes (toLowerCase a) "room" then (Some a, None)
       else (None, Some a))
    /\ forall b tail : string,
         all_chars (differs_from ",") b = true ->
         tail = EmptyString \/ (exists rest, tail = "," ++ rest) ->
         parseLocation (a ++ "," ++ b ++ tail) = (Some (trim a), Some (trim b)).
Proof.
  intros a Ha. split.
  - unfold parseLocation. rewrite (split_no_char "," a Ha). reflexivity.
  - intros b tail Hb Ht. unfold parseLocation.
    change (a ++ "," ++ b ++ tail) with (a ++ String "," (b ++ tail)).
    rewrite (split_at_char "," a (b ++ tail) Ha).
    destruct Ht as [-> | (rest & ->)].
    + rewrite append_nil_r, (split_no_char "," b Hb). reflexivity.
    + change (b ++ "," ++ rest) with (b ++ String "," rest).
      rewrite (split_at_char "," b rest Hb). reflexivity.
Qed.

Lemma parseLocation_parts_witness :
  parseLocation "Main Building, Room 5"
  = (Some "Main Building", Some "Room 5").
Proof.
  destruct (parseLocation_parts "Main Building" eq_refl) as [_ H].
  apply (H " Room 5" EmptyString eq_refl). left. reflexivity.
Defined.

End Places.

(** ** Files ([detectFileType], [parseText]) *)

Module Files.
Import JSString JSNumber JSDate JSValue LocalFileParser Spec Props Tools Clock Texts.

Lemma endsWith_append (a b : string) : endsWith (a ++ b) b = true.
Proof.
  induction a as [|c a IH].
  - cbn [append]. destruct b; cbn [endsWith]; rewrite String.eqb_refl;
      reflexivity.
  - cbn [append endsWith]. rewrite IH. apply orb_true_r.
Qed.

(** X19.  A file is read as CSV as soon as its name ends in .csv or its
    type mentions csv, in any letter case, whatever the other of the two
    says: a sheet named .xlsx whose type mentions csv is read as CSV. *)
Theorem detectFileType_csv_first :
  forall file : File.t,
    (exists stem ext, File.name file = stem ++ ext /\ toLowerCase ext = ".csv")
    \/ (exists a x b, File.type file = a ++ x ++ b /\ toLowerCase x = "csv") ->
    detectFileType file = FileType.csv.
Proof.
  intros file H. unfold detectFileType.
  destruct H as [(stem & ext & -> & He) | (a & x & b & -> & Hx)].
  - unfold toLowerCase at 1. rewrite map_chars_append.
    fold (toLowerCase ext). rewrite He, endsWith_append. reflexivity.
  - unfold toLowerCase at 2. rewrite !map_chars_append.
    fold (toLowerCase x). rewrite Hx, includes_middle.
    rewrite orb_true_r. reflexivity.
Qed.

Lemma detectFileType_csv_first_witness :
  detectFileType (File.mk "Timetable.xlsx" "text/CSV") = FileType.csv.
Proof.
  apply detectFileType_csv_first. right.
  exists "text/", "CSV", EmptyString. split; reflexivity.
Defined.

Lemma includes_char (c : ascii) (s : string) :
  includes s (String c EmptyString) = has_char c s.
Proof.
  induction s as [|a s IH]; [reflexivity|].
  cbn [includes has_char]. rewrite prefix_char, IH. reflexivity.
Qed.

Lemma space_not_char (c a : ascii) :
  is_space c = false -> is_space a = true -> Ascii.eqb a c = false.
Proof.
  intros Hc Ha. apply Ascii.eqb_neq. intros ->. congruence.
Qed.

Lemma has_char_trimStart (c : ascii) (s : string) :
  is_space c = false -> has_char c (trimStart s) = has_char c s.
Proof.
  intros Hc. induction s as [|a s IH]; [reflexivity|].
  cbn [trimStart]. destruct (is_space a) eqn:Ea; [|reflexivity].
  cbn [has_char]. rewrite (space_not_char c a Hc Ea). exact IH.
Qed.

Lemma has_char_trimEnd (c : ascii) (s : string) :
  is_space c = false -> has_char c (trimEnd s) = has_char c s.
Proof.
  intros Hc. induction s as [|a s IH]; [reflexivity|].
  cbn [trimEnd has_char]. rewrite <- IH.
  destruct (is_space a) eqn:Ea; cbn [andb]; [|reflexivity].
  destruct (trimEnd s); cbn [is_empty has_char];
    rewrite ?(space_not_char c a Hc Ea); reflexivity.
Qed.

Lemma has_char_not_blank (c : ascii) (s : string) :
  is_space c = false -> has_char c s = true -> is_empty (trim s) = false.
Proof.
  intros Hc H. unfold trim.
  rewrite <- (has_char_trimStart c s Hc) in H.
  rewrite <- (has_char_trimEnd c _ Hc) in H.
  destruct (trimEnd (trimStart s)); [discriminate H | reflexivity].
Qed.

Lemma has_char_rev (c : ascii) (s acc : string) :
  has_char c (rev_string acc s) = has_char c s || has_char c acc.
Proof.
  revert acc. induction s as [|a s IH]; intros acc; [reflexivity|].
  cbn [rev_string has_char]. rewrite IH. cbn [has_char].
  destruct (Ascii.eqb a c), (has_char c s), (has_char c acc); reflexivity.
Qed.

(** A character other than the line feed is in the text when it is in
    one of its lines. *)
Lemma has_char_lines (c : ascii) (s cur : string) :
  Ascii.eqb c (ascii_of_nat 10) = false ->
  existsb (has_char c) (split_aux line_feed 0 cur s)
  = has_char c cur || has_char c s.
Proof.
  intros Hc. revert cur. induction s as [|a s IH]; intros cur.
  - cbn [split_aux existsb has_char]. rewrite has_char_rev.
    cbn [has_char]. rewrite !orb_false_r. reflexivity.
  - unfold line_feed in *. cbn [split_aux]. rewrite prefix_char.
    destruct (Ascii.eqb a (ascii_of_nat 10)) eqn:Ea.
    + apply Ascii.eqb_eq in Ea. subst a.
      cbn [String.length Nat.sub existsb has_char].
      rewrite has_char_rev, IH. cbn [has_char].
      rewrite Ascii.eqb_sym, Hc, !orb_false_r. cbn [orb]. reflexivity.
    + rewrite IH. cbn [has_char].
      destruct (Ascii.eqb a c), (has_char c cur), (has_char c s); reflexivity.
Qed.

Lemma existsb_filter {A : Type} (p q : A -> bool) (l : list A) :
  (forall x, p x = true -> q x = true) ->
  existsb p (filter q l) = existsb p l.
Proof.
  intros H. induction l as [|x l IH]; [reflexivity|].
  cbn [filter existsb]. destruct (q x) eqn:Q.
  - cbn [existsb]. rewrite IH. reflexivity.
  - destruct (p x) eqn:P; [rewrite (H x P) in Q; discriminate Q|].
    exact IH.
Qed.

Lemma existsb_same {A : Type} (p q : A -> bool) (l : list A) :
  (forall x, p x = q x) -> existsb p l = existsb q l.
Proof.
  intros H. induction l as [|x l IH]; [reflexivity|].
  cbn [existsb]. rewrite H, IH. reflexivity.
Qed.

Lemma existsb_orb {A : Type} (p q : A -> bool) (l : list A) :
  existsb (fun x => p x || q x) l = existsb p l || existsb q l.
Proof.
  induction l as [|x l IH]; [reflexivity|].
  cbn [existsb]. rewrite IH.
  destruct (p x), (q x), (existsb p l), (existsb q l); reflexivity.
Qed.

(** X20.  A text file is read as rows exactly when it holds a comma or
    a semicolon somewhere.  One semicolon anywhere in the file makes the
    semicolon the delimiter of the whole file, also when its lines are
    separated by commas.  A file with neither is returned as
    unstructured, with no event, for the model parser. *)
Theorem parseText_decision :
  forall (env : Env) (clock : nat -> Z)
         (Papa_parse : string -> string -> list Row) (content : string),
    parseText env clock Papa_parse content
    = if has_char ";" content
      then parseText_complete env clock (Papa_parse content ";")
      else if has_char "," content
           then parseText_complete env clock (Papa_parse content ",")
           else LocalParseResult.mk false [] (TextData content)
                  (Some ["Unstructured text detected - requires AI parsing"])
                  FileType.text.
Proof.
  intros env clock Papa_parse content. unfold parseText.
  rewrite existsb_filter.
  2:{ intros line H. rewrite !includes_char in H.
      apply orb_true_iff in H. apply negb_true_iff.
      destruct H as [H|H]; eapply has_char_not_blank; try exact H;
        reflexivity. }
  rewrite (existsb_same _ (fun x => has_char "," x || has_char ";" x));
    [|intros line; rewrite !includes_char; reflexivity].
  rewrite existsb_orb. unfold split.
  fold line_feed. rewrite !has_char_lines by reflexivity.
  cbn [has_char orb]. rewrite includes_char.
  destruct (has_char ";" content), (has_char "," content); reflexivity.
Qed.

End Files.

(** ** Replies: events that are not validated, events that are lost *)

Module Replies.
Import JSString JSNumber JSDate JSValue LLMTimetableParser Spec Props Reply.
Import Validation.

Lemma validateEvent_bad (env : Env) (bad : json) (index : nat) :
  bad = JNull \/ type_readable (member bad "type") = false ->
  is_ok (validateEvent env bad index) = false.
Proof.
  intros [-> | Ht]; [reflexivity|].
  destruct (json_null_dec bad) as [-> | Hn]; [reflexivity|].
  unfold validateEvent. rewrite !prop_member by assumption. cbn [bind].
  match goal with
  | |- context [bind ?d _] => destruct d as [date|e]; [|reflexivity]
  end.
  cbn [bind].
  pose proof (validateEventType_unreadable (member bad "type") Ht) as H.
  destruct (validateEventType (member bad "type")); [discriminate H|].
  reflexivity.
Qed.

Lemma validateEvents_bad (env : Env) (clock : nat -> Z) (bad : json)
    (l : list json) :
  bad = JNull \/ type_readable (member bad "type") = false ->
  In bad l ->
  forall index, is_ok (validateEvents env clock index l) = false.
Proof.
  intros Hbad. induction l as [|x l IH]; intros Hin index; [destruct Hin|].
  cbn [validateEvents].
  destruct Hin as [-> | Hin].
  - pose proof (validateEvent_bad (at_time env (clock index)) bad index Hbad) as H.
    destruct (validateEvent (at_time env (clock index)) bad index);
      [discriminate H | reflexivity].
  - destruct (validateEvent (at_time env (clock index)) x index);
      [|reflexivity].
    cbn [bind]. specialize (IH Hin (S index)).
    destruct (validateEvents env clock (S index) l);
      [discriminate IH | reflexivity].
Qed.

(** X21.  One event of the reply that cannot be validated, [null] or an
    event whose type is neither absent, [null] nor a string, loses all
    the events of the reply: the result is the one of a failure, with no
    event and confidence 0, wherever the event stands among the others
    and however good they are. *)
Theorem parseJSONResponse_all_or_nothing :
  forall (env : Env) (clock : nat -> Z) (content : string)
         (v : json) (l : list json) (bad : json),
    JSON.parse (cleanContent content) = Ok v ->
    member v "events" = Some (JArray l) ->
    In bad l ->
    bad = JNull \/ type_readable (member bad "type") = false ->
    let r := parseJSONResponse env clock content in
    ParseResult.success r = false
    /\ ParseResult.events r = Validated []
    /\ ParseResult.confidence r = JNumber 0 0
    /\ exists message,
         ParseResult.errors r = Some ["JSON parsing failed: " ++ message].
Proof.
  intros env clock content v l bad Hp Hm Hin Hbad r. subst r.
  assert (Hv : v <> JNull) by (intros ->; discriminate Hm).
  pose proof (validateEvents_bad env clock bad l Hbad Hin 0%nat) as Hl.
  unfold parseJSONResponse, parseJSONResponse_try.
  rewrite Hp. cbn [bind]. rewrite !prop_member by assumption.
  cbn [bind]. rewrite Hm.
  change (or_else (Some (JArray l)) (Some (JArray []))) with (Some (JArray l)).
  cbv iota.
  destruct (validateEvents env clock 0 l) as [vs|e]; [discriminate Hl|].
  cbn [bind]. repeat split. eexists; reflexivity.
Qed.

Lemma parseJSONResponse_all_or_nothing_witness :
  let r := parseJSONResponse utc_host fixed_clock reply_with_null in
  ParseResult.success r = false
  /\ ParseResult.events r = Validated []
  /\ ParseResult.confidence r = JNumber 0 0
  /\ exists message,
       ParseResult.errors r = Some ["JSON parsing failed: " ++ message].
Proof.
  eapply (parseJSONResponse_all_or_nothing utc_host fixed_clock
            reply_with_null _ _ JNull).
  - vm_compute. reflexivity.
  - reflexivity.
  - right. left. reflexivity.
  - left. reflexivity.
Defined.

(** X22.  A reply to an enhancement that is JSON and not [null] is
    always a success.  Its [enhancedEvents], when truthy, is returned as
    the events whatever it is: it is not looked at, and need not be an
    array.  Without it, or with a falsy one, the events are the
    caller's.  The confidence is the one of the reply, 80 when it gives
    none. *)
Theorem parseEnhancementResponse_takes_any_events :
  forall (content : string) (originalEvents : list ParsedTimetableEvent.t)
         (v : json),
    JSON.parse (cleanContent content) = Ok v -> v <> JNull ->
    let r := parseEnhancementResponse content originalEvents in
    ParseResult.success r = true
    /\ (forall x, member v "enhancedEvents" = Some x ->
                  truthy (Some x) = true -> ParseResult.events r = FromReply x)
    /\ (truthy (member v "enhancedEvents") = false ->
        ParseResult.events r = Original originalEvents)
    /\ ParseResult.confidence r
       = or_json (member v "confidence") (JNumber 80 0).
Proof.
  intros content originalEvents v Hp Hv r. subst r.
  unfold parseEnhancementResponse, parseEnhancementResponse_try.
  rewrite Hp. cbn [bind]. rewrite !prop_member by assumption.
  cbn [bind ParseResult.success ParseResult.events ParseResult.confidence].
  split; [reflexivity|]. split; [|split].
  - intros x Hx Ht. rewrite Hx, Ht. reflexivity.
  - intros Ht. rewrite Ht. reflexivity.
  - apply confidence_default.
Qed.

Lemma parseEnhancementResponse_takes_any_events_witness :
  let r := parseEnhancementResponse reply_number_events two_events in
  ParseResult.success r = true
  /\ ParseResult.events r = FromReply (JNumber 1 0)
  /\ ParseResult.confidence r = JNumber 80 0.
Proof.
  intros r.
  destruct (parseEnhancementResponse_takes_any_events reply_number_events
              two_events (JObject [("enhancedEvents", JNumber 1 0)]))
    as (Hs & He & _ & Hc).
  - vm_compute. reflexivity.
  - discriminate.
  - split; [exact Hs|]. split; [|exact Hc].
    apply He; reflexivity.
Defined.

End Replies.
